(** * pdf_renamer: the image and coordinate pipeline of [main.py]

    A shallow embedding of the [Api] class of [src/main.py] and the
    properties of its navigation, rotation, preview, selection-mapping,
    export and metadata operations.

    Modelling conventions.
    - Python [int] is [Z]; [%] is Python's floored modulo, which for the
      positive divisors used here is [Z.modulo].
    - Python [float] is IEEE 754 binary64.  A finite float is represented by
      the rational it denotes and every arithmetic operation rounds the exact
      result to 53 significant bits, ties to even ([PyFloat.round64]).  The
      exponent range is not bounded: overflow and subnormals do not arise for
      the pixel quantities the pipeline computes.
    - Python [str] is a [string] of UTF-8 bytes.  All characters the code
      inspects ([/], [.], the reserved set, decimal digits) are ASCII, so
      byte positions of those characters are code-point boundaries.
      [str.lower] is modelled on ASCII letters.
    - An exception is a value [Raises e]; [try/except Exception] is a match.
    - The [Api] instance is an explicit record threaded through every
      method; the file system is a finite set of existing paths.
    - Pillow, PyMuPDF, the dialogs and the OCR service are outside the
      program: they are the fields of the record [World], and what a dialog
      returns is an argument of the method that opens it.
    - The metadata store ([save_image_data], [load_folder_data],
      [clear_folder_data]) works on the value [json.load] returns: the data
      file is missing, unreadable, or holds a JSON value of any shape, and
      how the write ends is an argument of the method that writes.  An
      exception of the store is kept as a value, not as its message text.
    - The HTTP exchange of [perform_ocr], the signature of its request and
      the window set up by [main] are not modelled. *)

From Stdlib Require Import ZArith QArith Qround Qabs Qpower Lia Lqa.
From Stdlib Require Import String Ascii List Sorted Permutation.
From Stdlib Require Import Floats.SpecFloat.
From stdpp Require Import base tactics option list strings gmap pretty sorting.
Import ListNotations.

Local Open Scope string_scope.
Local Open Scope Z_scope.

(** ** Exceptions *)

Inductive result (A : Type) : Type :=
| Returns (a : A)
| Raises (e : string).
Arguments Returns {A} a.
Arguments Raises {A} e.

#[global] Instance result_ret : MRet result := fun A a => Returns a.

#[global] Instance result_bind : MBind result := fun A B k r =>
  match r with
  | Returns a => k a
  | Raises e => Raises e
  end.

(** ** Python floats *)

Module PyFloat.
Local Open Scope Q_scope.

Definition two : Q := 2 # 1.

(** Nearest integer, ties to the even one. *)
Definition round_half_even (t : Q) : Z :=
  let f := Qfloor t in
  match Qcompare (t - inject_Z f) (1 # 2) with
  | Lt => f
  | Gt => (f + 1)%Z
  | Eq => if Z.even f then f else (f + 1)%Z
  end.

(** The exponent [e] with [2^e <= q < 2^(e+1)], for [0 < q]. *)
Definition binade (q : Q) : Z :=
  let e0 := (Z.log2 (Qnum q) - Z.log2 (Zpos (Qden q)))%Z in
  if Qle_bool (two ^ e0) q then e0 else (e0 - 1)%Z.

(** Scale the significand into [[2^52, 2^53)], round it, scale back. *)
Definition round64_pos (q : Q) : Q :=
  let s := (52 - binade q)%Z in
  Qred (inject_Z (round_half_even (q * two ^ s)) * two ^ (- s)).

Definition round64 (q : Q) : Q :=
  match Qnum q with
  | Z0 => 0
  | Zpos _ => round64_pos q
  | Zneg _ => Qred (- round64_pos (- q))
  end.

(** Unit roundoff of binary64, [2^-53]. *)
Definition u : Q := 1 # 9007199254740992.

(** [float(n)] for an [int]. *)
Definition of_int (n : Z) : Q := round64 (inject_Z n).

(** [a * b] and [a / b] on floats; [/] raises on a zero divisor. *)
Definition mul (a b : Q) : Q := round64 (a * b).

Definition div (a b : Q) : result Q :=
  if Qeq_bool b 0 then Raises "float division by zero"
  else Returns (round64 (a / b)).

(** [a / b] on two [int]s: the correctly rounded quotient. *)
Definition truediv (a b : Z) : result Q :=
  if (b =? 0)%Z then Raises "division by zero"
  else Returns (round64 (inject_Z a / inject_Z b)).

(** [min(a, b)]: the second argument only when it is smaller. *)
Definition min (a b : Q) : Q := if Qlt_le_dec b a then b else a.

(** [int(x)]: truncation toward zero. *)
Definition to_int (x : Q) : Z := Z.quot (Qnum x) (Zpos (Qden x)).

(** The rational denoted by a finite float of the IEEE 754 specification
    of the Standard Library, and the float of an [int] there. *)
Definition of_spec (x : spec_float) : option Q :=
  match x with
  | S754_zero _ => Some 0
  | S754_finite s m e =>
      Some (Qred ((if s then - (1) else 1) * inject_Z (Zpos m) * two ^ e))
  | _ => None
  end.

Definition spec_of_int (n : Z) : spec_float :=
  binary_normalize 53 1024 n 0 false.

End PyFloat.

(** ** Python strings and paths *)

Module PyStr.

Definition lower_char (c : ascii) : ascii :=
  let n := nat_of_ascii c in
  if ((65 <=? n) && (n <=? 90))%nat then ascii_of_nat (n + 32) else c.

(** [s.lower()] *)
Fixpoint lower (s : string) : string :=
  match s with
  | EmptyString => EmptyString
  | String c r => String (lower_char c) (lower r)
  end.

(** [c in s] for a one-character [c] *)
Fixpoint contains (c : ascii) (s : string) : bool :=
  match s with
  | EmptyString => false
  | String d r => Ascii.eqb d c || contains c r
  end.

Fixpoint rfind_from (c : ascii) (s : string) (i last : Z) : Z :=
  match s with
  | EmptyString => last
  | String d r => rfind_from c r (i + 1) (if Ascii.eqb d c then i else last)
  end.

(** [s.rfind(c)]: the last index of [c], or [-1] *)
Definition rfind (c : ascii) (s : string) : Z := rfind_from c s 0 (-1).

Fixpoint drop (n : nat) (s : string) : string :=
  match n, s with
  | O, _ => s
  | S k, String _ r => drop k r
  | S _, EmptyString => EmptyString
  end.

Fixpoint take (n : nat) (s : string) : string :=
  match n, s with
  | S k, String c r => String c (take k r)
  | _, _ => EmptyString
  end.

(** [s[i:]], [s[:i]] and [s[i:i+1]] for [0 <= i] *)
Definition slice_from (i : Z) (s : string) : string := drop (Z.to_nat i) s.
Definition slice_to (i : Z) (s : string) : string := take (Z.to_nat i) s.
Definition slice_at (i : Z) (s : string) : string := take 1 (slice_from i s).

Definition len (s : string) : Z := Z.of_nat (String.length s).

(** [s.startswith(c)] and [s.endswith(c)] *)
Definition startswith (c : ascii) (s : string) : bool :=
  match s with
  | String d _ => Ascii.eqb d c
  | EmptyString => false
  end.

Fixpoint endswith (c : ascii) (s : string) : bool :=
  match s with
  | EmptyString => false
  | String d EmptyString => Ascii.eqb d c
  | String _ r => endswith c r
  end.

(** [s.rstrip(c)] *)
Fixpoint rstrip (c : ascii) (s : string) : string :=
  match s with
  | EmptyString => EmptyString
  | String d r =>
      match rstrip c r with
      | EmptyString => if Ascii.eqb d c then EmptyString else String d EmptyString
      | r' => String d r'
      end
  end.

(** [sep.join(l)] *)
Fixpoint join_with (sep : string) (l : list string) : string :=
  match l with
  | [] => ""
  | [s] => s
  | s :: r => s +:+ sep +:+ join_with sep r
  end.

(** [str(n)] of an [int], as in an f-string *)
Definition of_int (n : Z) : string := pretty n.

End PyStr.

(** [os.path], POSIX flavour *)
Module os_path.
Import PyStr.

Definition sep : ascii := "/"%char.
Definition extsep : ascii := "."%char.

(** [os.path.join(a, b)] *)
Definition join (a b : string) : string :=
  if startswith sep b then b
  else if String.eqb a "" || endswith sep a then a +:+ b
  else a +:+ String sep b.

(** The loop of [genericpath._splitext] that skips leading dots: does the
    file name have a character other than a dot before [dotIndex]? *)
Fixpoint non_dot_before (p : string) (filenameIndex : Z) (steps : nat) : bool :=
  match steps with
  | O => false
  | S k =>
      if negb (String.eqb (slice_at filenameIndex p) (String extsep ""))
      then true
      else non_dot_before p (filenameIndex + 1) k
  end.

(** [os.path.splitext(p)] *)
Definition splitext (p : string) : string * string :=
  let sepIndex := rfind sep p in
  let dotIndex := rfind extsep p in
  if (sepIndex <? dotIndex)
     && non_dot_before p (sepIndex + 1) (Z.to_nat (dotIndex - (sepIndex + 1)))
  then (slice_to dotIndex p, slice_from dotIndex p)
  else (p, "").

(** [os.path.basename(p)] *)
Definition basename (p : string) : string := slice_from (rfind sep p + 1) p.

(** [os.path.dirname(p)] *)
Definition dirname (p : string) : string :=
  let head := slice_to (rfind sep p + 1) p in
  if negb (String.eqb head "") && negb (String.eqb (rstrip sep head) "")
  then rstrip sep head
  else head.

(** [pathlib.PurePath(p).suffix] *)
Definition suffix (p : string) : string :=
  let name := basename p in
  let i := rfind extsep name in
  if (0 <? i) && (i <? len name - 1) then slice_from i name else "".

End os_path.

(** ** Lists *)

Definition py_len {A : Type} (l : list A) : Z := Z.of_nat (length l).

(** [l[i]]: a negative index counts from the end. *)
Definition getitem {A : Type} (l : list A) (i : Z) : result A :=
  let j := if i <? 0 then i + py_len l else i in
  if (j <? 0) || (py_len l <=? j) then Raises "list index out of range"
  else match l !! Z.to_nat j with
       | Some a => Returns a
       | None => Raises "list index out of range"
       end.

(** [not l] *)
Definition is_empty {A : Type} (l : list A) : bool :=
  match l with [] => true | _ => false end.

(** ** Session state and responses *)

Definition MAX_DISPLAY_SIZE : Z := 4200.

Record Api : Type := mkApi {
  images : list string;
  current_index : Z;
  save_path : string;
  rotation : Z;
  original_width : Z;
  original_height : Z;
  display_width : Z;
  display_height : Z;
  current_folder : string
}.

(** [Api.__init__] *)
Definition Api_init : Api := mkApi [] 0 "" 0 0 0 0 0 "".

Definition set_images (v : list string) (st : Api) : Api :=
  mkApi v (current_index st) (save_path st) (rotation st) (original_width st)
    (original_height st) (display_width st) (display_height st) (current_folder st).
Definition set_current_index (v : Z) (st : Api) : Api :=
  mkApi (images st) v (save_path st) (rotation st) (original_width st)
    (original_height st) (display_width st) (display_height st) (current_folder st).
Definition set_save_path_field (v : string) (st : Api) : Api :=
  mkApi (images st) (current_index st) v (rotation st) (original_width st)
    (original_height st) (display_width st) (display_height st) (current_folder st).
Definition set_rotation (v : Z) (st : Api) : Api :=
  mkApi (images st) (current_index st) (save_path st) v (original_width st)
    (original_height st) (display_width st) (display_height st) (current_folder st).
Definition set_original (v : Z * Z) (st : Api) : Api :=
  mkApi (images st) (current_index st) (save_path st) (rotation st) (fst v)
    (snd v) (display_width st) (display_height st) (current_folder st).
Definition set_display (v : Z * Z) (st : Api) : Api :=
  mkApi (images st) (current_index st) (save_path st) (rotation st) (original_width st)
    (original_height st) (fst v) (snd v) (current_folder st).
Definition set_current_folder (v : string) (st : Api) : Api :=
  mkApi (images st) (current_index st) (save_path st) (rotation st) (original_width st)
    (original_height st) (display_width st) (display_height st) v.

(** The dictionary returned by [_get_current_image_data] on success. *)
Record image_data : Type := mkData {
  image : string;
  filename : string;
  filepath : string;
  index : Z;
  total : Z;
  width : Z;
  height : Z;
  originalWidth : Z;
  originalHeight : Z
}.

(** The dictionaries the methods return.  [Failure] is
    [{"success": False, "message": m}]; every other constructor has
    ["success": True]; [WithFolder] is a dictionary with the extra key
    ["folderPath"]. *)
Inductive response : Type :=
| Failure (message : string)
| Preview (data : image_data)
| WithFolder (folderPath : string) (data : response)
| OcrText (text : string)
| PathSet (path : string)
| Saved (message path : string) (finished : bool) (nextImage : response).

Fixpoint success (r : response) : bool :=
  match r with
  | Failure _ => false
  | WithFolder _ d => success d
  | _ => true
  end.

Fixpoint message_of (r : response) : option string :=
  match r with
  | Failure m => Some m
  | Saved m _ _ _ => Some m
  | WithFolder _ d => message_of d
  | _ => None
  end.

(** What [rename_and_save] writes to the destination. *)
Inductive write_action : Type :=
| CopyFile (src dst : string)
    (* shutil.copy2(src, dst) *)
| SaveImage (src dst : string) (exif_transpose : bool) (rotate : option Z)
    (quality subsampling : Z).
    (* Image.open(src), transposed, rotated, img.save(dst, quality, subsampling) *)

(** What [Image.open(path)._getexif()] gives. *)
Inductive exif_probe : Type :=
| ProbeRaises
| ProbeNone
| ProbeDict (exif : gmap Z Z).

(** The box handed to [img.crop]. *)
Definition box : Type := Z * Z * Z * Z.

(** ** The pure steps of the pipeline *)

(** Size of [img.rotate(angle, expand=True)] for a quarter-turn [angle]
    (Pillow transposes the image; [RotationState] holds no other angle). *)
Definition rotate_expand (angle : Z) (size : Z * Z) : Z * Z :=
  let a := angle mod 360 in
  if (a =? 90) || (a =? 270) then (snd size, fst size) else size.

(** The size of the image after [if self.rotation != 0: img.rotate(...)]. *)
Definition rotated_size (rotation : Z) (natural : Z * Z) : Z * Z :=
  if negb (rotation =? 0) then rotate_expand (- rotation) natural else natural.

(** Does [_get_current_image_data] resample? *)
Definition exceeds_display (size : Z * Z) : bool :=
  (MAX_DISPLAY_SIZE <? fst size) || (MAX_DISPLAY_SIZE <? snd size).

(** The ratio of the downscale,
    [min(MAX_DISPLAY_SIZE / img.width, MAX_DISPLAY_SIZE / img.height)]. *)
Definition display_ratio (size : Z * Z) : result Q :=
  rw ← PyFloat.truediv MAX_DISPLAY_SIZE (fst size);
  rh ← PyFloat.truediv MAX_DISPLAY_SIZE (snd size);
  mret (PyFloat.min rw rh).

(** The size of [display_img]. *)
Definition display_size (size : Z * Z) : result (Z * Z) :=
  if exceeds_display size then
    ratio ← display_ratio size;
    let new_width := PyFloat.to_int (PyFloat.mul (PyFloat.of_int (fst size)) ratio) in
    let new_height := PyFloat.to_int (PyFloat.mul (PyFloat.of_int (snd size)) ratio) in
    mret (new_width, new_height)
  else mret size.

(** The coordinate mapping of [crop_and_ocr]: from the size of the picture
    on screen to the box cropped from the full-resolution image. *)
Definition map_selection (actual : Z * Z) (x y width height img_width img_height : Q)
  : result box :=
  let '(actual_width, actual_height) := actual in
  scale_x ← PyFloat.div (PyFloat.of_int actual_width) img_width;
  scale_y ← PyFloat.div (PyFloat.of_int actual_height) img_height;
  let crop_x := PyFloat.to_int (PyFloat.mul x scale_x) in
  let crop_y := PyFloat.to_int (PyFloat.mul y scale_y) in
  let crop_width := PyFloat.to_int (PyFloat.mul width scale_x) in
  let crop_height := PyFloat.to_int (PyFloat.mul height scale_y) in
  let crop_x := Z.max 0 (Z.min crop_x actual_width) in
  let crop_y := Z.max 0 (Z.min crop_y actual_height) in
  let crop_x2 := Z.max 0 (Z.min (crop_x + crop_width) actual_width) in
  let crop_y2 := Z.max 0 (Z.min (crop_y + crop_height) actual_height) in
  mret (crop_x, crop_y, crop_x2, crop_y2).

(** [_is_pdf] *)
Definition _is_pdf (file_path : string) : bool :=
  String.eqb (PyStr.lower (snd (os_path.splitext file_path))) ".pdf".

(** The characters Windows forbids in a file name: backslash, slash, colon,
    star, question mark, double quote, angle brackets and bar. *)
Definition invalid_chars : list ascii :=
  ["\"; "/"; ":"; "*"; "?"; "034"; "<"; ">"; "|"]%char.

Definition invalid_found (image_name image_number : string) : list ascii :=
  filter (fun char => PyStr.contains char image_name || PyStr.contains char image_number)
    invalid_chars.

Definition newline : string := String "010"%char "".

Definition invalid_message (found : list ascii) : string :=
  let chars_display := PyStr.join_with " " (map (fun c => String c "") found) in
  "文件名包含非法字符: " +:+ chars_display +:+ newline +:+ "请修改图名或图号后重试".

(** The extension of the exported file. *)
Definition export_ext (image_path : string) : string :=
  let original_ext := PyStr.lower (snd (os_path.splitext image_path)) in
  if String.eqb original_ext "" then ".jpg" else original_ext.

(** The base name of the exported file. *)
Definition export_base (image_name image_number : string) : string :=
  if negb (String.eqb image_name "") && negb (String.eqb image_number "")
  then image_name +:+ "-" +:+ image_number
  else if negb (String.eqb image_name "") then image_name
  else image_number.

(** The path probed with suffix [(counter)]. *)
Definition numbered_path (save_path base_name original_ext : string) (counter : Z)
  : string :=
  os_path.join save_path
    (base_name +:+ "(" +:+ PyStr.of_int counter +:+ ")" +:+ original_ext).

(** The loop [while os.path.exists(save_file_path)]; [None] when [fuel]
    iterations do not reach a free path. *)
Fixpoint probe_free (fuel : nat) (fs : gset string)
    (save_path base_name original_ext save_file_path : string) (counter : Z)
  : option string :=
  match fuel with
  | O => None
  | S k =>
      if bool_decide (save_file_path ∈ fs)
      then probe_free k fs save_path base_name original_ext
             (numbered_path save_path base_name original_ext counter) (counter + 1)
      else Some save_file_path
  end.

(** The check for a pending rotation or a non-upright EXIF orientation
    (tag 274).  The bare [except] turns a failing probe into "no". *)
Definition needs_processing (rotation : Z) (probe : exif_probe) : bool :=
  if negb (rotation =? 0) then true
  else match probe with
       | ProbeDict exif =>
           if bool_decide (exif ≠ ∅)
           then match exif !! 274 with
                | Some exif_orientation => negb (exif_orientation =? 1)
                | None => false
                end
           else false
       | ProbeNone | ProbeRaises => false
       end.

(** The branch of [rename_and_save] that writes the file. *)
Definition write_plan (is_pdf : bool) (rotation : Z) (probe : exif_probe)
    (image_path save_file_path : string) : write_action :=
  if is_pdf then CopyFile image_path save_file_path
  else if negb (needs_processing rotation probe)
  then CopyFile image_path save_file_path
  else SaveImage image_path save_file_path true
         (if negb (rotation =? 0) then Some (- rotation) else None) 100 0.

(** The extensions [open_folder] keeps, and the filter of the dialog of
    [open_file]. *)
Definition supported_extensions : gset string :=
  {[ ".jpg"; ".jpeg"; ".png"; ".bmp"; ".gif"; ".webp"; ".pdf" ]}.

Definition file_types : string :=
  "Description (" +:+ "*.jpg;*.jpeg;*.png;*.bmp;*.gif;*.webp;*.pdf;*.tiff;*.tif)".

(** The patterns the dialog receives from a file-type description: the
    text between the parentheses, split at the semicolons. *)
Fixpoint split (c : ascii) (s : string) : list string :=
  match s with
  | EmptyString => [EmptyString]
  | String d r =>
      match split c r with
      | w :: ws => if Ascii.eqb d c then EmptyString :: w :: ws else String d w :: ws
      | [] => [String d EmptyString]
      end
  end.

Fixpoint find_from (c : ascii) (s : string) (i : Z) : Z :=
  match s with
  | EmptyString => -1
  | String d r => if Ascii.eqb d c then i else find_from c r (i + 1)
  end.

Definition dialog_patterns (description : string) : list string :=
  let opening := find_from "("%char description 0 in
  let closing := PyStr.rfind ")"%char description in
  split ";"%char
    (PyStr.slice_from (opening + 1) (PyStr.slice_to closing description)).

(** ** The methods of [Api] *)

(** Pillow, PyMuPDF, the file system and the OCR service. *)
Record World : Type := mkWorld {
  (* size of the first page of a PDF rendered at scale 2 *)
  fitz_first_page : string -> result (Z * Z);
  (* size of ImageOps.exif_transpose(Image.open(path)) *)
  pil_open_upright : string -> result (Z * Z);
  (* img.resize(new_size, LANCZOS) from a size to a size *)
  pil_resize : Z * Z -> Z * Z -> result unit;
  (* base64 of the JPEG preview of a path, rotation and display size *)
  jpeg_base64 : string -> Z -> Z * Z -> result string;
  (* Image.open(path)._getexif() *)
  pil_getexif : string -> exif_probe;
  (* the write of the exported file *)
  perform_write : write_action -> result unit;
  (* img.crop(box) followed by perform_ocr, which returns the empty text
     on its own failures *)
  crop_then_ocr : string -> Z -> box -> result string;
  (* Path(folder).iterdir(), as path strings *)
  iterdir : string -> result (list string)
}.

Section Methods.

Context (W : World).

(** [_load_image]: the size of the canonical buffer before user rotation. *)
Definition _load_image (image_path : string) : result (Z * Z) :=
  if _is_pdf image_path then fitz_first_page W image_path
  else pil_open_upright W image_path.

(** The [try] block of [_get_current_image_data].  The conversion to RGB
    changes no size; it is part of [jpeg_base64], as are [display_img.save]
    and the base64 encoding. *)
Definition derive_preview (st : Api) : Api * result image_data :=
  match getitem (images st) (current_index st) with
  | Raises e => (st, Raises e)
  | Returns image_path =>
  match _load_image image_path with
  | Raises e => (st, Raises e)
  | Returns natural =>
  let size := rotated_size (rotation st) natural in
  let st := set_original size st in
  match display_size size with
  | Raises e => (st, Raises e)
  | Returns new_size =>
  match (if exceeds_display size then pil_resize W size new_size else Returns tt) with
  | Raises e => (st, Raises e)
  | Returns _ =>
  let st := set_display new_size st in
  match jpeg_base64 W image_path (rotation st) new_size with
  | Raises e => (st, Raises e)
  | Returns img_base64 =>
      (st, Returns {| image := "data:image/jpeg;base64," +:+ img_base64;
                      filename := os_path.basename image_path;
                      filepath := image_path;
                      index := current_index st;
                      total := py_len (images st);
                      width := display_width st;
                      height := display_height st;
                      originalWidth := original_width st;
                      originalHeight := original_height st |})
  end end end end end.

Definition _get_current_image_data (st : Api) : Api * response :=
  if is_empty (images st) || (py_len (images st) <=? current_index st)
  then (st, Failure "没有可显示的图片")
  else match derive_preview st with
       | (st', Returns data) => (st', Preview data)
       | (st', Raises e) => (st', Failure ("读取图片失败: " +:+ e))
       end.

Definition next_image (st : Api) : Api * response :=
  if is_empty (images st) then (st, Failure "没有加载图片")
  else
    let st := set_current_index ((current_index st + 1) mod py_len (images st)) st in
    let st := set_rotation 0 st in
    _get_current_image_data st.

Definition prev_image (st : Api) : Api * response :=
  if is_empty (images st) then (st, Failure "没有加载图片")
  else
    let st := set_current_index ((current_index st - 1) mod py_len (images st)) st in
    let st := set_rotation 0 st in
    _get_current_image_data st.

Definition goto_image (st : Api) (index : Z) : Api * response :=
  if is_empty (images st) then (st, Failure "没有加载图片")
  else
    let actual_index := index - 1 in
    if (actual_index <? 0) || (py_len (images st) <=? actual_index)
    then (st, Failure ("无效的页码，请输入 1-" +:+ PyStr.of_int (py_len (images st))))
    else
      let st := set_current_index actual_index st in
      let st := set_rotation 0 st in
      _get_current_image_data st.

Definition rotate_left (st : Api) : Api * response :=
  let st := set_rotation ((rotation st - 90) mod 360) st in
  _get_current_image_data st.

Definition rotate_right (st : Api) : Api * response :=
  let st := set_rotation ((rotation st + 90) mod 360) st in
  _get_current_image_data st.

(** [open_file]; [dialog] is what [create_file_dialog] gives. *)
Definition open_file (st : Api) (dialog : result (option (list string)))
  : Api * response :=
  match dialog with
  | Raises e => (st, Failure ("打开文件失败: " +:+ e))
  | Returns (Some (file_path :: _)) =>
      let st := set_current_folder (os_path.dirname file_path) st in
      let st := set_images [file_path] st in
      let st := set_current_index 0 st in
      let st := set_rotation 0 st in
      let '(st, data) := _get_current_image_data st in
      (st, WithFolder (current_folder st) data)
  | Returns _ => (st, Failure "未选择文件")
  end.

(** The loop of [open_folder] over the sorted entries. *)
Definition supported_images (entries : list string) : list string :=
  filter (fun file => PyStr.lower (os_path.suffix file) ∈ supported_extensions)
    (merge_sort String.le entries).

Definition open_folder (st : Api) (dialog : result (option (list string)))
  : Api * response :=
  match dialog with
  | Raises e => (st, Failure ("打开文件夹失败: " +:+ e))
  | Returns (Some (folder_path :: _)) =>
      let st := set_current_folder folder_path st in
      let st := set_images [] st in
      match iterdir W folder_path with
      | Raises e => (st, Failure ("打开文件夹失败: " +:+ e))
      | Returns entries =>
          let st := set_images (supported_images entries) st in
          if negb (is_empty (images st)) then
            let st := set_current_index 0 st in
            let st := set_rotation 0 st in
            let '(st, data) := _get_current_image_data st in
            (st, WithFolder (current_folder st) data)
          else (st, Failure "文件夹中没有图片或PDF")
      end
  | Returns _ => (st, Failure "未选择文件夹")
  end.

(** [set_save_path] and [get_save_path] *)
Definition set_save_path (st : Api) (dialog : result (option (list string)))
  : Api * response :=
  match dialog with
  | Raises e => (st, Failure ("设置路径失败: " +:+ e))
  | Returns (Some (folder :: _)) =>
      let st := set_save_path_field folder st in
      (st, PathSet (save_path st))
  | Returns _ => (st, Failure "未选择保存路径")
  end.

Definition get_save_path (st : Api) : string := save_path st.

(** [crop_and_ocr]: the method assigns no field of the session. *)
Definition crop_and_ocr (st : Api) (x y width height img_width img_height : Q)
  : Api * response :=
  if is_empty (images st) || (py_len (images st) <=? current_index st)
  then (st, Failure "没有可处理的图片")
  else
    let outcome :=
      image_path ← getitem (images st) (current_index st);
      natural ← _load_image image_path;
      let actual := rotated_size (rotation st) natural in
      crop_box ← map_selection actual x y width height img_width img_height;
      crop_then_ocr W image_path (rotation st) crop_box in
    match outcome with
    | Returns text => (st, OcrText text)
    | Raises e => (st, Failure ("处理失败: " +:+ e))
    end.

(** [rename_and_save]; [fs] is the set of existing paths, [None] only when
    the probing loop is cut off by [fuel]. *)
Definition rename_and_save (fuel : nat) (st : Api) (fs : gset string)
    (image_name image_number : string) : option (Api * gset string * response) :=
  if is_empty (images st) || (py_len (images st) <=? current_index st)
  then Some (st, fs, Failure "没有可保存的图片")
  else if String.eqb (save_path st) ""
  then Some (st, fs, Failure "请先设置保存路径")
  else if String.eqb image_name "" && String.eqb image_number ""
  then Some (st, fs, Failure "图名和图号不能都为空")
  else
  let found := invalid_found image_name image_number in
  if negb (is_empty found)
  then Some (st, fs, Failure (invalid_message found))
  else
  match getitem (images st) (current_index st) with
  | Raises e => Some (st, fs, Failure ("保存失败: " +:+ e))
  | Returns image_path =>
  let is_pdf := _is_pdf image_path in
  let original_ext := export_ext image_path in
  let base_name := export_base image_name image_number in
  match probe_free fuel fs (save_path st) base_name original_ext
          (os_path.join (save_path st) (base_name +:+ original_ext)) 1 with
  | None => None
  | Some save_file_path =>
  match perform_write W
          (write_plan is_pdf (rotation st) (pil_getexif W image_path)
             image_path save_file_path) with
  | Raises e => Some (st, fs, Failure ("保存失败: " +:+ e))
  | Returns _ =>
  let fs := {[ save_file_path ]} ∪ fs in
  let st := set_rotation 0 st in
  let total := py_len (images st) in
  if total =? 1 then
    let '(st, next_image_data) := _get_current_image_data st in
    Some (st, fs, Saved "图片已保存" save_file_path false next_image_data)
  else
    let st := set_current_index ((current_index st + 1) mod total) st in
    let '(st, next_image_data) := _get_current_image_data st in
    Some (st, fs,
          Saved ("图片已保存，当前第 " +:+ PyStr.of_int (current_index st + 1)
                 +:+ "/" +:+ PyStr.of_int total +:+ " 张")
            save_file_path false next_image_data)
  end end end.

End Methods.

(** ** Sequences of rotations *)

Inductive turn : Type := TurnLeft | TurnRight.

Definition rotate (W : World) (t : turn) (st : Api) : Api * response :=
  match t with
  | TurnLeft => rotate_left W st
  | TurnRight => rotate_right W st
  end.

(** The session and the last response after a sequence of rotate calls;
    [last] is the response standing before the sequence. *)
Fixpoint rotate_all (W : World) (ts : list turn) (st : Api) (last : response)
  : Api * response :=
  match ts with
  | [] => (st, last)
  | t :: ts' => let '(st', r) := rotate W t st in rotate_all W ts' st' r
  end.

Definition degrees (t : turn) : Z :=
  match t with TurnLeft => -90 | TurnRight => 90 end.

Definition total_degrees (ts : list turn) : Z :=
  fold_right (fun t acc => degrees t + acc) 0 ts.

#[global] Instance turn_eq_dec : EqDecision turn.
Proof. solve_decision. Defined.

Definition count_turn (d : turn) (ts : list turn) : nat :=
  length (filter (fun t => t = d) ts).

(** The values [RotationState] takes. *)
Definition quarter_turn (r : Z) : Prop := r = 0 \/ r = 90 \/ r = 180 \/ r = 270.

(** An asset is active: the list is not empty and the index points into it. *)
Definition has_active_asset (st : Api) : Prop :=
  images st <> [] /\ 0 <= current_index st < py_len (images st).

(** The invariant of a session: an active asset unless the list is empty,
    and a rotation of whole quarter turns. *)
Definition session_ok (st : Api) : Prop :=
  (images st = [] \/ has_active_asset st) /\ quarter_turn (rotation st).

(** A size with width and height exchanged. *)
Definition swap (size : Z * Z) : Z * Z := (snd size, fst size).

(** [max(0, min(v, bound))] *)
Definition clamp (bound v : Z) : Z := Z.max 0 (Z.min v bound).

(** The name and number pass the validation of [rename_and_save]. *)
Definition valid_name_number (image_name image_number : string) : Prop :=
  ~ (image_name = "" /\ image_number = "")
  /\ invalid_found image_name image_number = [].

(** The session passes the guards that precede the validation. *)
Definition ready_to_commit (st : Api) : Prop :=
  has_active_asset st /\ save_path st <> "".

(** Two sessions that show the same asset under the same rotation. *)
Definition same_view (a b : Api) : Prop :=
  images a = images b /\ current_index a = current_index b
  /\ rotation a = rotation b.

(** Two sessions that differ at most in the recorded sizes. *)
Definition same_session (a b : Api) : Prop :=
  same_view a b /\ save_path a = save_path b
  /\ current_folder a = current_folder b.

(** ** A sample world and session *)

Definition sample_world : World := {|
  fitz_first_page := fun _ => Returns (1190, 1684);
  pil_open_upright := fun _ => Returns (6000, 4000);
  pil_resize := fun _ _ => Returns tt;
  jpeg_base64 := fun _ _ _ => Returns "/9j/4AAQ";
  pil_getexif := fun _ => ProbeNone;
  perform_write := fun _ => Returns tt;
  crop_then_ocr := fun _ _ _ => Returns "A-1";
  iterdir := fun _ =>
    Returns ["/scans/c.png"; "/scans/notes.txt"; "/scans/b.PDF"; "/scans/d.tif";
             "/scans/a.jpg"]
|}.

Definition sample_session : Api :=
  mkApi ["/scans/a.jpg"; "/scans/b.PDF"; "/scans/c.png"] 2 "/out" 0 0 0 0 0 "/scans".

(** A world in which no file can be decoded. *)
Definition unreadable_world : World := {|
  fitz_first_page := fun _ => Raises "cannot open broken document";
  pil_open_upright := fun _ => Raises "cannot identify image file";
  pil_resize := fun _ _ => Returns tt;
  jpeg_base64 := fun _ _ _ => Returns "/9j/4AAQ";
  pil_getexif := fun _ => ProbeRaises;
  perform_write := fun _ => Returns tt;
  crop_then_ocr := fun _ _ _ => Returns "";
  iterdir := fun _ => Returns []
|}.

(** ** The export decision in the words of the specification *)



(** A reserved character that occurs in the name or in the number. *)
Definition reserved_in (image_name image_number : string) (c : ascii) : Prop :=
  c ∈ invalid_chars
  /\ (PyStr.contains c image_name = true \/ PyStr.contains c image_number = true).

(** The path a completed commit reports. *)
Definition saved_path (outcome : option (Api * gset string * response))
  : option string :=
  match outcome with
  | Some (_, _, Saved _ path _ _) => Some path
  | _ => None
  end.

(** The session and the file system a commit leaves. *)
Definition after_commit (outcome : option (Api * gset string * response))
  (st : Api) (fs : gset string) : Api * gset string :=
  match outcome with
  | Some (st', fs', _) => (st', fs')
  | None => (st, fs)
  end.

(** A session of scanned drawings and a destination holding [A-1.jpg]. *)
Definition drawings_session : Api :=
  mkApi ["/scans/p1.jpg"; "/scans/p2.jpg"; "/scans/p3.jpg"] 0 "/out" 0 0 0 0 0
    "/scans".

Definition destination_with_A1 : gset string := {[ "/out/A-1.jpg" ]}.

(** ** A run of commits *)


(** ** The metadata store *)

(** What [json.load] returns.  An object is a finite map: the store looks
    members up by key and never observes their order. *)
#[local] Set Warnings "-register-all".
Inductive json : Type :=
| JNull
| JBool (b : bool)
| JInt (n : Z)
| JFloat (x : spec_float)
| JString (s : string)
| JArray (items : list json)
| JObject (members : gmap string json).

(** The operations of the store that can raise on a value. *)
Inductive operation : Type := Contains | GetItem | SetItem | DelItem.

(** The exceptions of the store methods.  The message of a failure response
    is [str(e)], the interpreter's text for the exception; the model keeps
    the exception itself: its class, the operation and the value it was
    raised on. *)
Inductive store_error : Type :=
| TypeError (op : operation) (on : json)
| KeyError (key : string)
| AttributeError (on : json) (attribute : string).

Inductive attempt (A : Type) : Type :=
| Done (a : A)
| Thrown (e : store_error).
Arguments Done {A} a.
Arguments Thrown {A} e.

#[global] Instance attempt_ret : MRet attempt := fun A a => Done a.

#[global] Instance attempt_bind : MBind attempt := fun A B k r =>
  match r with
  | Done a => k a
  | Thrown e => Thrown e
  end.

Module PyJson.

(** [sub in s] on two [str]: [sub] occurs in [s]. *)
Fixpoint str_contains (sub s : string) : bool :=
  String.prefix sub s
  || match s with
     | EmptyString => false
     | String _ rest => str_contains sub rest
     end.

(** [key in container] for a [str] key: a member of a dict, an element of a
    list equal to the key (only a [str] is equal to a [str]), a substring
    of a [str]; [None], [bool], [int] and [float] are not iterable. *)
Definition contains (key : string) (container : json) : attempt bool :=
  match container with
  | JObject members => Done (bool_decide (is_Some (members !! key)))
  | JArray items =>
      Done (existsb (fun v => match v with
                              | JString s => String.eqb s key
                              | _ => false
                              end) items)
  | JString s => Done (str_contains key s)
  | _ => Thrown (TypeError Contains container)
  end.

(** [container[key]] for a [str] key *)
Definition getitem (container : json) (key : string) : attempt json :=
  match container with
  | JObject members =>
      match members !! key with
      | Some v => Done v
      | None => Thrown (KeyError key)
      end
  | _ => Thrown (TypeError GetItem container)
  end.

(** [container[key] = value] for a [str] key *)
Definition setitem (container : json) (key : string) (value : json)
  : attempt json :=
  match container with
  | JObject members => Done (JObject (<[key := value]> members))
  | _ => Thrown (TypeError SetItem container)
  end.

(** [del container[key]] for a [str] key *)
Definition delitem (container : json) (key : string) : attempt json :=
  match container with
  | JObject members =>
      match members !! key with
      | Some _ => Done (JObject (delete key members))
      | None => Thrown (KeyError key)
      end
  | _ => Thrown (TypeError DelItem container)
  end.

(** [container.get(key, default)]: only a dict has the method. *)
Definition get (container : json) (key : string) (default : json)
  : attempt json :=
  match container with
  | JObject members =>
      Done (match members !! key with Some v => v | None => default end)
  | _ => Thrown (AttributeError container "get")
  end.

End PyJson.

(** [{"name": name, "number": number}] *)
Definition entry (name number : string) : json :=
  JObject (<["number" := JString number]> (<["name" := JString name]> ∅)).

(** What [DATA_FILE] holds: nothing; something [open] or [json.load]
    raises on; or a text that [json.load] parses to a value. *)
Inductive data_file : Type :=
| FileMissing
| FileUnreadable
| FileData (data : json).

(** How the write of [save_persistent_data] ends: done; [open] raises and
    the file stays as it was; [json.dump] raises after [open] has truncated
    the file. *)
Inductive write_outcome : Type := Written | WriteRefused | WriteBroken.

(** The dictionaries the store methods return: [{"success": True}] with
    an optional message, [{"success": True, "data": data}], and
    [{"success": False, "message": str(e)}]. *)
Inductive store_response : Type :=
| StoreDone (message : option string)
| StoreData (data : json)
| StoreFailure (e : store_error).

Definition store_success (r : store_response) : bool :=
  match r with
  | StoreFailure _ => false
  | _ => true
  end.

(** [load_persistent_data]: the empty dict unless the file loads. *)
Definition load_persistent_data (file : data_file) : json :=
  match file with
  | FileData data => data
  | FileMissing | FileUnreadable => JObject ∅
  end.

(** [save_persistent_data]: an exception is printed, not raised. *)
Definition save_persistent_data (outcome : write_outcome) (data : json)
    (file : data_file) : data_file :=
  match outcome with
  | Written => FileData data
  | WriteRefused => file
  | WriteBroken => FileUnreadable
  end.

(** [save_image_data].  The folder [data[folder_path]] is an object inside
    [data]: the assignment to its member changes [data], which the last
    step of the attempt writes out. *)
Definition save_image_data (outcome : write_outcome) (file : data_file)
    (folder_path filename name number : string) : data_file * store_response :=
  let data := load_persistent_data file in
  let updated :=
    present ← PyJson.contains folder_path data;
    data ← (if negb present
            then PyJson.setitem data folder_path (JObject ∅)
            else Done data);
    folder ← PyJson.getitem data folder_path;
    folder ← PyJson.setitem folder filename (entry name number);
    PyJson.setitem data folder_path folder in
  match updated with
  | Done data => (save_persistent_data outcome data file, StoreDone None)
  | Thrown e => (file, StoreFailure e)
  end.

(** [load_folder_data] *)
Definition load_folder_data (file : data_file) (folder_path : string)
  : store_response :=
  let data := load_persistent_data file in
  match PyJson.get data folder_path (JObject ∅) with
  | Done folder_data => StoreData folder_data
  | Thrown e => StoreFailure e
  end.

(** [clear_folder_data] *)
Definition clear_folder_data (outcome : write_outcome) (file : data_file)
    (folder_path : string) : data_file * store_response :=
  let data := load_persistent_data file in
  let cleared :=
    present ← PyJson.contains folder_path data;
    if (present : bool)
    then data ← PyJson.delitem data folder_path; mret (Some data)
    else mret None in
  match cleared with
  | Done (Some data) =>
      (save_persistent_data outcome data file, StoreDone (Some "历史数据已清空"))
  | Done None => (file, StoreDone (Some "历史数据已清空"))
  | Thrown e => (file, StoreFailure e)
  end.

(** The loaded data is a dict in which the folder is absent or a dict: the
    shape [save_image_data] writes. *)
Definition accepts_records (data : json) (folder_path : string) : bool :=
  match data with
  | JObject members =>
      match members !! folder_path with
      | None | Some (JObject _) => true
      | Some _ => false
      end
  | _ => false
  end.

Definition is_object (data : json) : bool :=
  match data with
  | JObject _ => true
  | _ => false
  end.

(** The records the file holds for a folder, and the record of a drawing. *)
Definition folder_records (file : data_file) (folder_path : string)
  : gmap string json :=
  match load_persistent_data file with
  | JObject members =>
      match members !! folder_path with
      | Some (JObject records) => records
      | _ => ∅
      end
  | _ => ∅
  end.

Definition stored_entry (file : data_file) (folder_path filename : string)
  : option json :=
  folder_records file folder_path !! filename.
(** * Properties *)

(** A decidable closed proposition, settled by evaluation. *)
Ltac decide_by_compute :=
  match goal with
  | |- ?P => apply (bool_decide_unpack P); vm_compute; exact I
  end.

(** ** Rounding to binary64 *)

Module PyFloatFacts.
Import PyFloat.
Local Open Scope Q_scope.

Example truediv_agrees_with_spec :
  of_spec (SFdiv 53 1024 (spec_of_int 4200) (spec_of_int 4201))
  = Some (round64 (4200 # 4201))
  /\ of_spec (SFdiv 53 1024 (spec_of_int 1) (spec_of_int 10))
     = Some (round64 (1 # 10))
  /\ of_spec (SFdiv 53 1024 (spec_of_int 4200) (spec_of_int 123457))
     = Some (round64 (4200 # 123457)).
Proof. vm_compute. repeat split. Qed.

Example mul_agrees_with_spec :
  of_spec (SFmul 53 1024 (spec_of_int 4201)
             (SFdiv 53 1024 (spec_of_int 4200) (spec_of_int 4201)))
  = Some (mul (of_int 4201) (round64 (4200 # 4201))).
Proof. vm_compute. reflexivity. Qed.

(** The width 8377 scaled by [4200 / 8377]: the rounded product lies under
    4200, here and in the specification of the Standard Library. *)
Example product_below_ceiling :
  of_spec (SFmul 53 1024 (spec_of_int 8377)
             (SFdiv 53 1024 (spec_of_int 4200) (spec_of_int 8377)))
  = Some (mul (of_int 8377) (round64 (4200 # 8377)))
  /\ to_int (mul (of_int 8377) (round64 (4200 # 8377))) = 4199%Z.
Proof. vm_compute. split; reflexivity. Qed.

Example round64_tenth : round64 (1 # 10) = 3602879701896397 # 36028797018963968.
Proof. vm_compute. reflexivity. Qed.

Lemma round_half_even_near t :
  Qabs (inject_Z (round_half_even t) - t) <= 1 # 2.
Proof.
  unfold round_half_even.
  pose proof (Qfloor_le t) as Hlo.
  pose proof (Qlt_floor t) as Hhi.
  rewrite inject_Z_plus in Hhi. change (inject_Z 1) with 1 in Hhi.
  set (f := Qfloor t) in *.
  destruct (Qcompare (t - inject_Z f) (1 # 2)) eqn:Hc.
  - apply Qeq_alt in Hc.
    destruct (Z.even f); [|rewrite inject_Z_plus; change (inject_Z 1) with 1];
      apply Qabs_case; intros; lra.
  - apply Qlt_alt in Hc. apply Qabs_case; intros; lra.
  - apply Qgt_alt in Hc. rewrite inject_Z_plus. change (inject_Z 1) with 1.
    apply Qabs_case; intros; lra.
Qed.

Lemma two_pow_pos e : 0 < two ^ e.
Proof. apply Qpower_0_lt. reflexivity. Qed.

Lemma two_pow_plus a b : two ^ (a + b) == two ^ a * two ^ b.
Proof. apply Qpower_plus. discriminate. Qed.

Lemma two_pow_Z n : (0 <= n)%Z -> inject_Z (2 ^ n) == two ^ n.
Proof. intros Hn. rewrite Zpower_Qpower by assumption. reflexivity. Qed.

Lemma binade_lower q : 0 < q -> two ^ (binade q) <= q.
Proof.
  intros Hq. unfold binade.
  set (e0 := (Z.log2 (Qnum q) - Z.log2 (Zpos (Qden q)))%Z).
  destruct (Qle_bool (two ^ e0) q) eqn:Ht.
  - now apply Qle_bool_iff.
  - clear Ht.
    assert (Hn : (0 < Qnum q)%Z).
    { destruct q as [n d]. unfold Qlt in Hq. simpl in *. lia. }
    destruct (Z.log2_spec (Qnum q) Hn) as [Hn1 _].
    destruct (Z.log2_spec (Zpos (Qden q)) (Pos2Z.is_pos _)) as [_ Hd2].
    pose proof (Z.log2_nonneg (Qnum q)) as Ha.
    pose proof (Z.log2_nonneg (Zpos (Qden q))) as Hb.
    set (a := Z.log2 (Qnum q)) in *. set (b := Z.log2 (Zpos (Qden q))) in *.
    assert (Hq' : q == inject_Z (Qnum q) / inject_Z (Zpos (Qden q))).
    { destruct q as [n d]. simpl. rewrite <- Qmake_Qdiv. reflexivity. }
    assert (HA : two ^ a <= inject_Z (Qnum q)).
    { rewrite <- two_pow_Z by assumption. now rewrite <- Zle_Qle. }
    assert (HB : inject_Z (Zpos (Qden q)) < two ^ (b + 1)).
    { rewrite <- two_pow_Z by lia. rewrite <- Zlt_Qlt.
      replace (b + 1)%Z with (Z.succ b) by lia. assumption. }
    assert (HD : 0 < inject_Z (Zpos (Qden q))).
    { replace 0 with (inject_Z 0) by reflexivity. now rewrite <- Zlt_Qlt. }
    assert (He : two ^ a == two ^ (e0 - 1) * two ^ (b + 1)).
    { rewrite <- two_pow_plus. unfold e0.
      replace (a - b - 1 + (b + 1))%Z with a by lia. reflexivity. }
    rewrite Hq'. apply Qle_shift_div_l; [assumption|].
    pose proof (two_pow_pos (e0 - 1)) as Hp.
    set (x := two ^ (e0 - 1)) in *. set (y := two ^ (b + 1)) in *.
    set (D := inject_Z (Zpos (Qden q))) in *. set (N := inject_Z (Qnum q)) in *.
    set (z := two ^ a) in *.
    nra.
Qed.

Lemma binade_upper q : 0 < q -> q < two ^ (binade q + 1).
Proof.
  intros Hq. unfold binade.
  set (e0 := (Z.log2 (Qnum q) - Z.log2 (Zpos (Qden q)))%Z).
  destruct (Qle_bool (two ^ e0) q) eqn:Ht.
  - assert (Hn : (0 < Qnum q)%Z).
    { destruct q as [n d]. unfold Qlt in Hq. simpl in *. lia. }
    destruct (Z.log2_spec (Qnum q) Hn) as [_ Hn2].
    destruct (Z.log2_spec (Zpos (Qden q)) (Pos2Z.is_pos _)) as [Hd1 _].
    pose proof (Z.log2_nonneg (Qnum q)) as Ha.
    pose proof (Z.log2_nonneg (Zpos (Qden q))) as Hb.
    set (a := Z.log2 (Qnum q)) in *. set (b := Z.log2 (Zpos (Qden q))) in *.
    assert (Hq' : q == inject_Z (Qnum q) / inject_Z (Zpos (Qden q))).
    { destruct q as [n d]. simpl. rewrite <- Qmake_Qdiv. reflexivity. }
    assert (HA : inject_Z (Qnum q) < two ^ (a + 1)).
    { rewrite <- two_pow_Z by lia. rewrite <- Zlt_Qlt.
      replace (a + 1)%Z with (Z.succ a) by lia. assumption. }
    assert (HB : two ^ b <= inject_Z (Zpos (Qden q))).
    { rewrite <- two_pow_Z by assumption. now rewrite <- Zle_Qle. }
    assert (HD : 0 < inject_Z (Zpos (Qden q))).
    { replace 0 with (inject_Z 0) by reflexivity. now rewrite <- Zlt_Qlt. }
    assert (He : two ^ (a + 1) == two ^ (e0 + 1) * two ^ b).
    { rewrite <- two_pow_plus. unfold e0.
      replace (a - b + 1 + b)%Z with (a + 1)%Z by lia. reflexivity. }
    rewrite Hq'. apply Qlt_shift_div_r; [assumption|].
    pose proof (two_pow_pos (e0 + 1)) as Hp.
    set (x := two ^ (e0 + 1)) in *. set (y := two ^ b) in *.
    set (D := inject_Z (Zpos (Qden q))) in *. set (N := inject_Z (Qnum q)) in *.
    set (z := two ^ (a + 1)) in *.
    nra.
  - replace (e0 - 1 + 1)%Z with e0 by lia.
    apply Qnot_le_lt. intros H. apply Qle_bool_iff in H. congruence.
Qed.

(** The significand [round64_pos] rounds lies in [[2^52, 2^53)]. *)
Lemma significand_range q :
  0 < q ->
  two ^ 52 <= q * two ^ (52 - binade q)
  /\ q * two ^ (52 - binade q) < two ^ 53.
Proof.
  intros Hq. pose proof (binade_lower q Hq) as Hlo.
  pose proof (binade_upper q Hq) as Hhi.
  set (e := binade q) in *.
  pose proof (two_pow_pos (52 - e)) as Hs.
  assert (H1 : two ^ 52 == two ^ e * two ^ (52 - e)).
  { rewrite <- two_pow_plus. replace (e + (52 - e))%Z with 52%Z by lia. reflexivity. }
  assert (H2 : two ^ 53 == two ^ (e + 1) * two ^ (52 - e)).
  { rewrite <- two_pow_plus. replace (e + 1 + (52 - e))%Z with 53%Z by lia.
    reflexivity. }
  rewrite H1, H2. clear H1 H2.
  set (a := two ^ e) in *. set (b := two ^ (e + 1)) in *.
  set (c := two ^ (52 - e)) in *. clearbody a b c. split; nra.
Qed.

Lemma u_half_pow : u == (1 # 2) * two ^ (-52).
Proof. reflexivity. Qed.

Lemma round64_pos_err q : 0 < q -> Qabs (round64_pos q - q) <= q * u.
Proof.
  intros Hq. unfold round64_pos. rewrite Qred_correct.
  pose proof (binade_lower q Hq) as Hb.
  set (e := binade q) in *. set (s := (52 - e)%Z).
  pose proof (round_half_even_near (q * two ^ s)) as Hm.
  set (m := inject_Z (round_half_even (q * two ^ s))) in *.
  pose proof (two_pow_pos s) as Hs. pose proof (two_pow_pos (- s)) as Hs'.
  pose proof (two_pow_pos e) as He.
  assert (H1 : two ^ s * two ^ (- s) == 1).
  { rewrite <- two_pow_plus. replace (s + - s)%Z with 0%Z by lia. reflexivity. }
  assert (H2 : two ^ e * two ^ (- e) == 1).
  { rewrite <- two_pow_plus. replace (e + - e)%Z with 0%Z by lia. reflexivity. }
  assert (H3 : two ^ (- s) == two ^ (-52) * two ^ e).
  { rewrite <- two_pow_plus. unfold s.
    replace (- (52 - e))%Z with (-52 + e)%Z by lia. reflexivity. }
  rewrite u_half_pow.
  set (c := two ^ (-52)) in *. assert (Hc : 0 < c) by reflexivity.
  set (ps := two ^ s) in *. set (ns := two ^ (- s)) in *. set (pe := two ^ e) in *.
  assert (Hd : m * ns - q == (m - q * ps) * ns) by (ring_simplify; nra).
  rewrite Hd, Qabs_Qmult, (Qabs_pos ns) by lra.
  set (a := Qabs (m - q * ps)) in *.
  assert (Ha : 0 <= a) by apply Qabs_nonneg.
  nra.
Qed.

Lemma round64_err q : Qabs (round64 q - q) <= Qabs q * u.
Proof.
  unfold round64. destruct q as [[|n|n] d]; cbn [Qnum].
  - apply Qabs_case; intros; unfold u; apply Qabs_case; intros;
      unfold Qle, Qminus, Qplus, Qopp, Qmult in *; simpl in *; lia.
  - assert (Hq : 0 < Zpos n # d) by reflexivity.
    rewrite (Qabs_pos (Zpos n # d)) by lra. now apply round64_pos_err.
  - assert (Hq : 0 < - (Zneg n # d)) by reflexivity.
    rewrite Qred_correct.
    rewrite (Qabs_neg (Zneg n # d)) by (unfold Qle; simpl; lia).
    pose proof (round64_pos_err _ Hq) as H.
    set (r := round64_pos (- (Z.neg n # d))) in *.
    revert H. apply Qabs_case; intros; apply Qabs_case; intros; lra.
Qed.

Lemma round64_pos_positive q : 0 < q -> 0 < round64_pos q.
Proof.
  intros Hq. pose proof (round64_pos_err q Hq) as H. revert H.
  apply Qabs_case; intros; unfold u in *; nra.
Qed.

Lemma round64_bounds q :
  0 <= q -> q * (1 - u) <= round64 q /\ round64 q <= q * (1 + u).
Proof.
  intros Hq. pose proof (round64_err q) as H.
  rewrite (Qabs_pos q) in H by assumption.
  revert H. apply Qabs_case; intros; split; lra.
Qed.

Lemma round64_nonneg q : 0 <= q -> 0 <= round64 q.
Proof.
  intros Hq. destruct (round64_bounds q Hq) as [H _]. unfold u in *. nra.
Qed.

Lemma round64_positive q : 0 < q -> 0 < round64 q.
Proof.
  intros Hq. destruct (round64_bounds q) as [H _]; [lra|]. unfold u in *. nra.
Qed.

Lemma two_pow_ge_1 k : (0 <= k)%Z -> 1 <= two ^ k.
Proof.
  intros Hk. rewrite <- two_pow_Z by assumption.
  change 1 with (inject_Z 1). rewrite <- Zle_Qle.
  pose proof (Z.pow_pos_nonneg 2 k ltac:(lia) Hk). lia.
Qed.

Lemma round_half_even_integer (t : Q) (k : Z) :
  t == inject_Z k -> round_half_even t = k.
Proof.
  intros Ht. unfold round_half_even.
  assert (Hf : Qfloor t = k) by (rewrite Ht; apply Qfloor_Z).
  rewrite Hf.
  assert (Hc : Qcompare (t - inject_Z k) (1 # 2) = Lt).
  { apply Qlt_alt. rewrite Ht. unfold Qminus. rewrite Qplus_opp_r. reflexivity. }
  now rewrite Hc.
Qed.

(** An [int] below [2^53] is a float: the conversion is exact. *)
Lemma of_int_exact n :
  (0 <= n < 2 ^ 53)%Z -> of_int n == inject_Z n.
Proof.
  intros [Hn0 Hn]. unfold of_int, round64.
  destruct n as [|p|p]; [reflexivity| |lia]. cbn [Qnum inject_Z].
  fold (inject_Z (Zpos p)). set (q := inject_Z (Zpos p)).
  assert (Hq : 0 < q) by reflexivity.
  unfold round64_pos. rewrite Qred_correct.
  pose proof (binade_lower q Hq) as Hlo.
  pose proof (binade_upper q Hq) as Hhi.
  set (e := binade q) in *.
  assert (Hq53 : q < two ^ 53).
  { rewrite <- two_pow_Z by lia. unfold q. now rewrite <- Zlt_Qlt. }
  assert (Hq1 : 1 <= q).
  { unfold q. change 1 with (inject_Z 1). rewrite <- Zle_Qle. lia. }
  assert (He52 : (e <= 52)%Z).
  { destruct (Z_le_gt_dec e 52) as [H|H]; [assumption|exfalso].
    pose proof (two_pow_ge_1 (e - 53) ltac:(lia)) as H1.
    assert (H2 : two ^ e == two ^ 53 * two ^ (e - 53)).
    { rewrite <- two_pow_plus. replace (53 + (e - 53))%Z with e by lia. reflexivity. }
    pose proof (two_pow_pos 53) as H3.
    rewrite H2 in Hlo. set (a := two ^ 53) in *. set (b := two ^ (e - 53)) in *.
    clearbody a b q. nra. }
  set (s := (52 - e)%Z).
  assert (Hs : (0 <= s)%Z) by (unfold s; lia).
  assert (Hint : q * two ^ s == inject_Z (Zpos p * 2 ^ s)).
  { rewrite inject_Z_mult, two_pow_Z by assumption. reflexivity. }
  rewrite (round_half_even_integer _ _ Hint).
  rewrite inject_Z_mult, two_pow_Z by assumption. fold q.
  assert (H1 : two ^ s * two ^ (- s) == 1).
  { rewrite <- two_pow_plus. replace (s + - s)%Z with 0%Z by lia. reflexivity. }
  set (a := two ^ s) in *. set (b := two ^ (- s)) in *. clearbody a b q.
  rewrite <- Qmult_assoc, H1. ring.
Qed.

Lemma to_int_floor x : 0 <= x -> to_int x = Qfloor x.
Proof.
  intros Hx. destruct x as [n d]. unfold to_int, Qfloor. cbn [Qnum Qden].
  assert (0 <= n)%Z by (unfold Qle in Hx; simpl in Hx; lia).
  apply Z.quot_div_nonneg; lia.
Qed.

Lemma to_int_bounds x :
  0 <= x -> inject_Z (to_int x) <= x /\ x < inject_Z (to_int x) + 1.
Proof.
  intros Hx. rewrite (to_int_floor x Hx). split.
  - apply Qfloor_le.
  - pose proof (Qlt_floor x) as H. now rewrite inject_Z_plus in H.
Qed.

Lemma to_int_nonneg x : 0 <= x -> (0 <= to_int x)%Z.
Proof.
  intros Hx. rewrite (to_int_floor x Hx).
  change 0%Z with (Qfloor 0). now apply Qfloor_resp_le.
Qed.

End PyFloatFacts.

(** ** Paths *)

Module os_path_examples.
Import os_path.

Example splitext_examples :
  splitext "/scans/plan.A1.JPG" = ("/scans/plan.A1", ".JPG")
  /\ splitext "/scans.d/plan" = ("/scans.d/plan", "")
  /\ splitext "/scans/.hidden" = ("/scans/.hidden", "")
  /\ splitext "/scans/..jpg" = ("/scans/..jpg", "")
  /\ splitext "plan." = ("plan", ".").
Proof. repeat split. Qed.

Example suffix_examples :
  suffix "/scans/plan.A1.JPG" = ".JPG"
  /\ suffix "/scans/.jpg" = ""
  /\ suffix "/scans/plan." = ""
  /\ suffix "/scans.d/plan" = "".
Proof. repeat split. Qed.

Example join_examples :
  join "/out" "A-1.jpg" = "/out/A-1.jpg"
  /\ join "/out/" "A-1.jpg" = "/out/A-1.jpg"
  /\ join "/out" "/A-1.jpg" = "/A-1.jpg".
Proof. repeat split. Qed.

Example dirname_examples :
  dirname "/scans/plan.pdf" = "/scans" /\ dirname "/plan.pdf" = "/"
  /\ dirname "plan.pdf" = "" /\ dirname "/a//plan.pdf" = "/a".
Proof. repeat split. Qed.

End os_path_examples.

(** ** The session fields the preview derivation reads and writes *)

Section Session.

Context (W : World).

Lemma same_session_refl a : same_session a a.
Proof. repeat split. Qed.

Lemma same_session_trans a b c :
  same_session a b -> same_session b c -> same_session a c.
Proof.
  unfold same_session, same_view. intros (H1 & H2 & H3) (H4 & H5 & H6).
  intuition congruence.
Qed.

Ltac case_results :=
  repeat match goal with
  | |- context [match ?x with Returns _ => _ | Raises _ => _ end] =>
      destruct x eqn:?
  end.

Lemma derive_same_session st : same_session (fst (derive_preview W st)) st.
Proof. unfold derive_preview. case_results; cbn; repeat split. Qed.

Lemma derive_same_view a b :
  same_view a b -> snd (derive_preview W a) = snd (derive_preview W b).
Proof.
  intros (Hi & Hc & Hr). unfold derive_preview.
  cbn [rotation set_display set_original]. rewrite Hi, Hc, Hr.
  case_results; cbn; try reflexivity.
  now rewrite Hi, Hc.
Qed.

Lemma get_data_same_session st : same_session (fst (_get_current_image_data W st)) st.
Proof.
  unfold _get_current_image_data.
  destruct (is_empty (images st) || (py_len (images st) <=? current_index st)).
  - apply same_session_refl.
  - pose proof (derive_same_session st) as H.
    destruct (derive_preview W st) as [st' [d|e]]; exact H.
Qed.

Lemma get_data_same_view a b :
  same_view a b -> snd (_get_current_image_data W a) = snd (_get_current_image_data W b).
Proof.
  intros H. pose proof (derive_same_view a b H) as Hd.
  destruct H as (Hi & Hc & Hr). unfold _get_current_image_data.
  rewrite Hi, Hc.
  destruct (is_empty (images b) || (py_len (images b) <=? current_index b));
    [reflexivity|].
  destruct (derive_preview W a) as [sa [da|ea]], (derive_preview W b) as [sb [db|eb]];
    cbn in *; congruence.
Qed.

Lemma get_data_rotation st : rotation (fst (_get_current_image_data W st)) = rotation st.
Proof. apply (get_data_same_session st). Qed.

Lemma get_data_index st : current_index (fst (_get_current_image_data W st)) = current_index st.
Proof. apply (get_data_same_session st). Qed.

Lemma get_data_images st : images (fst (_get_current_image_data W st)) = images st.
Proof. apply (get_data_same_session st). Qed.

End Session.

(** ** Navigation *)

Lemma is_empty_false {A : Type} (l : list A) : l <> [] -> is_empty l = false.
Proof. now destruct l. Qed.

Lemma is_empty_true {A : Type} (l : list A) : is_empty l = true <-> l = [].
Proof. destruct l; split; intros H; try reflexivity; discriminate. Qed.

Lemma py_len_pos {A : Type} (l : list A) : l <> [] -> 0 < py_len l.
Proof. destruct l; [congruence|]. unfold py_len. cbn. lia. Qed.

Lemma next_image_unfold W st :
  images st <> [] ->
  next_image W st
  = _get_current_image_data W
      (set_rotation 0
         (set_current_index ((current_index st + 1) mod py_len (images st)) st)).
Proof. intros H. unfold next_image. now rewrite is_empty_false. Qed.

Lemma prev_image_unfold W st :
  images st <> [] ->
  prev_image W st
  = _get_current_image_data W
      (set_rotation 0
         (set_current_index ((current_index st - 1) mod py_len (images st)) st)).
Proof. intros H. unfold prev_image. now rewrite is_empty_false. Qed.

Lemma goto_image_unfold W st k :
  images st <> [] -> 1 <= k <= py_len (images st) ->
  goto_image W st k
  = _get_current_image_data W (set_rotation 0 (set_current_index (k - 1) st)).
Proof.
  intros H Hk. unfold goto_image. rewrite is_empty_false by assumption.
  destruct (k - 1 <? 0) eqn:H1; [lia|].
  destruct (py_len (images st) <=? k - 1) eqn:H2; [lia|]. reflexivity.
Qed.

(** C7: over a non-empty asset list of length N, [next] at index N-1 moves
    to 0, [prev] at index 0 moves to N-1, elsewhere they move by +1 and -1,
    and [next], [prev] and [goto] set the rotation to 0 before the preview
    is derived. *)
Theorem navigation_wraps_and_resets (W : World) (st : Api) :
  has_active_asset st ->
  let n := py_len (images st) in
  let i := current_index st in
  (i = n - 1 -> current_index (fst (next_image W st)) = 0)
  /\ (i <> n - 1 -> current_index (fst (next_image W st)) = i + 1)
  /\ (i = 0 -> current_index (fst (prev_image W st)) = n - 1)
  /\ (i <> 0 -> current_index (fst (prev_image W st)) = i - 1)
  /\ (forall k, 1 <= k <= n -> current_index (fst (goto_image W st k)) = k - 1)
  /\ (exists st', rotation st' = 0 /\ next_image W st = _get_current_image_data W st')
  /\ (exists st', rotation st' = 0 /\ prev_image W st = _get_current_image_data W st')
  /\ (forall k, 1 <= k <= n ->
        exists st', rotation st' = 0
                    /\ goto_image W st k = _get_current_image_data W st')
  /\ rotation (fst (next_image W st)) = 0
  /\ rotation (fst (prev_image W st)) = 0
  /\ (forall k, 1 <= k <= n -> rotation (fst (goto_image W st k)) = 0).
Proof.
  intros [Hne Hi] n i. subst n i.
  rewrite (next_image_unfold W st Hne), (prev_image_unfold W st Hne).
  rewrite !get_data_index, !get_data_rotation. cbn.
  set (n := py_len (images st)) in *. set (i := current_index st) in *.
  repeat split.
  - intros ->. replace (n - 1 + 1) with n by lia. apply Z.mod_same. lia.
  - intros Hlast. apply Z.mod_small. lia.
  - intros ->. replace (0 - 1) with ((n - 1) + (-1) * n) by lia.
    rewrite Z.mod_add by lia. apply Z.mod_small. lia.
  - intros Hfirst. apply Z.mod_small. lia.
  - intros k Hk. rewrite (goto_image_unfold W st k Hne Hk).
    now rewrite get_data_index.
  - eexists. split; [|reflexivity]. reflexivity.
  - eexists. split; [|reflexivity]. reflexivity.
  - intros k Hk. rewrite (goto_image_unfold W st k Hne Hk).
    eexists. split; [|reflexivity]. reflexivity.
  - intros k Hk. rewrite (goto_image_unfold W st k Hne Hk).
    now rewrite get_data_rotation.
Qed.

Lemma navigation_wraps_and_resets_witness :
  has_active_asset sample_session
  /\ current_index (fst (next_image sample_world sample_session)) = 0
  /\ rotation (fst (next_image sample_world sample_session)) = 0.
Proof.
  assert (H : has_active_asset sample_session).
  { split; [discriminate|]. unfold py_len. cbn. lia. }
  split; [exact H|].
  pose proof (navigation_wraps_and_resets sample_world sample_session H) as T.
  cbv zeta in T.
  destruct T as (T1 & _ & _ & _ & _ & _ & _ & _ & T9 & _).
  split; [apply T1; reflexivity | exact T9].
Defined.

(** ** Strings *)

Lemma string_app_cons c (s t : string) : String c s +:+ t = String c (s +:+ t).
Proof. reflexivity. Qed.

Lemma string_app_nil (t : string) : "" +:+ t = t.
Proof. reflexivity. Qed.

Lemma string_app_length (s t : string) :
  String.length (s +:+ t) = (String.length s + String.length t)%nat.
Proof.
  induction s as [|c s IH]; [reflexivity|].
  rewrite string_app_cons. simpl. now rewrite IH.
Qed.

Lemma string_app_assoc (s t v : string) : (s +:+ t) +:+ v = s +:+ t +:+ v.
Proof.
  induction s as [|c s IH]; [reflexivity|].
  rewrite !string_app_cons. now rewrite IH.
Qed.

Lemma string_app_inv_tail (s1 s2 t : string) : s1 +:+ t = s2 +:+ t -> s1 = s2.
Proof.
  intros H.
  assert (Hlen : String.length s1 = String.length s2).
  { apply (f_equal String.length) in H. rewrite !string_app_length in H. lia. }
  revert s2 H Hlen. induction s1 as [|c s1 IH]; intros [|d s2] H Hlen;
    simpl in Hlen; try discriminate; [reflexivity|].
  rewrite !string_app_cons in H. injection H as -> H.
  f_equal. apply IH; [assumption|lia].
Qed.

Lemma startswith_app c s t :
  s <> "" -> PyStr.startswith c (s +:+ t) = PyStr.startswith c s.
Proof. now destruct s. Qed.

Lemma lower_empty s : PyStr.lower s = "" <-> s = "".
Proof. destruct s; cbn; split; intros H; try reflexivity; discriminate. Qed.

Lemma string_eqb_false (s t : string) : s <> t -> String.eqb s t = false.
Proof. intros H. now apply String.eqb_neq. Qed.

(** ** Joining and numbering paths *)

Lemma join_ends_with a b : exists stem, os_path.join a b = stem +:+ b.
Proof.
  unfold os_path.join. destruct (PyStr.startswith os_path.sep b).
  - now exists "".
  - destruct (String.eqb a "" || PyStr.endswith os_path.sep a).
    + now exists a.
    + exists (a +:+ String os_path.sep ""). now rewrite string_app_assoc.
Qed.

Lemma join_inj a b1 b2 :
  PyStr.startswith os_path.sep b1 = PyStr.startswith os_path.sep b2 ->
  os_path.join a b1 = os_path.join a b2 -> b1 = b2.
Proof.
  unfold os_path.join. intros ->.
  destruct (PyStr.startswith os_path.sep b2); [easy|].
  destruct (String.eqb a "" || PyStr.endswith os_path.sep a); intros H.
  - now apply String.app_inj in H.
  - apply String.app_inj in H. now injection H.
Qed.

Lemma numbered_startswith base x y :
  PyStr.startswith os_path.sep (base +:+ "(" +:+ x)
  = PyStr.startswith os_path.sep (base +:+ "(" +:+ y).
Proof. now destruct base. Qed.

Lemma numbered_path_inj save base ext j k :
  numbered_path save base ext j = numbered_path save base ext k -> j = k.
Proof.
  unfold numbered_path. intros H.
  apply join_inj in H; [|apply numbered_startswith].
  apply String.app_inj in H. apply String.app_inj in H.
  apply string_app_inv_tail in H.
  now apply (inj pretty) in H.
Qed.

(** ** The probing loop *)

Section Probe.

Context (fs : gset string) (save base ext : string).

(** What the loop returns is free, and it is either the path it started from
    or the first free numbered path from [counter] on. *)
Lemma probe_free_first fuel : forall path counter dst,
  probe_free fuel fs save base ext path counter = Some dst ->
  (dst ∉ fs)
  /\ (dst = path
      \/ exists k, counter <= k /\ dst = numbered_path save base ext k
                   /\ path ∈ fs
                   /\ forall j, counter <= j < k ->
                                numbered_path save base ext j ∈ fs).
Proof.
  induction fuel as [|fuel IH]; intros path counter dst H; cbn in H;
    [discriminate|].
  case_bool_decide as Hin.
  - destruct (IH _ _ _ H) as (Hfree & [-> | (k & Hk & -> & Hc & Hbelow)]).
    + split; [assumption|]. right. exists counter.
      split; [lia|]. split; [reflexivity|]. split; [assumption|].
      intros j Hj. lia.
    + split; [assumption|]. right. exists k.
      split; [lia|]. split; [reflexivity|]. split; [assumption|].
      intros j Hj. destruct (decide (j = counter)) as [->|Hne]; [assumption|].
      apply Hbelow. lia.
  - injection H as <-. split; [assumption|]. now left.
Qed.

(** The numbered paths from [counter] on that exist all lie in [rem]; the
    loop started at the path numbered [counter] ends within [size rem + 1]
    rounds. *)
Lemma probe_free_numbered_total fuel : forall (rem : gset string) counter,
  (forall k, counter <= k -> numbered_path save base ext k ∈ fs ->
             numbered_path save base ext k ∈ rem) ->
  (size rem < fuel)%nat ->
  is_Some (probe_free fuel fs save base ext
             (numbered_path save base ext counter) (counter + 1)).
Proof.
  induction fuel as [|fuel IH]; intros rem counter Hrem Hsize; [lia|].
  cbn. case_bool_decide as Hin; [|eauto].
  assert (Hin' : numbered_path save base ext counter ∈ rem) by (apply Hrem; [lia|assumption]).
  apply (IH (rem ∖ {[ numbered_path save base ext counter ]})).
  - intros k Hk Hfs. apply elem_of_difference. split; [apply Hrem; [lia|assumption]|].
    rewrite elem_of_singleton. intros Heq. apply numbered_path_inj in Heq. lia.
  - assert (Hsub : ({[ numbered_path save base ext counter ]} : gset string) ⊆ rem)
      by (apply singleton_subseteq_l; assumption).
    pose proof (subseteq_size _ _ Hsub) as Hle.
    rewrite size_difference by assumption.
    rewrite size_singleton in *. lia.
Qed.

Lemma probe_free_total fuel path :
  (2 + size fs <= fuel)%nat -> is_Some (probe_free fuel fs save base ext path 1).
Proof.
  intros Hfuel. destruct fuel as [|fuel]; [lia|]. cbn.
  case_bool_decide; [|eauto].
  apply (probe_free_numbered_total fuel fs 1); [auto|lia].
Qed.

(** More fuel does not change the result. *)
Lemma probe_free_fuel_irrelevant fuel : forall fuel' path counter dst,
  probe_free fuel fs save base ext path counter = Some dst -> (fuel <= fuel')%nat ->
  probe_free fuel' fs save base ext path counter = Some dst.
Proof.
  induction fuel as [|fuel IH]; intros fuel' path counter dst H Hle;
    [discriminate|].
  destruct fuel' as [|fuel']; [lia|]. cbn in *.
  case_bool_decide; [|assumption]. apply IH; [assumption|lia].
Qed.

End Probe.

(** ** The export commit *)

Lemma getitem_active {A : Type} (l : list A) (i : Z) :
  l <> [] -> 0 <= i < py_len l -> exists a, getitem l i = Returns a.
Proof.
  intros Hne Hi. unfold getitem.
  assert (H0 : (i <? 0) = false) by lia.
  assert (H1 : (py_len l <=? i) = false) by lia.
  rewrite !H0, H1. cbn.
  destruct (l !! Z.to_nat i) eqn:Hl; [now eexists|].
  apply lookup_ge_None in Hl. unfold py_len in Hi. lia.
Qed.

Lemma both_empty_test (a b : string) :
  String.eqb a "" && String.eqb b "" = true <-> a = "" /\ b = "".
Proof.
  rewrite andb_true_iff, !String.eqb_eq. reflexivity.
Qed.

Lemma active_guard st :
  has_active_asset st ->
  is_empty (images st) || (py_len (images st) <=? current_index st) = false.
Proof.
  intros [Hne Hi]. rewrite is_empty_false by assumption.
  destruct (py_len (images st) <=? current_index st) eqn:H; [lia|reflexivity].
Qed.

(** Every outcome of [rename_and_save] is either a failure that leaves the
    session and the file system as they were, or a completed write to the
    path found by the probing loop. *)
Lemma rename_and_save_inv W fuel st fs name number st' fs' r :
  rename_and_save W fuel st fs name number = Some (st', fs', r) ->
  (success r = false /\ st' = st /\ fs' = fs)
  \/ exists path dst msg next,
       r = Saved msg dst false next
       /\ getitem (images st) (current_index st) = Returns path
       /\ probe_free fuel fs (save_path st) (export_base name number)
            (export_ext path)
            (os_path.join (save_path st)
               (export_base name number +:+ export_ext path)) 1 = Some dst
       /\ perform_write W
            (write_plan (_is_pdf path) (rotation st) (pil_getexif W path)
               path dst) = Returns tt
       /\ fs' = {[ dst ]} ∪ fs
       /\ rotation st' = 0
       /\ save_path st <> ""
       /\ valid_name_number name number.
Proof.
  unfold rename_and_save.
  destruct (is_empty (images st) || (py_len (images st) <=? current_index st));
    [intros [= <- <- <-]; left; easy|].
  destruct (String.eqb (save_path st) "") eqn:Hsave;
    [intros [= <- <- <-]; left; easy|].
  destruct (String.eqb name "" && String.eqb number "") eqn:Hboth;
    [intros [= <- <- <-]; left; easy|].
  destruct (invalid_found name number) as [|c found] eqn:Hfound;
    [|intros [= <- <- <-]; left; easy].
  cbn [is_empty negb].
  destruct (getitem (images st) (current_index st)) as [path|e] eqn:Hget;
    [|intros [= <- <- <-]; left; easy].
  destruct (probe_free _ _ _ _ _ _ _) as [dst|] eqn:Hprobe; [|discriminate].
  destruct (perform_write W _) as [[]|e] eqn:Hwrite;
    [|intros [= <- <- <-]; left; easy].
  intros H. right.
  assert (Hv : valid_name_number name number).
  { split; [|assumption]. intros Hb. apply both_empty_test in Hb. congruence. }
  assert (Hs : save_path st <> "").
  { intros Hs. rewrite Hs in Hsave. discriminate. }
  cbn [images set_rotation current_index] in H.
  destruct (py_len (images st) =? 1).
  - pose proof (get_data_rotation W (set_rotation 0 st)) as Hrot.
    destruct (_get_current_image_data W (set_rotation 0 st)) as [st1 next].
    injection H as <- <- <-. exists path, dst. eexists. exists next.
    repeat (split; [first [reflexivity | assumption | exact Hrot]|]).
    exact Hv.
  - match type of H with context [_get_current_image_data W ?s] =>
      pose proof (get_data_rotation W s) as Hrot;
      destruct (_get_current_image_data W s) as [st1 next]
    end.
    injection H as <- <- <-. exists path, dst. eexists. exists next.
    repeat (split; [first [reflexivity | assumption | exact Hrot]|]).
    exact Hv.
Qed.

(** With the guards passed, a valid name and number, enough fuel and a
    write that succeeds, the commit completes. *)
Lemma rename_and_save_commits W fuel st fs name number :
  ready_to_commit st -> valid_name_number name number ->
  (2 + size fs <= fuel)%nat ->
  (forall a, perform_write W a = Returns tt) ->
  exists st' dst msg next,
    rename_and_save W fuel st fs name number
    = Some (st', {[ dst ]} ∪ fs, Saved msg dst false next).
Proof.
  intros [Hact Hsave] [Hboth Hfound] Hfuel Hwrite.
  destruct (getitem_active _ _ (proj1 Hact) (proj2 Hact)) as [path Hget].
  destruct (probe_free_total fs (save_path st) (export_base name number)
              (export_ext path) fuel
              (os_path.join (save_path st)
                 (export_base name number +:+ export_ext path)) Hfuel)
    as [dst Hprobe].
  unfold rename_and_save.
  rewrite (active_guard st Hact), (string_eqb_false _ _ Hsave).
  destruct (String.eqb name "" && String.eqb number "") eqn:Hb;
    [apply both_empty_test in Hb; contradiction|].
  rewrite Hfound. cbn [is_empty negb]. rewrite Hget, Hprobe, Hwrite.
  cbn [images set_rotation current_index].
  destruct (py_len (images st) =? 1).
  - destruct (_get_current_image_data W (set_rotation 0 st)) as [st1 next].
    eauto.
  - match goal with |- context [_get_current_image_data W ?s] =>
      destruct (_get_current_image_data W s) as [st1 next]
    end.
    eauto.
Qed.

(** C2: a commit with a validated name and number writes to [base ++ ext]
    when no file exists there, and otherwise to [base(k)ext] for the least
    [k >= 1] whose path does not exist; the path written did not exist
    before. *)
Theorem export_path_is_first_free (W : World) (fuel : nat) (st : Api)
    (fs : gset string) (name number : string) :
  ready_to_commit st -> valid_name_number name number ->
  (2 + size fs <= fuel)%nat ->
  (forall a, perform_write W a = Returns tt) ->
  exists path st' dst msg next,
    getitem (images st) (current_index st) = Returns path
    /\ rename_and_save W fuel st fs name number
       = Some (st', {[ dst ]} ∪ fs, Saved msg dst false next)
    /\ (dst ∉ fs)
    /\ let base := export_base name number in
       let ext := export_ext path in
       let plain := os_path.join (save_path st) (base +:+ ext) in
       (plain ∉ fs -> dst = plain)
       /\ (plain ∈ fs ->
           exists k, 1 <= k
             /\ dst = os_path.join (save_path st)
                        (base +:+ "(" +:+ PyStr.of_int k +:+ ")" +:+ ext)
             /\ forall j, 1 <= j < k ->
                  os_path.join (save_path st)
                    (base +:+ "(" +:+ PyStr.of_int j +:+ ")" +:+ ext) ∈ fs).
Proof.
  intros Hready Hvalid Hfuel Hwrite.
  destruct (rename_and_save_commits W fuel st fs name number
              Hready Hvalid Hfuel Hwrite) as (st' & dst & msg & next & Hrun).
  destruct (rename_and_save_inv _ _ _ _ _ _ _ _ _ Hrun)
    as [(Hf & _) | (path & dst' & msg' & next' & Heq & Hget & Hprobe & _)];
    [discriminate|].
  injection Heq as <- <- <-.
  destruct (probe_free_first _ _ _ _ _ _ _ _ Hprobe) as (Hfree & Hwhich).
  exists path, st', dst, msg, next.
  split; [assumption|]. split; [assumption|]. split; [assumption|].
  cbv zeta. split.
  - intros Hplain. destruct Hwhich as [->|(k & _ & _ & Hin & _)];
      [reflexivity|contradiction].
  - intros Hplain. destruct Hwhich as [->|(k & Hk & -> & _ & Hbelow)];
      [contradiction|].
    exists k. split; [assumption|]. split; [reflexivity|]. exact Hbelow.
Qed.

Lemma drawings_ready : ready_to_commit drawings_session.
Proof.
  split; [|discriminate]. split; [discriminate|]. unfold py_len. cbn. lia.
Qed.

Lemma A_1_valid : valid_name_number "A" "1".
Proof. split; [intros [H _]; discriminate|reflexivity]. Qed.

Lemma export_path_is_first_free_witness :
  exists path st' dst msg next,
    getitem (images drawings_session) (current_index drawings_session)
    = Returns path
    /\ rename_and_save sample_world 3 drawings_session destination_with_A1 "A" "1"
       = Some (st', {[ dst ]} ∪ destination_with_A1, Saved msg dst false next)
    /\ (dst ∉ destination_with_A1)
    /\ let base := export_base "A" "1" in
       let ext := export_ext path in
       let plain := os_path.join (save_path drawings_session) (base +:+ ext) in
       (plain ∉ destination_with_A1 -> dst = plain)
       /\ (plain ∈ destination_with_A1 ->
           exists k, 1 <= k
             /\ dst = os_path.join (save_path drawings_session)
                        (base +:+ "(" +:+ PyStr.of_int k +:+ ")" +:+ ext)
             /\ forall j, 1 <= j < k ->
                  os_path.join (save_path drawings_session)
                    (base +:+ "(" +:+ PyStr.of_int j +:+ ")" +:+ ext)
                  ∈ destination_with_A1).
Proof.
  apply (export_path_is_first_free sample_world 3 drawings_session
           destination_with_A1 "A" "1" drawings_ready A_1_valid).
  - vm_compute. lia.
  - intros a. reflexivity.
Defined.

(** The collision test of the specification: over an existing [A-1.jpg],
    the commit of name [A], number [1] writes [A-1(1).jpg], and a further
    commit writes [A-1(2).jpg]. *)
Example export_collision_scenario :
  let first :=
    rename_and_save sample_world 3 drawings_session destination_with_A1 "A" "1" in
  let '(st1, fs1) := after_commit first drawings_session destination_with_A1 in
  let second := rename_and_save sample_world 4 st1 fs1 "A" "1" in
  saved_path first = Some "/out/A-1(1).jpg"
  /\ saved_path second = Some "/out/A-1(2).jpg"
  /\ bool_decide (snd (after_commit second st1 fs1)
                  = {[ "/out/A-1.jpg"; "/out/A-1(1).jpg"; "/out/A-1(2).jpg" ]})
     = true.
Proof. vm_compute. repeat split. Qed.

(** ** The extension of the exported file *)

Lemma numbered_path_ends_with save base ext k :
  exists stem, numbered_path save base ext k = stem +:+ ext.
Proof.
  unfold numbered_path.
  destruct (join_ends_with save (base +:+ "(" +:+ PyStr.of_int k +:+ ")" +:+ ext))
    as [stem ->].
  exists (stem +:+ base +:+ "(" +:+ PyStr.of_int k +:+ ")").
  now rewrite !string_app_assoc.
Qed.

Lemma probe_free_ends_with fuel fs save base ext : forall path counter dst,
  (exists stem, path = stem +:+ ext) ->
  probe_free fuel fs save base ext path counter = Some dst ->
  exists stem, dst = stem +:+ ext.
Proof.
  induction fuel as [|fuel IH]; intros path counter dst Hpath H; cbn in H;
    [discriminate|].
  case_bool_decide.
  - eapply IH; [|exact H]. apply numbered_path_ends_with.
  - injection H as <-. exact Hpath.
Qed.

(** C9, amended: the exported file name ends with the extension of the
    source lower-cased, and with [.jpg] when the source has none. *)
Theorem export_keeps_lowercased_extension (W : World) (fuel : nat) (st st' : Api)
    (fs fs' : gset string) (name number msg dst : string) (fin : bool)
    (next : response) :
  rename_and_save W fuel st fs name number
  = Some (st', fs', Saved msg dst fin next) ->
  exists path stem,
    getitem (images st) (current_index st) = Returns path
    /\ dst = stem +:+ export_ext path
    /\ (snd (os_path.splitext path) = "" -> export_ext path = ".jpg")
    /\ (snd (os_path.splitext path) <> "" ->
        export_ext path = PyStr.lower (snd (os_path.splitext path))).
Proof.
  intros Hrun.
  destruct (rename_and_save_inv _ _ _ _ _ _ _ _ _ Hrun)
    as [(Hf & _) | (path & dst' & msg' & next' & Heq & Hget & Hprobe & _)];
    [discriminate|].
  injection Heq as -> -> -> ->.
  assert (Hplain : exists stem,
             os_path.join (save_path st)
               (export_base name number +:+ export_ext path)
             = stem +:+ export_ext path).
  { destruct (join_ends_with (save_path st)
                (export_base name number +:+ export_ext path)) as [stem0 ->].
    exists (stem0 +:+ export_base name number).
    now rewrite string_app_assoc. }
  destruct (probe_free_ends_with _ _ _ _ _ _ _ _ Hplain Hprobe) as [stem Hdst].
  exists path, stem. split; [assumption|]. split; [assumption|].
  unfold export_ext. split.
  - intros ->. reflexivity.
  - intros Hext. rewrite string_eqb_false; [reflexivity|].
    now rewrite lower_empty.
Qed.

Lemma export_keeps_lowercased_extension_witness :
  exists path stem,
    getitem (images drawings_session) (current_index drawings_session)
    = Returns path
    /\ "/out/A-1(1).jpg" = stem +:+ export_ext path
    /\ (snd (os_path.splitext path) = "" -> export_ext path = ".jpg")
    /\ (snd (os_path.splitext path) <> "" ->
        export_ext path = PyStr.lower (snd (os_path.splitext path))).
Proof.
  eapply (export_keeps_lowercased_extension sample_world 3 drawings_session _
            destination_with_A1 _ "A" "1").
  vm_compute. reflexivity.
Defined.

(** C9 as stated fails: the export of [PLAN.JPG] is named [A-1.jpg]; its
    extension is not the [.JPG] of the source, and it is [.jpg] although the
    source has an extension. *)
Lemma export_extension_changes_case :
  saved_path
    (rename_and_save sample_world 2
       (mkApi ["/scans/PLAN.JPG"] 0 "/out" 0 0 0 0 0 "/scans") ∅ "A" "1")
  = Some "/out/A-1.jpg"
  /\ snd (os_path.splitext "/out/A-1.jpg") <> snd (os_path.splitext "/scans/PLAN.JPG")
  /\ snd (os_path.splitext "/out/A-1.jpg") = ".jpg"
  /\ snd (os_path.splitext "/scans/PLAN.JPG") <> "".
Proof. vm_compute. repeat split; discriminate. Qed.

(** ** Copy or re-encode *)





(** The three cases on concrete assets: a rotated PDF, an upright raster
    image, a raster image with EXIF orientation 6, and a rotated one. *)
Example write_plan_examples :
  write_plan (_is_pdf "/scans/b.PDF") 90 ProbeNone "/scans/b.PDF" "/out/B.pdf"
  = CopyFile "/scans/b.PDF" "/out/B.pdf"
  /\ write_plan (_is_pdf "/scans/a.jpg") 0 (ProbeDict {[ 274 := 1 ]})
       "/scans/a.jpg" "/out/A.jpg"
     = CopyFile "/scans/a.jpg" "/out/A.jpg"
  /\ write_plan (_is_pdf "/scans/a.jpg") 0 (ProbeDict {[ 274 := 6 ]})
       "/scans/a.jpg" "/out/A.jpg"
     = SaveImage "/scans/a.jpg" "/out/A.jpg" true None 100 0
  /\ write_plan (_is_pdf "/scans/a.jpg") 90 ProbeRaises
       "/scans/a.jpg" "/out/A.jpg"
     = SaveImage "/scans/a.jpg" "/out/A.jpg" true (Some (-90)) 100 0.
Proof. vm_compute. repeat split. Qed.

(** ** Validation of the name and the number *)

Lemma invalid_chars_NoDup : NoDup invalid_chars.
Proof. decide_by_compute. Qed.

Lemma invalid_found_spec name number c :
  c ∈ invalid_found name number <-> reserved_in name number c.
Proof.
  unfold invalid_found, reserved_in. rewrite list_elem_of_filter.
  rewrite Is_true_true, orb_true_iff. tauto.
Qed.

Lemma invalid_found_NoDup name number : NoDup (invalid_found name number).
Proof. apply NoDup_filter, invalid_chars_NoDup. Qed.

Lemma contains_empty c : PyStr.contains c "" = false.
Proof. reflexivity. Qed.

(** The first guard of [rename_and_save] fires exactly when the list is
    empty or the index is not below its length. *)
Lemma asset_guard_iff (st : Api) :
  is_empty (images st) || (py_len (images st) <=? current_index st) = true
  <-> images st = [] \/ py_len (images st) <= current_index st.
Proof. rewrite orb_true_iff, is_empty_true, Z.leb_le. reflexivity. Qed.

(** C6, amended: a commit whose name and number are both empty, or contain
    a reserved character, fails and writes nothing.  The guards come in the
    order of the code, each with its own message: without an active asset
    the failure is the missing-asset one; otherwise, without a destination
    folder, the missing-folder one; and in a session with an active asset
    and a destination folder it is the validation error, whose message in
    the reserved-character case lists exactly the reserved characters that
    occur, each once. *)
Theorem invalid_commit_is_rejected (W : World) (fuel : nat) (st : Api)
    (fs : gset string) (name number : string) :
  (name = "" /\ number = "") \/ (exists c, reserved_in name number c) ->
  let no_asset := images st = [] \/ py_len (images st) <= current_index st in
  let run := rename_and_save W fuel st fs name number in
  (exists m, run = Some (st, fs, Failure m))
  /\ (no_asset -> run = Some (st, fs, Failure "没有可保存的图片"))
  /\ (~ no_asset -> save_path st = "" ->
      run = Some (st, fs, Failure "请先设置保存路径"))
  /\ (~ no_asset -> save_path st <> "" ->
      (name = "" /\ number = "" ->
       run = Some (st, fs, Failure "图名和图号不能都为空"))
      /\ ((exists c, reserved_in name number c) ->
          run = Some (st, fs, Failure (invalid_message (invalid_found name number)))
          /\ NoDup (invalid_found name number)
          /\ forall c, c ∈ invalid_found name number <-> reserved_in name number c))
  /\ (ready_to_commit st -> ~ no_asset /\ save_path st <> "").
Proof.
  intros Hbad. cbv zeta.
  assert (Hcase : String.eqb name "" && String.eqb number "" = true
                  \/ (String.eqb name "" && String.eqb number "" = false
                      /\ exists c found, invalid_found name number = c :: found)).
  { destruct (String.eqb name "" && String.eqb number "") eqn:Hb; [now left|].
    right. split; [reflexivity|].
    destruct Hbad as [Hboth|[c Hc]].
    - apply both_empty_test in Hboth. congruence.
    - apply invalid_found_spec in Hc.
      destruct (invalid_found name number) as [|c' found]; [inversion Hc|eauto]. }
  assert (Hguard : forall b,
            is_empty (images st) || (py_len (images st) <=? current_index st) = b ->
            b = false ->
            ~ (images st = [] \/ py_len (images st) <= current_index st)).
  { intros b Hb -> Hno. apply asset_guard_iff in Hno. congruence. }
  split; [|split; [|split; [|split]]].
  - unfold rename_and_save.
    destruct (is_empty (images st) || (py_len (images st) <=? current_index st));
      [eauto|].
    destruct (String.eqb (save_path st) ""); [eauto|].
    destruct Hcase as [-> | (-> & c & found & ->)]; cbn; eauto.
  - intros Hno. apply asset_guard_iff in Hno. unfold rename_and_save.
    now rewrite Hno.
  - intros Hasset Hsave. unfold rename_and_save.
    destruct (is_empty (images st) || (py_len (images st) <=? current_index st))
      eqn:Hg; [apply asset_guard_iff in Hg; contradiction|].
    now rewrite Hsave.
  - intros Hasset Hsave. unfold rename_and_save.
    destruct (is_empty (images st) || (py_len (images st) <=? current_index st))
      eqn:Hg; [apply asset_guard_iff in Hg; contradiction|].
    rewrite (string_eqb_false _ _ Hsave). split.
    + intros Hboth. apply both_empty_test in Hboth. now rewrite Hboth.
    + intros [c Hc].
      destruct Hcase as [Hb | (-> & c' & found & Hfound)].
      * apply both_empty_test in Hb as [-> ->].
        destruct Hc as (_ & [H|H]); rewrite contains_empty in H; discriminate.
      * split; [|split].
        -- rewrite Hfound. reflexivity.
        -- apply invalid_found_NoDup.
        -- intros d. apply invalid_found_spec.
  - intros [Hact Hsave]. split; [|assumption].
    apply (Hguard _ (active_guard st Hact) eq_refl).
Qed.

Lemma invalid_commit_is_rejected_witness :
  reserved_in "bad:name" "" ":"%char
  /\ rename_and_save sample_world 2 sample_session ∅ "bad:name" ""
     = Some (sample_session, ∅,
             Failure ("文件名包含非法字符: :" +:+ newline +:+ "请修改图名或图号后重试")).
Proof.
  assert (Hc : reserved_in "bad:name" "" ":"%char).
  { split; [|left; reflexivity]. decide_by_compute. }
  split; [exact Hc|].
  assert (Hready : ready_to_commit sample_session).
  { split; [|discriminate]. split; [discriminate|]. unfold py_len. cbn. lia. }
  pose proof (invalid_commit_is_rejected sample_world 2 sample_session ∅
                "bad:name" "" (or_intror (ex_intro _ ":"%char Hc))) as H.
  cbv zeta in H. destruct H as (_ & _ & _ & H & Hbridge).
  destruct (Hbridge Hready) as [Hasset Hsave].
  destruct (H Hasset Hsave) as (_ & H2).
  destruct (H2 (ex_intro _ ":"%char Hc)) as (H3 & _).
  exact H3.
Defined.

(** C6 as stated fails: with no destination folder set, the commit of the
    name [bad:name] fails on the missing folder, and its message lists no
    offending character. *)
Lemma invalid_name_without_save_path :
  let st := mkApi ["/scans/a.jpg"] 0 "" 0 0 0 0 0 "/scans" in
  reserved_in "bad:name" "" ":"%char
  /\ rename_and_save sample_world 2 st ∅ "bad:name" ""
     = Some (st, ∅, Failure "请先设置保存路径")
  /\ "请先设置保存路径" <> invalid_message (invalid_found "bad:name" "")
  /\ PyStr.contains ":"%char "请先设置保存路径" = false.
Proof.
  cbv zeta. split.
  - split; [|left; reflexivity]. decide_by_compute.
  - vm_compute. repeat split. discriminate.
Qed.

(** ** Rotation *)

Lemma rotate_unfold W t st :
  rotate W t st
  = _get_current_image_data W
      (set_rotation ((rotation st + degrees t) mod 360) st).
Proof. destruct t; reflexivity. Qed.

Lemma quarter_turn_range r : quarter_turn r -> 0 <= r < 360.
Proof. unfold quarter_turn. lia. Qed.

Lemma quarter_turn_step r d :
  quarter_turn r -> d = 90 \/ d = -90 -> quarter_turn ((r + d) mod 360).
Proof.
  unfold quarter_turn.
  intros [-> | [-> | [-> | ->]]] [-> | ->]; vm_compute; tauto.
Qed.

(** After a non-empty sequence of turns the session shows the same asset
    under the rotation advanced by the total of the turns, and the last
    response is the preview derived under that rotation. *)
Lemma rotate_all_spec W ts : forall st last, ts <> [] ->
  let target :=
    set_rotation ((rotation st + total_degrees ts) mod 360) st in
  same_view (fst (rotate_all W ts st last)) target
  /\ snd (rotate_all W ts st last) = snd (_get_current_image_data W target).
Proof.
  induction ts as [|t ts IH]; intros st last Hne; [congruence|].
  cbn [rotate_all total_degrees fold_right]. rewrite rotate_unfold.
  fold (total_degrees ts).
  set (st0 := set_rotation ((rotation st + degrees t) mod 360) st).
  pose proof (get_data_same_session W st0) as ((Hi & Hc & Hr) & _).
  destruct (_get_current_image_data W st0) as [st1 r1] eqn:Hget.
  cbn [fst snd] in *.
  destruct ts as [|t' ts'].
  - cbn. rewrite Z.add_0_r. fold st0. split; [|now rewrite Hget].
    repeat split; assumption.
  - destruct (IH st1 r1 ltac:(discriminate)) as (Hv & Hresp).
    assert (Htarget :
      same_view
        (set_rotation ((rotation st1 + total_degrees (t' :: ts')) mod 360) st1)
        (set_rotation
           ((rotation st + (degrees t + total_degrees (t' :: ts'))) mod 360) st)).
    { repeat split; cbn [images current_index rotation set_rotation];
        try assumption.
      rewrite Hr. subst st0. cbn [rotation set_rotation].
      rewrite Zplus_mod_idemp_l. f_equal. lia. }
    split.
    + destruct Hv as (H1 & H2 & H3). destruct Htarget as (H4 & H5 & H6).
      repeat split; congruence.
    + rewrite Hresp. apply get_data_same_view. exact Htarget.
Qed.

Lemma rotate_all_rotation W ts st last :
  0 <= rotation st < 360 ->
  rotation (fst (rotate_all W ts st last))
  = (rotation st + total_degrees ts) mod 360.
Proof.
  intros Hr. destruct ts as [|t ts].
  - cbn. rewrite Z.add_0_r. symmetry. now apply Z.mod_small.
  - destruct (rotate_all_spec W (t :: ts) st last ltac:(discriminate))
      as ((_ & _ & H) & _).
    exact H.
Qed.

Lemma total_degrees_counts ts :
  total_degrees ts
  = 90 * (Z.of_nat (count_turn TurnRight ts) - Z.of_nat (count_turn TurnLeft ts)).
Proof.
  induction ts as [|t ts IH]; [reflexivity|].
  cbn [total_degrees fold_right]. fold (total_degrees ts). rewrite IH.
  unfold count_turn. rewrite !filter_cons.
  destruct t; repeat case_decide; try congruence; cbn [length degrees]; lia.
Qed.

(** C4: [rotate_right] adds 90 and [rotate_left] subtracts 90 modulo 360,
    staying within 0, 90, 180, 270; after a sequence of turns whose total
    is a multiple of 360, such as one with as many left as right turns, the
    rotation is what it was (0 when it was 0), and the response, with the
    sizes it reports, is the one derived for the session before the
    sequence. *)
Theorem rotation_additive_mod_360 (W : World) (st : Api) :
  quarter_turn (rotation st) ->
  rotation (fst (rotate_right W st)) = (rotation st + 90) mod 360
  /\ rotation (fst (rotate_left W st)) = (rotation st - 90) mod 360
  /\ quarter_turn (rotation (fst (rotate_right W st)))
  /\ quarter_turn (rotation (fst (rotate_left W st)))
  /\ (forall ts last,
        rotation (fst (rotate_all W ts st last))
        = (rotation st + total_degrees ts) mod 360)
  /\ (forall ts,
        count_turn TurnLeft ts = count_turn TurnRight ts ->
        total_degrees ts mod 360 = 0)
  /\ (forall ts,
        total_degrees ts mod 360 = 0 ->
        let before := snd (_get_current_image_data W st) in
        let after := rotate_all W ts st before in
        rotation (fst after) = rotation st
        /\ (rotation st = 0 -> rotation (fst after) = 0)
        /\ snd after = before).
Proof.
  intros Hq. pose proof (quarter_turn_range _ Hq) as Hrange.
  unfold rotate_right, rotate_left. rewrite !get_data_rotation.
  cbn [rotation set_rotation].
  split; [reflexivity|]. split; [reflexivity|].
  split; [apply quarter_turn_step; [assumption|now left]|].
  split; [apply (quarter_turn_step _ (-90)); [assumption|now right]|].
  split; [intros ts last; now apply rotate_all_rotation|].
  split.
  - intros ts Hcount. rewrite total_degrees_counts, Hcount.
    now replace (Z.of_nat (count_turn TurnRight ts)
                 - Z.of_nat (count_turn TurnRight ts)) with 0 by lia.
  - intros ts Hzero. cbv zeta.
    set (before := snd (_get_current_image_data W st)).
    set (after := rotate_all W ts st before).
    assert (Hsame : (rotation st + total_degrees ts) mod 360 = rotation st).
    { rewrite <- Zplus_mod_idemp_r, Hzero, Z.add_0_r. now apply Z.mod_small. }
    assert (Hrot : rotation (fst after) = rotation st).
    { subst after. now rewrite rotate_all_rotation. }
    split; [exact Hrot|]. split; [congruence|].
    subst after. destruct ts as [|t ts]; [reflexivity|].
    destruct (rotate_all_spec W (t :: ts) st before ltac:(discriminate))
      as (_ & Hresp).
    rewrite Hresp, Hsame. subst before. apply get_data_same_view.
    repeat split.
Qed.

Lemma rotation_additive_mod_360_witness :
  quarter_turn (rotation sample_session)
  /\ let before := snd (_get_current_image_data sample_world sample_session) in
     let after :=
       rotate_all sample_world [TurnLeft; TurnLeft; TurnRight; TurnRight]
         sample_session before in
     rotation (fst after) = rotation sample_session
     /\ (rotation sample_session = 0 -> rotation (fst after) = 0)
     /\ snd after = before.
Proof.
  assert (Hq : quarter_turn (rotation sample_session)) by (now left).
  split; [exact Hq|].
  destruct (rotation_additive_mod_360 sample_world sample_session Hq)
    as (_ & _ & _ & _ & _ & _ & H).
  apply (H [TurnLeft; TurnLeft; TurnRight; TurnRight]). reflexivity.
Defined.

(** A quarter turn swaps the reported width and height; four right turns
    bring them back. *)
Example rotation_swaps_sizes :
  let size r :=
    match r with
    | Preview d => Some (originalWidth d, originalHeight d, width d, height d)
    | _ => None
    end in
  size (snd (_get_current_image_data sample_world sample_session))
  = Some (6000, 4000, 4200, 2800)
  /\ size (snd (rotate_right sample_world sample_session))
     = Some (4000, 6000, 2800, 4200)
  /\ size (snd (rotate_all sample_world
                  [TurnRight; TurnRight; TurnRight; TurnRight]
                  sample_session (Failure "")))
     = Some (6000, 4000, 4200, 2800).
Proof. vm_compute. repeat split. Qed.

(** ** Failures and the session *)

Lemma failure_has_message (r : response) :
  success r = false -> exists m, message_of r = Some m.
Proof.
  induction r as [m|d|folder r IH|text|p|m path fin next _]; cbn; intros H;
    try discriminate; eauto.
Qed.

Lemma rename_and_save_total W fuel st fs name number :
  (2 + size fs <= fuel)%nat ->
  is_Some (rename_and_save W fuel st fs name number).
Proof.
  intros Hfuel. unfold rename_and_save.
  destruct (is_empty (images st) || (py_len (images st) <=? current_index st));
    [eauto|].
  destruct (String.eqb (save_path st) ""); [eauto|].
  destruct (String.eqb name "" && String.eqb number ""); [eauto|].
  destruct (negb (is_empty (invalid_found name number))); [eauto|].
  destruct (getitem (images st) (current_index st)) as [path|e]; [|eauto].
  destruct (probe_free_total fs (save_path st) (export_base name number)
              (export_ext path) fuel
              (os_path.join (save_path st)
                 (export_base name number +:+ export_ext path)) Hfuel)
    as [dst ->].
  destruct (perform_write W _) as [[]|e]; [|eauto].
  cbn [images set_rotation current_index].
  destruct (py_len (images st) =? 1).
  - destruct (_get_current_image_data W (set_rotation 0 st)); eauto.
  - match goal with |- context [_get_current_image_data W ?s] =>
      destruct (_get_current_image_data W s)
    end; eauto.
Qed.

Lemma crop_and_ocr_keeps_session W st x y w h iw ih :
  fst (crop_and_ocr W st x y w h iw ih) = st.
Proof.
  unfold crop_and_ocr.
  destruct (is_empty (images st) || (py_len (images st) <=? current_index st));
    [reflexivity|].
  match goal with |- context [match ?o with Returns _ => _ | Raises _ => _ end] =>
    destruct o
  end; reflexivity.
Qed.

(** C8, amended: every operation returns a response, and a failed response
    carries a message.  A failure found by a guard (an empty asset list in
    navigation, an index outside 1..count in [goto], any failure of the
    export) leaves the session as it was, and [crop_and_ocr] never changes
    it.  Over a non-empty asset list, navigation and rotation update the
    index and the rotation before the preview is derived, and the update
    stays whatever the preview derivation then reports. *)
Theorem failures_and_session_state (W : World) (fuel : nat) (st : Api)
    (fs : gset string) :
  (forall r : response, success r = false -> exists m, message_of r = Some m)
  /\ (forall name number, (2 + size fs <= fuel)%nat ->
        is_Some (rename_and_save W fuel st fs name number))
  /\ (forall k, ~ 1 <= k <= py_len (images st) ->
        exists m, goto_image W st k = (st, Failure m))
  /\ (images st = [] ->
        (exists m, next_image W st = (st, Failure m))
        /\ (exists m, prev_image W st = (st, Failure m)))
  /\ (forall x y w h iw ih, fst (crop_and_ocr W st x y w h iw ih) = st)
  /\ (forall name number st' fs' r,
        rename_and_save W fuel st fs name number = Some (st', fs', r) ->
        success r = false -> st' = st /\ fs' = fs)
  /\ (images st <> [] ->
        current_index (fst (next_image W st))
        = (current_index st + 1) mod py_len (images st)
        /\ rotation (fst (next_image W st)) = 0
        /\ current_index (fst (prev_image W st))
           = (current_index st - 1) mod py_len (images st)
        /\ rotation (fst (prev_image W st)) = 0
        /\ (forall k, 1 <= k <= py_len (images st) ->
              current_index (fst (goto_image W st k)) = k - 1
              /\ rotation (fst (goto_image W st k)) = 0)
        /\ rotation (fst (rotate_left W st)) = (rotation st - 90) mod 360
        /\ rotation (fst (rotate_right W st)) = (rotation st + 90) mod 360).
Proof.
  split; [exact failure_has_message|].
  split; [intros; now apply rename_and_save_total|].
  split.
  { intros k Hk. unfold goto_image.
    destruct (is_empty (images st)); [eauto|].
    destruct ((k - 1 <? 0) || (py_len (images st) <=? k - 1)) eqn:Hg; [eauto|].
    apply orb_false_iff in Hg as [H1 H2]. lia. }
  split.
  { intros Hempty. unfold next_image, prev_image. rewrite Hempty. cbn. eauto. }
  split; [apply crop_and_ocr_keeps_session|].
  split.
  { intros name number st' fs' r Hrun Hfail.
    destruct (rename_and_save_inv _ _ _ _ _ _ _ _ _ Hrun)
      as [(_ & H1 & H2) | (path & dst & msg & next & -> & _)];
      [easy|discriminate]. }
  intros Hne.
  rewrite (next_image_unfold W st Hne), (prev_image_unfold W st Hne).
  unfold rotate_left, rotate_right.
  rewrite !get_data_index, !get_data_rotation. cbn.
  repeat (split; [reflexivity|]). split; [|split; reflexivity].
  intros k Hk. rewrite (goto_image_unfold W st k Hne Hk).
  now rewrite get_data_index, get_data_rotation.
Qed.

Lemma failures_and_session_state_witness :
  (exists m, goto_image sample_world sample_session 7 = (sample_session, Failure m))
  /\ current_index (fst (next_image sample_world sample_session)) = 0
  /\ rotation (fst (rotate_left sample_world sample_session)) = 270.
Proof.
  destruct (failures_and_session_state sample_world 2 sample_session ∅)
    as (_ & _ & Hgoto & _ & _ & _ & Hnav).
  split; [apply Hgoto; unfold py_len; cbn; lia|].
  destruct (Hnav ltac:(discriminate)) as (Hnext & _ & _ & _ & _ & Hleft & _).
  split; [rewrite Hnext|rewrite Hleft]; reflexivity.
Defined.

(** C8 as stated fails: [next] onto an asset that cannot be decoded reports
    a failure, yet the index has advanced and the rotation is reset. *)
Lemma failed_navigation_changes_session :
  let st := mkApi ["/scans/a.jpg"; "/scans/b.jpg"] 0 "/out" 90 0 0 0 0 "/scans" in
  success (snd (next_image unreadable_world st)) = false
  /\ current_index (fst (next_image unreadable_world st)) = 1
  /\ current_index st = 0
  /\ rotation (fst (next_image unreadable_world st)) = 0
  /\ rotation st = 90.
Proof. vm_compute. repeat split. Qed.

(** The rotation methods have no guard of their own: on a session without
    assets the preview derivation reports the failure after the rotation was
    updated. *)
Example rotate_without_assets :
  rotate_right sample_world Api_init
  = (set_rotation 90 Api_init, Failure "没有可显示的图片").
Proof. reflexivity. Qed.

(** ** Opening a folder *)

Lemma StronglySorted_filter {A : Type} (R : relation A) (P : A -> Prop)
    `{forall x, Decision (P x)} (l : list A) :
  StronglySorted R l -> StronglySorted R (filter P l).
Proof.
  induction 1 as [|x l Hl IH Hx]; [constructor|].
  rewrite filter_cons. case_decide; [|assumption].
  constructor; [assumption|].
  apply Forall_forall. intros y Hy. apply list_elem_of_filter in Hy as [_ Hy].
  rewrite Forall_forall in Hx. now apply Hx.
Qed.

Lemma open_folder_images W st folder rest entries :
  iterdir W folder = Returns entries ->
  images (fst (open_folder W st (Returns (Some (folder :: rest)))))
  = supported_images entries.
Proof.
  intros Hdir. unfold open_folder. rewrite Hdir.
  cbn [images set_images set_current_folder].
  destruct (supported_images entries) as [|p l] eqn:Hs; [reflexivity|].
  cbn [is_empty negb].
  match goal with |- context [_get_current_image_data W ?s] =>
    pose proof (get_data_images W s) as Hi;
    destruct (_get_current_image_data W s) as [st1 data]
  end.
  cbn in *. exact Hi.
Qed.

(** C10: [open_folder] keeps exactly the entries of the folder whose suffix
    lower-cases to one of the seven supported extensions, in sorted path
    order; [.tif] and [.tiff] files are left out, although the filter of the
    dialog of [open_file] lists [*.tiff] and [*.tif] beside the seven. *)
Theorem open_folder_lists_supported_entries (W : World) (st : Api)
    (folder : string) (rest entries : list string) :
  iterdir W folder = Returns entries ->
  let listed := images (fst (open_folder W st (Returns (Some (folder :: rest))))) in
  listed
  = filter (fun p => PyStr.lower (os_path.suffix p) ∈ supported_extensions)
      (merge_sort String.le entries)
  /\ StronglySorted String.le listed
  /\ listed
     ≡ₚ filter (fun p => PyStr.lower (os_path.suffix p) ∈ supported_extensions)
          entries
  /\ (forall p, p ∈ listed
                <-> p ∈ entries
                    /\ PyStr.lower (os_path.suffix p)
                       ∈ ([".jpg"; ".jpeg"; ".png"; ".bmp"; ".gif"; ".webp"; ".pdf"]
                          : list string))
  /\ (forall p, PyStr.lower (os_path.suffix p) = ".tif"
                \/ PyStr.lower (os_path.suffix p) = ".tiff" -> p ∉ listed)
  /\ "*.tif" ∈ dialog_patterns file_types
  /\ "*.tiff" ∈ dialog_patterns file_types
  /\ (forall e, e ∈ supported_extensions -> "*" +:+ e ∈ dialog_patterns file_types).
Proof.
  intros Hdir listed. subst listed.
  rewrite (open_folder_images W st folder rest entries Hdir).
  unfold supported_images.
  assert (Hset : forall e : string,
            e ∈ supported_extensions
            <-> e ∈ ([".jpg"; ".jpeg"; ".png"; ".bmp"; ".gif"; ".webp"; ".pdf"]
                     : list string)).
  { intros e. unfold supported_extensions.
    rewrite !elem_of_union, !elem_of_singleton, !elem_of_cons, elem_of_nil.
    tauto. }
  split; [reflexivity|].
  split; [apply StronglySorted_filter, StronglySorted_merge_sort; apply _|].
  split; [now rewrite merge_sort_Permutation|].
  split.
  { intros p. rewrite list_elem_of_filter, merge_sort_Permutation, Hset. tauto. }
  split.
  { intros p Hp. rewrite list_elem_of_filter, Hset.
    intros [Hin _]. destruct Hp as [Hp|Hp]; rewrite Hp in Hin;
      repeat (apply elem_of_cons in Hin as [Hin|Hin]; [discriminate|]);
      inversion Hin. }
  split; [decide_by_compute|]. split; [decide_by_compute|].
  intros e He. apply Hset in He.
  repeat (apply elem_of_cons in He as [->|He]; [decide_by_compute|]).
  inversion He.
Qed.

Lemma open_folder_lists_supported_entries_witness :
  iterdir sample_world "/scans"
  = Returns ["/scans/c.png"; "/scans/notes.txt"; "/scans/b.PDF"; "/scans/d.tif";
             "/scans/a.jpg"]
  /\ images (fst (open_folder sample_world Api_init (Returns (Some ["/scans"]))))
     = ["/scans/a.jpg"; "/scans/b.PDF"; "/scans/c.png"].
Proof.
  split; [reflexivity|].
  destruct (open_folder_lists_supported_entries sample_world Api_init "/scans" []
              ["/scans/c.png"; "/scans/notes.txt"; "/scans/b.PDF"; "/scans/d.tif";
               "/scans/a.jpg"] eq_refl) as (H & _).
  rewrite H. vm_compute. reflexivity.
Defined.

(** ** The display size *)

Section DisplaySize.
Import PyFloat PyFloatFacts.
Local Open Scope Q_scope.

Lemma u_range : 0 < u /\ u <= 1 # 1000000.
Proof. split; [reflexivity|]. unfold Qle. cbn. lia. Qed.

Lemma min_le_l a b : min a b <= a.
Proof. unfold min. destruct (Qlt_le_dec b a); lra. Qed.

Lemma min_le_r a b : min a b <= b.
Proof. unfold min. destruct (Qlt_le_dec b a); lra. Qed.

Lemma min_cases a b : min a b = a \/ min a b = b.
Proof. unfold min. destruct (Qlt_le_dec b a); auto. Qed.

Lemma inject_Z_pos n : (1 <= n)%Z -> 1 <= inject_Z n.
Proof. intros H. change 1 with (inject_Z 1). now rewrite <- Zle_Qle. Qed.

(** The quotient [MAX_DISPLAY_SIZE / n] as a float, for a positive [n]. *)
Lemma truediv_max n :
  (1 <= n)%Z ->
  exists r, truediv MAX_DISPLAY_SIZE n = Returns r
    /\ 0 < r
    /\ r * inject_Z n <= 4200 * (1 + u)
    /\ 4200 * (1 - u) <= r * inject_Z n.
Proof.
  intros Hn. unfold truediv.
  destruct (n =? 0)%Z eqn:H0; [lia|].
  eexists. split; [reflexivity|].
  pose proof (inject_Z_pos n Hn) as Hq.
  set (q := inject_Z MAX_DISPLAY_SIZE / inject_Z n).
  assert (Hqn : q * inject_Z n == 4200).
  { unfold q. change (inject_Z MAX_DISPLAY_SIZE) with 4200. field. lra. }
  assert (Hqpos : 0 < q).
  { apply Qlt_shift_div_l; [lra|]. change (inject_Z MAX_DISPLAY_SIZE) with 4200. lra. }
  destruct (round64_bounds q) as [Hlo Hhi]; [lra|].
  pose proof (round64_positive q Hqpos) as Hpos.
  destruct u_range as [Hu0 Hu1].
  set (r := round64 q) in *. set (m := inject_Z n) in *. set (e := u) in *.
  clearbody q r m e. split; [assumption|]. split; nra.
Qed.

(** One dimension of the resized preview: the original dimension times the
    ratio, truncated, up to the rounding of the two float operations. *)
Lemma scaled_dimension n ratio :
  (1 <= n)%Z -> 0 < ratio ->
  let d := to_int (mul (of_int n) ratio) in
  (0 <= d)%Z
  /\ ratio * inject_Z n * (1 - 3 * u) - 1 < inject_Z d
  /\ inject_Z d <= ratio * inject_Z n * (1 + 3 * u).
Proof.
  intros Hn Hr d. subst d. unfold mul, of_int.
  pose proof (inject_Z_pos n Hn) as Hq.
  destruct (round64_bounds (inject_Z n)) as [Hlo Hhi]; [lra|].
  pose proof (round64_nonneg (inject_Z n) ltac:(lra)) as Hn0.
  set (fn := round64 (inject_Z n)) in *.
  assert (Hprod : 0 <= fn * ratio) by nra.
  destruct (round64_bounds (fn * ratio) Hprod) as [Hlo' Hhi'].
  pose proof (round64_nonneg (fn * ratio) Hprod) as Hx0.
  set (x := round64 (fn * ratio)) in *.
  destruct (to_int_bounds x Hx0) as [Hfloor Hceil].
  pose proof (to_int_nonneg x Hx0) as Hd0.
  destruct u_range as [Hu0 Hu1].
  set (m := inject_Z n) in *. set (d := inject_Z (to_int x)) in *.
  set (e := u) in *. clearbody fn x m d e.
  split; [assumption|].
  assert (Ha : 0 <= ratio * m) by nra.
  assert (H1 : fn * ratio <= ratio * m * (1 + e)) by nra.
  assert (H2 : ratio * m * (1 - e) <= fn * ratio) by nra.
  set (a := ratio * m) in *. set (p := fn * ratio) in *. clearbody a p.
  split; nra.
Qed.

Lemma inject_Z_lt_inv (a b : Z) : inject_Z a < inject_Z b -> (a < b)%Z.
Proof. now rewrite <- Zlt_Qlt. Qed.

(** The preview reports the display size computed from the size it reports
    as original. *)
Lemma preview_reports_display_size W st d :
  snd (_get_current_image_data W st) = Preview d ->
  display_size (originalWidth d, originalHeight d) = Returns (width d, height d).
Proof.
  unfold _get_current_image_data.
  destruct (is_empty (images st) || (py_len (images st) <=? current_index st))%Z;
    [discriminate|].
  unfold derive_preview. cbn [rotation set_display set_original].
  repeat match goal with
  | |- context [match ?x with Returns _ => _ | Raises _ => _ end] =>
      destruct x eqn:?
  end; cbn; try discriminate.
  intros [= <-]. cbn.
  match goal with H : display_size ?s = Returns ?n |- _ =>
    destruct s, n; exact H
  end.
Qed.

(** C5: the display size never exceeds [MAX_DISPLAY_SIZE] = 4200 in either
    dimension; a canonical size within the ceiling is kept as it is, with
    no resampling; otherwise both dimensions are scaled by the one ratio
    [min(4200 / width, 4200 / height)], which is positive and at most 1, and
    each is truncated, so the two quotients display/original agree up to
    one pixel and the rounding of the float operations. *)
Theorem display_size_bounded (w h : Z) :
  (1 <= w)%Z -> (1 <= h)%Z ->
  exists dw dh,
    display_size (w, h) = Returns (dw, dh)
    /\ (0 <= dw <= MAX_DISPLAY_SIZE)%Z
    /\ (0 <= dh <= MAX_DISPLAY_SIZE)%Z
    /\ (dw <= w)%Z /\ (dh <= h)%Z
    /\ ((w <= MAX_DISPLAY_SIZE)%Z /\ (h <= MAX_DISPLAY_SIZE)%Z ->
        exceeds_display (w, h) = false /\ dw = w /\ dh = h)
    /\ ((MAX_DISPLAY_SIZE < w)%Z \/ (MAX_DISPLAY_SIZE < h)%Z ->
        exists rw rh ratio,
          exceeds_display (w, h) = true
          /\ truediv MAX_DISPLAY_SIZE w = Returns rw
          /\ truediv MAX_DISPLAY_SIZE h = Returns rh
          /\ ratio = min rw rh
          /\ display_ratio (w, h) = Returns ratio
          /\ 0 < ratio /\ ratio <= 1
          /\ dw = to_int (mul (of_int w) ratio)
          /\ dh = to_int (mul (of_int h) ratio)
          /\ ratio * inject_Z w * (1 - 3 * u) - 1 < inject_Z dw
          /\ inject_Z dw <= ratio * inject_Z w * (1 + 3 * u)
          /\ ratio * inject_Z h * (1 - 3 * u) - 1 < inject_Z dh
          /\ inject_Z dh <= ratio * inject_Z h * (1 + 3 * u)
          /\ inject_Z dw / inject_Z w - inject_Z dh / inject_Z h
             < 1 / inject_Z h + 6 * u
          /\ inject_Z dh / inject_Z h - inject_Z dw / inject_Z w
             < 1 / inject_Z w + 6 * u)
    /\ (forall W st d,
          snd (_get_current_image_data W st) = Preview d ->
          originalWidth d = w -> originalHeight d = h ->
          width d = dw /\ height d = dh).
Proof.
  intros Hw Hh.
  assert (Hlink : forall dw dh, display_size (w, h) = Returns (dw, dh) ->
            forall W st d,
              snd (_get_current_image_data W st) = Preview d ->
              originalWidth d = w -> originalHeight d = h ->
              width d = dw /\ height d = dh).
  { intros dw dh Hd W st d Hp <- <-.
    rewrite (preview_reports_display_size W st d Hp) in Hd.
    now injection Hd. }
  unfold display_size in *.
  destruct (exceeds_display (w, h)) eqn:Hex.
  - unfold exceeds_display in Hex. cbn [fst snd] in Hex.
    apply orb_true_iff in Hex.
    assert (Hbig : (MAX_DISPLAY_SIZE < w)%Z \/ (MAX_DISPLAY_SIZE < h)%Z).
    { destruct Hex as [H|H]; [left|right]; lia. }
    destruct (truediv_max w Hw) as (rw & Hrw & Hrw0 & Hrwhi & Hrwlo).
    destruct (truediv_max h Hh) as (rh & Hrh & Hrh0 & Hrhhi & Hrhlo).
    unfold display_ratio in *. cbn [fst snd] in *. rewrite Hrw, Hrh in *.
    cbn [mbind result_bind mret result_ret] in *.
    set (ratio := min rw rh) in *.
    assert (Hr0 : 0 < ratio).
    { subst ratio. destruct (min_cases rw rh) as [-> | ->]; assumption. }
    pose proof (min_le_l rw rh) as Hl. pose proof (min_le_r rw rh) as Hr.
    fold ratio in Hl, Hr.
    pose proof (inject_Z_pos w Hw) as Hqw. pose proof (inject_Z_pos h Hh) as Hqh.
    destruct u_range as [Hu0 Hu1].
    assert (Hr1 : ratio <= 1).
    { destruct Hbig as [Hb|Hb].
      - assert (4201 <= inject_Z w).
        { change 4201 with (inject_Z 4201). rewrite <- Zle_Qle.
          unfold MAX_DISPLAY_SIZE in Hb. lia. }
        set (e := u) in *. clearbody e. nra.
      - assert (4201 <= inject_Z h).
        { change 4201 with (inject_Z 4201). rewrite <- Zle_Qle.
          unfold MAX_DISPLAY_SIZE in Hb. lia. }
        set (e := u) in *. clearbody e. nra. }
    destruct (scaled_dimension w ratio Hw Hr0) as (Hdw0 & Hdwlo & Hdwhi).
    destruct (scaled_dimension h ratio Hh Hr0) as (Hdh0 & Hdhlo & Hdhhi).
    set (dw := to_int (mul (of_int w) ratio)) in *.
    set (dh := to_int (mul (of_int h) ratio)) in *.
    assert (Hdwmax : (dw <= MAX_DISPLAY_SIZE)%Z).
    { apply Z.lt_succ_r. apply inject_Z_lt_inv.
      change (inject_Z (Z.succ MAX_DISPLAY_SIZE)) with 4201.
      set (e := u) in *. set (qw := inject_Z w) in *. set (x := inject_Z dw) in *.
      clearbody e qw x.
      assert (ratio * qw <= 4200 * (1 + e)) by nra. nra. }
    assert (Hdhmax : (dh <= MAX_DISPLAY_SIZE)%Z).
    { apply Z.lt_succ_r. apply inject_Z_lt_inv.
      change (inject_Z (Z.succ MAX_DISPLAY_SIZE)) with 4201.
      set (e := u) in *. set (qh := inject_Z h) in *. set (x := inject_Z dh) in *.
      clearbody e qh x.
      assert (ratio * qh <= 4200 * (1 + e)) by nra. nra. }
    assert (Hshrink : ratio * (1 + 3 * u) <= 1).
    { destruct Hbig as [Hb|Hb].
      - assert (4201 <= inject_Z w).
        { change 4201 with (inject_Z 4201). rewrite <- Zle_Qle.
          unfold MAX_DISPLAY_SIZE in Hb. lia. }
        set (e := u) in *. set (qw := inject_Z w) in *. clearbody e qw.
        assert (H1 : ratio * 4201 <= 4200 * (1 + e)) by nra. nra.
      - assert (4201 <= inject_Z h).
        { change 4201 with (inject_Z 4201). rewrite <- Zle_Qle.
          unfold MAX_DISPLAY_SIZE in Hb. lia. }
        set (e := u) in *. set (qh := inject_Z h) in *. clearbody e qh.
        assert (H1 : ratio * 4201 <= 4200 * (1 + e)) by nra. nra. }
    assert (Hdww : (dw <= w)%Z).
    { rewrite Zle_Qle. set (k := ratio * (1 + 3 * u)) in *.
      assert (Hk : inject_Z dw <= k * inject_Z w) by (subst k; lra).
      set (qw := inject_Z w) in *. set (x := inject_Z dw) in *.
      clearbody k qw x. nra. }
    assert (Hdhh : (dh <= h)%Z).
    { rewrite Zle_Qle. set (k := ratio * (1 + 3 * u)) in *.
      assert (Hk : inject_Z dh <= k * inject_Z h) by (subst k; lra).
      set (qh := inject_Z h) in *. set (x := inject_Z dh) in *.
      clearbody k qh x. nra. }
    exists dw, dh. split; [reflexivity|]. split; [lia|]. split; [lia|].
    split; [assumption|]. split; [assumption|].
    split; [intros [H1 H2]; lia|]. split; [|now apply Hlink].
    intros _. exists rw, rh, ratio.
    repeat (split; [first [reflexivity | assumption]|]).
    set (e := u) in *. set (qw := inject_Z w) in *. set (qh := inject_Z h) in *.
    set (x := inject_Z dw) in *. set (y := inject_Z dh) in *.
    clearbody e qw qh x y.
    assert (Ha : 0 <= ratio * qw) by nra. assert (Hb : 0 <= ratio * qh) by nra.
    split.
    + apply Qlt_minus_iff. 
      assert (Hx : x / qw <= ratio * (1 + 3 * e)).
      { apply Qle_shift_div_r; [lra|]. nra. }
      assert (Hy : ratio * (1 - 3 * e) - 1 / qh < y / qh).
      { apply Qlt_shift_div_l; [lra|].
        assert (Hq : (ratio * (1 - 3 * e) - 1 / qh) * qh
                     == ratio * qh * (1 - 3 * e) - 1) by (field; lra).
        rewrite Hq. assumption. }
      set (a := x / qw) in *. set (b := y / qh) in *. set (c := 1 / qh) in *.
      clearbody a b c. nra.
    + apply Qlt_minus_iff.
      assert (Hy : y / qh <= ratio * (1 + 3 * e)).
      { apply Qle_shift_div_r; [lra|]. nra. }
      assert (Hx : ratio * (1 - 3 * e) - 1 / qw < x / qw).
      { apply Qlt_shift_div_l; [lra|].
        assert (Hq : (ratio * (1 - 3 * e) - 1 / qw) * qw
                     == ratio * qw * (1 - 3 * e) - 1) by (field; lra).
        rewrite Hq. assumption. }
      set (a := x / qw) in *. set (b := y / qh) in *. set (c := 1 / qw) in *.
      clearbody a b c. nra.
  - unfold exceeds_display in Hex. cbn [fst snd] in Hex.
    apply orb_false_iff in Hex as [H1 H2].
    exists w, h. cbn [mret result_ret].
    split; [reflexivity|]. split; [lia|]. split; [lia|].
    split; [lia|]. split; [lia|].
    split; [tauto|]. split; [intros [H|H]; lia|].
    now apply Hlink.
Qed.

Lemma display_size_bounded_witness :
  exists dw dh,
    display_size (6000, 4000)%Z = Returns (dw, dh)
    /\ (0 <= dw <= MAX_DISPLAY_SIZE)%Z
    /\ (0 <= dh <= MAX_DISPLAY_SIZE)%Z.
Proof.
  destruct (display_size_bounded 6000 4000 ltac:(lia) ltac:(lia))
    as (dw & dh & H1 & H2 & H3 & _).
  exists dw, dh. auto.
Defined.

(** The sizes of some previews, among them a width that the two roundings
    leave one pixel under the ceiling. *)
Example display_size_examples :
  display_size (6000, 4000)%Z = Returns (4200, 2800)%Z
  /\ display_size (4200, 3000)%Z = Returns (4200, 3000)%Z
  /\ display_size (4000, 6000)%Z = Returns (2800, 4200)%Z
  /\ display_size (10000, 1)%Z = Returns (4200, 0)%Z
  /\ display_size (8377, 4000)%Z = Returns (4199, 2005)%Z.
Proof. vm_compute. repeat split. Qed.

End DisplaySize.

(** ** Mapping a selection to the original image *)

Section Selection.
Import PyFloat PyFloatFacts.
Local Open Scope Q_scope.

(** One axis of [map_selection]: the near edge [p] and the extent [len] of
    the selection on a screen axis of length [i], mapped to an image axis
    of length [a]. *)
Lemma axis_mapping (a : Z) (i p len : Q) :
  (0 <= a)%Z -> 0 < i -> 0 <= p -> 0 <= len -> p + len <= i ->
  exists s,
    div (of_int a) i = Returns s
    /\ 0 <= s
    /\ let p1 := clamp a (to_int (mul p s)) in
       let p2 := clamp a (p1 + to_int (mul len s)) in
       (0 <= p1 <= p2)%Z /\ (p2 <= a)%Z
       /\ p * s * (1 - 3 * u) - 1 < inject_Z p1
       /\ inject_Z p1 <= p * s * (1 + 3 * u)
       /\ (p + len) * s * (1 - 3 * u) - 2 < inject_Z p2
       /\ inject_Z p2 <= (p + len) * s * (1 + 3 * u).
Proof.
  intros Ha Hi Hp Hlen Hfit. unfold div.
  destruct (Qeq_bool i 0) eqn:Hz; [apply Qeq_bool_iff in Hz; lra|].
  eexists. split; [reflexivity|].
  assert (Hqa : 0 <= inject_Z a).
  { change 0 with (inject_Z 0). now rewrite <- Zle_Qle. }
  destruct (round64_bounds (inject_Z a) Hqa) as [_ Hfa].
  pose proof (round64_nonneg (inject_Z a) Hqa) as Hfa0.
  fold (of_int a) in *. set (fa := of_int a) in *.
  assert (Hquot : 0 <= fa / i) by (apply Qle_shift_div_l; lra).
  destruct (round64_bounds (fa / i) Hquot) as [_ Hs].
  pose proof (round64_nonneg (fa / i) Hquot) as Hs0.
  set (s := round64 (fa / i)) in *.
  assert (Hsi : s * i <= fa * (1 + u)).
  { assert (Hd : fa / i * i == fa) by (field; lra).
    destruct u_range as [Hu0 _]. set (q := fa / i) in *. clearbody q s. nra. }
  split; [assumption|].
  unfold mul.
  assert (Hps : 0 <= p * s) by nra. assert (Hls : 0 <= len * s) by nra.
  destruct (round64_bounds (p * s) Hps) as [HPlo HPhi].
  destruct (round64_bounds (len * s) Hls) as [HLlo HLhi].
  pose proof (round64_nonneg (p * s) Hps) as HP0.
  pose proof (round64_nonneg (len * s) Hls) as HL0.
  set (P := round64 (p * s)) in *. set (L := round64 (len * s)) in *.
  destruct (to_int_bounds P HP0) as [Ht1 Ht2].
  destruct (to_int_bounds L HL0) as [Hc1 Hc2].
  pose proof (to_int_nonneg P HP0) as Ht0.
  pose proof (to_int_nonneg L HL0) as Hc0.
  set (t := to_int P) in *. set (c := to_int L) in *.
  cbv zeta. unfold clamp.
  set (p1 := Z.max 0 (Z.min t a)). set (p2 := Z.max 0 (Z.min (p1 + c) a)).
  assert (Hp1 : (p1 = t /\ t <= a)%Z \/ (p1 = a /\ a <= t)%Z) by (subst p1; lia).
  assert (Hp2 : (p2 = p1 + c /\ p1 + c <= a)%Z \/ (p2 = a /\ a <= p1 + c)%Z)
    by (subst p2; lia).
  split; [lia|]. split; [lia|].
  destruct u_range as [Hu0 Hu1].
  assert (Hfull : forall v, 0 <= v -> v <= i -> v * s * (1 - 3 * u) <= inject_Z a).
  { intros v Hv0 Hvi.
    assert (H1 : v * s <= fa * (1 + u)) by nra.
    set (e := u) in *. set (qa := inject_Z a) in *. set (vs := v * s) in *.
    assert (Hvs : 0 <= vs) by (subst vs; nra).
    clearbody e qa vs fa.
    assert (H2 : vs <= qa * ((1 + e) * (1 + e))) by nra.
    assert (H3 : (1 + e) * (1 + e) * (1 - 3 * e) <= 1) by nra.
    assert (H4 : vs * (1 - 3 * e) <= qa * ((1 + e) * (1 + e)) * (1 - 3 * e)) by nra.
    set (k := (1 + e) * (1 + e)) in *. clearbody k. nra. }
  pose proof (Hfull p Hp ltac:(lra)) as Hnear.
  pose proof (Hfull (p + len) ltac:(lra) Hfit) as Hfar.
  assert (Hsum : (p + len) * s == p * s + len * s) by ring.
  assert (Ht : inject_Z (p1 + c) = inject_Z p1 + inject_Z c)
    by apply inject_Z_plus.
  set (e := u) in *. set (qa := inject_Z a) in *.
  set (ps := p * s) in *. set (ls := len * s) in *.
  set (qt := inject_Z t) in *. set (qc := inject_Z c) in *.
  assert (Hq1 : (inject_Z p1 == qt /\ qt <= qa) \/ (inject_Z p1 == qa /\ qa <= qt)).
  { destruct Hp1 as [[-> H]|[-> H]]; [left|right]; split; try reflexivity;
      unfold qt, qa; now rewrite <- Zle_Qle. }
  assert (Hq2 : (inject_Z p2 == inject_Z p1 + qc /\ inject_Z p1 + qc <= qa)
                \/ (inject_Z p2 == qa /\ qa <= inject_Z p1 + qc)).
  { destruct Hp2 as [[-> H]|[-> H]]; [left|right]; rewrite <- ?Ht;
      split; try reflexivity; unfold qa; now rewrite <- Zle_Qle. }
  set (x1 := inject_Z p1) in *. set (x2 := inject_Z p2) in *.
  rewrite Hsum in *.
  clearbody e qa ps ls qt qc x1 x2 P L fa.
  clear Hfull Ht Hp1 Hp2 Hsum.
  destruct Hq1 as [[E1 B1]|[E1 B1]], Hq2 as [[E2 B2]|[E2 B2]];
    repeat split; nra.
Qed.

(** C3, amended: a selection inside the picture on screen is mapped to a
    box inside the original image; each coordinate is the product with the
    scale factor of its axis, truncated and clamped, the far edges being
    the clamped near edge plus the truncated scaled extent.  The near edges
    lie within one original pixel under the exact product, and the far
    edges within two, up to the relative rounding [3 * 2^-53]. *)
Theorem selection_maps_inside_original (aw ah : Z) (x y width height iw ih : Q) :
  (0 <= aw)%Z -> (0 <= ah)%Z -> 0 < iw -> 0 < ih ->
  0 <= x -> 0 <= y -> 0 <= width -> 0 <= height ->
  x + width <= iw -> y + height <= ih ->
  exists sx sy x1 y1 x2 y2,
    div (of_int aw) iw = Returns sx
    /\ div (of_int ah) ih = Returns sy
    /\ map_selection (aw, ah) x y width height iw ih = Returns (x1, y1, x2, y2)
    /\ x1 = clamp aw (to_int (mul x sx))
    /\ y1 = clamp ah (to_int (mul y sy))
    /\ x2 = clamp aw (x1 + to_int (mul width sx))
    /\ y2 = clamp ah (y1 + to_int (mul height sy))
    /\ (0 <= x1 <= x2)%Z /\ (x2 <= aw)%Z
    /\ (0 <= y1 <= y2)%Z /\ (y2 <= ah)%Z
    /\ x * sx * (1 - 3 * u) - 1 < inject_Z x1
    /\ inject_Z x1 <= x * sx * (1 + 3 * u)
    /\ (x + width) * sx * (1 - 3 * u) - 2 < inject_Z x2
    /\ inject_Z x2 <= (x + width) * sx * (1 + 3 * u)
    /\ y * sy * (1 - 3 * u) - 1 < inject_Z y1
    /\ inject_Z y1 <= y * sy * (1 + 3 * u)
    /\ (y + height) * sy * (1 - 3 * u) - 2 < inject_Z y2
    /\ inject_Z y2 <= (y + height) * sy * (1 + 3 * u).
Proof.
  intros Haw Hah Hiw Hih Hx Hy Hw Hh Hfx Hfy.
  destruct (axis_mapping aw iw x width Haw Hiw Hx Hw Hfx)
    as (sx & Hsx & _ & HX).
  destruct (axis_mapping ah ih y height Hah Hih Hy Hh Hfy)
    as (sy & Hsy & _ & HY).
  cbv zeta in HX, HY.
  destruct HX as (HX1 & HX2 & HX3 & HX4 & HX5 & HX6).
  destruct HY as (HY1 & HY2 & HY3 & HY4 & HY5 & HY6).
  exists sx, sy. do 4 eexists.
  split; [exact Hsx|]. split; [exact Hsy|].
  split.
  { unfold map_selection. rewrite Hsx, Hsy.
    cbn [mbind result_bind mret result_ret]. reflexivity. }
  fold (clamp aw (to_int (mul x sx))). fold (clamp ah (to_int (mul y sy))).
  fold (clamp aw (clamp aw (to_int (mul x sx)) + to_int (mul width sx))).
  fold (clamp ah (clamp ah (to_int (mul y sy)) + to_int (mul height sy))).
  repeat (split; [first [reflexivity | assumption]|]). assumption.
Qed.

Lemma selection_maps_inside_original_witness :
  exists sx sy x1 y1 x2 y2,
    div (of_int 1250) 1000 = Returns sx
    /\ div (of_int 1250) 1000 = Returns sy
    /\ map_selection (1250, 1250)%Z 3 3 3 3 1000 1000 = Returns (x1, y1, x2, y2)
    /\ (0 <= x1 <= x2)%Z /\ (x2 <= 1250)%Z
    /\ (0 <= y1 <= y2)%Z /\ (y2 <= 1250)%Z.
Proof.
  destruct (selection_maps_inside_original 1250 1250 3 3 3 3 1000 1000)
    as (sx & sy & x1 & y1 & x2 & y2 & H1 & H2 & H3 & _ & _ & _ & _
        & H4 & H5 & H6 & H7 & _);
    try lia; try (unfold Qle, Qlt; cbn; lia).
  exists sx, sy, x1, y1, x2, y2. auto 10.
Defined.

(** C3 as stated fails: on a 250 pixel wide image shown 1000 pixels wide,
    the selection from 19 to 29 is mapped to the columns 4 to 6; divided by
    the scale factor 0.25 the edges come back as 16 and 24, three and five
    screen pixels from 19 and 29. *)
Lemma selection_not_reproduced_within_one_pixel :
  0 <= 19 /\ 19 + 10 <= 1000
  /\ div (of_int 250) 1000 = Returns (1 # 4)
  /\ map_selection (250, 250)%Z 19 19 10 10 1000 1000 = Returns (4, 4, 6, 6)%Z
  /\ ~ Qabs (inject_Z 4 / (1 # 4) - 19) <= 1
  /\ ~ Qabs (inject_Z 6 / (1 # 4) - (19 + 10)) <= 1.
Proof.
  split; [unfold Qle; cbn; lia|]. split; [unfold Qle; cbn; lia|].
  split; [vm_compute; reflexivity|]. split; [vm_compute; reflexivity|].
  split; vm_compute; intros H; apply H; reflexivity.
Qed.

(** Also on an image shown smaller than it is, the far edge, which adds two
    truncated terms, can come back more than one screen pixel away: with the
    scale factor 1.25 the selection from 3 to 6 comes back as 2.4 to 4.8. *)
Example selection_far_edge_on_reduced_image :
  map_selection (1250, 1250)%Z 3 3 3 3 1000 1000 = Returns (3, 3, 6, 6)%Z
  /\ div (of_int 1250) 1000 = Returns (5 # 4)
  /\ ~ Qabs (inject_Z 6 / (5 # 4) - (3 + 3)) <= 1.
Proof.
  split; [vm_compute; reflexivity|]. split; [vm_compute; reflexivity|].
  vm_compute. intros H. apply H. reflexivity.
Qed.

End Selection.

(** ** The invariant of the session *)

Lemma session_ok_same_session a b :
  same_session a b -> session_ok b -> session_ok a.
Proof.
  unfold session_ok, has_active_asset, same_session, same_view.
  intros ((Hi & Hc & Hr) & _) H. rewrite Hi, Hc, Hr. exact H.
Qed.

Lemma get_data_session_ok W st :
  session_ok st -> session_ok (fst (_get_current_image_data W st)).
Proof. apply session_ok_same_session, get_data_same_session. Qed.

Lemma mod_index_active (images : list string) (i : Z) :
  images <> [] -> 0 <= i mod py_len images < py_len images.
Proof. intros H. apply Z.mod_pos_bound. now apply py_len_pos. Qed.

(** X4: the invariant of the session (an active asset unless the list is
    empty, and a rotation of whole quarter turns) holds in the initial
    state and is kept by navigation, rotation, both open dialogs and a
    commit, whatever the world answers. *)
Lemma session_ok_preserved (W : World) (fuel : nat) (st : Api) (fs : gset string) :
  session_ok Api_init
  /\ (session_ok st ->
      session_ok (fst (next_image W st))
      /\ session_ok (fst (prev_image W st))
      /\ (forall k, session_ok (fst (goto_image W st k)))
      /\ session_ok (fst (rotate_left W st))
      /\ session_ok (fst (rotate_right W st))
      /\ (forall dialog, session_ok (fst (open_file W st dialog)))
      /\ (forall dialog, session_ok (fst (open_folder W st dialog)))
      /\ (forall name number st' fs' r,
            rename_and_save W fuel st fs name number = Some (st', fs', r) ->
            session_ok st')).
Proof.
  split; [split; [now left|now left]|].
  intros Hok. pose proof Hok as [Hidx Hrot].
  assert (Hzero : quarter_turn 0) by now left.
  split.
  { unfold next_image. destruct (images st) eqn:Hi; [exact Hok|].
    cbn [is_empty]. apply get_data_session_ok. split; [|exact Hzero].
    right. split; cbn; rewrite ?Hi; [discriminate|].
    apply mod_index_active. discriminate. }
  split.
  { unfold prev_image. destruct (images st) eqn:Hi; [exact Hok|].
    cbn [is_empty]. apply get_data_session_ok. split; [|exact Hzero].
    right. split; cbn; rewrite ?Hi; [discriminate|].
    apply mod_index_active. discriminate. }
  split.
  { intros k. unfold goto_image. destruct (images st) eqn:Hi; [exact Hok|].
    cbn [is_empty].
    destruct ((k - 1 <? 0) || (py_len (s :: l) <=? k - 1)) eqn:Hg; [exact Hok|].
    apply orb_false_iff in Hg as [H1 H2].
    apply get_data_session_ok. split; [|exact Hzero].
    right. split; cbn [images current_index set_rotation set_current_index];
      rewrite ?Hi; [discriminate|lia]. }
  split.
  { unfold rotate_left. apply get_data_session_ok. split; [exact Hidx|].
    apply (quarter_turn_step _ (-90)); [assumption|now right]. }
  split.
  { unfold rotate_right. apply get_data_session_ok. split; [exact Hidx|].
    apply quarter_turn_step; [assumption|now left]. }
  split.
  { intros [[[|p ps]|]|e]; cbn [open_file]; try exact Hok.
    match goal with |- context [_get_current_image_data W ?s] =>
      pose proof (get_data_session_ok W s) as Hg;
      destruct (_get_current_image_data W s) as [st1 data]
    end.
    cbn [fst] in *. apply Hg. split; [|exact Hzero].
    right. split; [discriminate|]. unfold py_len. cbn. lia. }
  split.
  { intros [[[|p ps]|]|e]; cbn [open_folder]; try exact Hok.
    destruct (iterdir W p) as [entries|e].
    - cbn [images set_images set_current_folder].
      destruct (supported_images entries) as [|q qs] eqn:Hs; cbn [is_empty negb].
      + split; [now left|exact Hrot].
      + match goal with |- context [_get_current_image_data W ?s] =>
          pose proof (get_data_session_ok W s) as Hg;
          destruct (_get_current_image_data W s) as [st1 data]
        end.
        cbn [fst] in *. apply Hg. split; [|exact Hzero].
        right. split; [discriminate|]. unfold py_len. cbn. lia.
    - split; [now left|exact Hrot]. }
  intros name number st' fs' r Hrun. revert Hrun. unfold rename_and_save.
  destruct (is_empty (images st) || (py_len (images st) <=? current_index st));
    [intros [= <- <- <-]; exact Hok|].
  destruct (String.eqb (save_path st) ""); [intros [= <- <- <-]; exact Hok|].
  destruct (String.eqb name "" && String.eqb number "");
    [intros [= <- <- <-]; exact Hok|].
  destruct (negb (is_empty (invalid_found name number)));
    [intros [= <- <- <-]; exact Hok|].
  destruct (getitem (images st) (current_index st)) as [path|e];
    [|intros [= <- <- <-]; exact Hok].
  destruct (probe_free _ _ _ _ _ _ _) as [dst|]; [|discriminate].
  destruct (perform_write W _) as [[]|e]; [|intros [= <- <- <-]; exact Hok].
  cbn [images set_rotation current_index].
  destruct (py_len (images st) =? 1).
  - pose proof (get_data_session_ok W (set_rotation 0 st)) as Hg.
    destruct (_get_current_image_data W (set_rotation 0 st)) as [st1 next].
    intros [= <- <- <-]. apply Hg. split; [exact Hidx|exact Hzero].
  - match goal with |- context [_get_current_image_data W ?s] =>
      pose proof (get_data_session_ok W s) as Hg;
      destruct (_get_current_image_data W s) as [st1 next]
    end.
    intros [= <- <- <-]. apply Hg. split; [|exact Hzero].
    destruct Hidx as [Hempty|[Hne _]]; [now left|].
    right. split; [exact Hne|].
    cbn [images current_index set_rotation set_current_index].
    now apply mod_index_active.
Qed.

Lemma session_ok_preserved_witness :
  session_ok sample_session
  /\ session_ok (fst (next_image sample_world sample_session)).
Proof.
  assert (H : session_ok sample_session).
  { split; [right; split; [discriminate|vm_compute; split; congruence]|now left]. }
  split; [exact H|].
  destruct (session_ok_preserved sample_world 0 sample_session ∅) as [_ Hk].
  exact (proj1 (Hk H)).
Defined.
(** ** The metadata store *)

Ltac attempt_steps :=
  cbn [mbind attempt_bind mret attempt_ret negb
       PyJson.contains PyJson.getitem PyJson.setitem PyJson.delitem PyJson.get].

(** On data of the shape it writes, [save_image_data] answers success and
    hands the updated dict to the write. *)
Lemma save_image_data_accepted outcome file folder filename name number :
  accepts_records (load_persistent_data file) folder = true ->
  exists members,
    load_persistent_data file = JObject members
    /\ save_image_data outcome file folder filename name number
       = (save_persistent_data outcome
            (JObject (<[folder := JObject (<[filename := entry name number]>
                                             (folder_records file folder))]>
                        members))
            file,
          StoreDone None).
Proof.
  unfold save_image_data, folder_records, accepts_records.
  destruct (load_persistent_data file) as [| | | | | |members]; try discriminate.
  intros Hshape. exists members. split; [reflexivity|]. attempt_steps.
  destruct (members !! folder) as [v|] eqn:Hv.
  - destruct v as [| | | | | |records]; try discriminate.
    rewrite bool_decide_eq_true_2 by eauto. attempt_steps. rewrite Hv.
    attempt_steps. reflexivity.
  - rewrite bool_decide_eq_false_2 by (intros [v Hsome]; discriminate).
    attempt_steps. rewrite lookup_insert_eq. attempt_steps.
    now rewrite insert_insert_eq.
Qed.

(** On any other data the update raises, and the file is not written. *)
Lemma save_image_data_rejected outcome file folder filename name number :
  accepts_records (load_persistent_data file) folder = false ->
  exists e,
    save_image_data outcome file folder filename name number
    = (file, StoreFailure e).
Proof.
  unfold save_image_data, accepts_records.
  destruct (load_persistent_data file) as [| | | | s|items|members];
    attempt_steps; eauto.
  - destruct (PyJson.str_contains folder s); attempt_steps; eauto.
  - destruct (existsb _ items); attempt_steps; eauto.
  - destruct (members !! folder) as [v|] eqn:Hv; [|discriminate].
    rewrite bool_decide_eq_true_2 by eauto. attempt_steps. rewrite Hv.
    destruct v; attempt_steps; eauto. discriminate.
Qed.

Lemma save_image_data_success outcome file folder filename name number :
  store_success (snd (save_image_data outcome file folder filename name number))
  = accepts_records (load_persistent_data file) folder.
Proof.
  destruct (accepts_records (load_persistent_data file) folder) eqn:Hshape.
  - destruct (save_image_data_accepted outcome file folder filename name number
                Hshape) as (members & _ & ->).
    reflexivity.
  - destruct (save_image_data_rejected outcome file folder filename name number
                Hshape) as (e & ->).
    reflexivity.
Qed.

Lemma load_folder_data_object file members folder :
  load_persistent_data file = JObject members ->
  load_folder_data file folder
  = StoreData (match members !! folder with
               | Some v => v
               | None => JObject ∅
               end).
Proof. unfold load_folder_data. now intros ->. Qed.

Lemma load_folder_data_written members folder :
  load_folder_data (FileData (JObject members)) folder
  = StoreData (match members !! folder with
               | Some v => v
               | None => JObject ∅
               end).
Proof. reflexivity. Qed.

(** X1: when [save_image_data] answers success and the write completed,
    [load_folder_data] returns the saved record for that drawing; the other
    drawings of the folder and all other folders keep what they held.  It
    answers success on every file that is missing, unreadable or of the
    shape it writes. *)
Theorem saved_entry_is_loaded (file : data_file)
    (folder filename name number : string) :
  let r := save_image_data Written file folder filename name number in
  (accepts_records (load_persistent_data file) folder = true ->
   snd r = StoreDone None)
  /\ (snd r = StoreDone None ->
      (exists d, load_folder_data (fst r) folder = StoreData (JObject d)
                 /\ d !! filename = Some (entry name number)
                 /\ forall other, other <> filename ->
                      d !! other = stored_entry file folder other)
      /\ (forall folder', folder' <> folder ->
            load_folder_data (fst r) folder' = load_folder_data file folder')
      /\ stored_entry (fst r) folder filename = Some (entry name number)).
Proof.
  cbv zeta. split.
  - intros Hshape.
    destruct (save_image_data_accepted Written file folder filename name number
                Hshape) as (members & _ & ->).
    reflexivity.
  - intros Hdone.
    destruct (accepts_records (load_persistent_data file) folder) eqn:Hshape.
    + destruct (save_image_data_accepted Written file folder filename name
                  number Hshape) as (members & Hload & Hrun).
      rewrite Hrun. cbn [fst save_persistent_data].
      split; [|split].
      * eexists. rewrite load_folder_data_written.
        rewrite lookup_insert_eq. split; [reflexivity|].
        split; [apply lookup_insert_eq|].
        intros other Hne. unfold stored_entry.
        now rewrite lookup_insert_ne by congruence.
      * intros folder' Hne.
        rewrite load_folder_data_written.
        rewrite (load_folder_data_object _ _ folder' Hload).
        now rewrite lookup_insert_ne by congruence.
      * unfold stored_entry, folder_records at 1. cbn [load_persistent_data].
        rewrite lookup_insert_eq. apply lookup_insert_eq.
    + destruct (save_image_data_rejected Written file folder filename name
                  number Hshape) as (e & Hrun).
      rewrite Hrun in Hdone. discriminate.
Qed.

Lemma saved_entry_is_loaded_witness :
  "b.jpg" <> "a.jpg"
  /\ exists d,
       load_folder_data
         (fst (save_image_data Written FileMissing "/scans" "a.jpg" "Plan" "A-1"))
         "/scans"
       = StoreData (JObject d)
       /\ d !! "a.jpg" = Some (entry "Plan" "A-1")
       /\ d !! "b.jpg" = None.
Proof.
  assert (Hne : "b.jpg" <> "a.jpg") by discriminate.
  split; [exact Hne|].
  pose proof (saved_entry_is_loaded FileMissing "/scans" "a.jpg" "Plan" "A-1")
    as H.
  cbv zeta in H. destruct H as (Hdone & Hloaded).
  destruct (Hloaded (Hdone eq_refl)) as ((d & Hd & Ha & Hother) & _ & _).
  exists d. split; [exact Hd|]. split; [exact Ha|].
  rewrite (Hother "b.jpg" Hne). reflexivity.
Defined.

(** X2: on a data file that holds a dict, or is missing or unreadable,
    [clear_folder_data] answers with its success message, leaves the file
    untouched when the folder has no records, and after a completed write
    the folder loads as empty while every other folder keeps its own.  On
    a file that holds anything else nothing is written: the answer is a
    success exactly when the membership test returns false, and the folder
    still cannot be loaded. *)
Theorem cleared_folder_is_empty (outcome : write_outcome) (file : data_file)
    (folder : string) :
  let r := clear_folder_data outcome file folder in
  let data := load_persistent_data file in
  (forall members, data = JObject members ->
     snd r = StoreDone (Some "历史数据已清空")
     /\ (members !! folder = None -> fst r = file)
     /\ (outcome = Written ->
         load_folder_data (fst r) folder = StoreData (JObject ∅)
         /\ forall folder', folder' <> folder ->
              load_folder_data (fst r) folder' = load_folder_data file folder'))
  /\ (is_object data = false ->
      fst r = file
      /\ store_success (snd r)
         = match PyJson.contains folder data with
           | Done present => negb present
           | Thrown _ => false
           end
      /\ store_success (load_folder_data (fst r) folder) = false).
Proof.
  cbv zeta. split.
  - intros members Hload. unfold clear_folder_data. rewrite Hload.
    attempt_steps.
    destruct (members !! folder) as [v|] eqn:Hv.
    + rewrite bool_decide_eq_true_2 by eauto. attempt_steps. rewrite ?Hv.
      attempt_steps. cbn [fst snd].
      split; [reflexivity|]. split; [discriminate|]. intros ->.
      cbn [save_persistent_data].
      rewrite load_folder_data_written, lookup_delete_eq.
      split; [reflexivity|]. intros folder' Hne.
      rewrite load_folder_data_written.
      rewrite (load_folder_data_object _ _ folder' Hload).
      now rewrite lookup_delete_ne by congruence.
    + rewrite bool_decide_eq_false_2 by (intros [v Hsome]; discriminate).
      attempt_steps. cbn [fst snd].
      split; [reflexivity|]. split; [reflexivity|]. intros _.
      rewrite (load_folder_data_object _ _ folder Hload), Hv.
      split; reflexivity.
  - unfold clear_folder_data, load_folder_data.
    destruct (load_persistent_data file) as [| | | | s|items|members] eqn:Hload;
      try discriminate; intros _; attempt_steps;
      try (cbn [fst snd]; rewrite Hload; repeat split; reflexivity).
    + destruct (PyJson.str_contains folder s); attempt_steps; cbn [fst snd];
        rewrite Hload; repeat split; reflexivity.
    + destruct (existsb _ items); attempt_steps; cbn [fst snd];
        rewrite Hload; repeat split; reflexivity.
Qed.

Lemma cleared_folder_is_empty_witness :
  load_folder_data
    (fst (clear_folder_data Written
            (FileData (JObject {[ "/scans" := JObject {[ "a.jpg" := entry "Plan" "A-1" ]} ]}))
            "/scans"))
    "/scans"
  = StoreData (JObject ∅)
  /\ store_success (snd (clear_folder_data Written (FileData JNull) "/scans"))
     = false.
Proof.
  split.
  - pose proof (cleared_folder_is_empty Written
                  (FileData (JObject {[ "/scans" := JObject {[ "a.jpg" := entry "Plan" "A-1" ]} ]}))
                  "/scans") as H.
    cbv zeta in H. destruct H as (H & _).
    destruct (H _ eq_refl) as (_ & _ & Hw). exact (proj1 (Hw eq_refl)).
  - pose proof (cleared_folder_is_empty Written (FileData JNull) "/scans") as H.
    cbv zeta in H. destruct H as (_ & H).
    destruct (H eq_refl) as (_ & Hs & _). exact Hs.
Defined.

(** X3: the answer of [save_image_data] tells the shape of the data, not
    the fate of the write.  It answers success exactly when the loaded data
    is a dict in which the folder is absent or a dict, whatever becomes of
    the write: after a refused write the file is as it was, after a write
    broken midway every folder loads as empty.  On any other data it fails
    and leaves the file untouched.  [load_folder_data] fails exactly when
    the file holds something other than a dict; a missing or unreadable
    file loads as an empty folder, and the next completed save replaces it
    by the one new record. *)
Theorem store_failures_are_silent (file : data_file)
    (folder filename name number : string) :
  let save outcome := save_image_data outcome file folder filename name number in
  let accepted := accepts_records (load_persistent_data file) folder in
  (forall outcome, store_success (snd (save outcome)) = accepted)
  /\ (accepted = false -> forall outcome, fst (save outcome) = file)
  /\ (accepted = true ->
      fst (save WriteRefused) = file
      /\ forall f, load_folder_data (fst (save WriteBroken)) f
                   = StoreData (JObject ∅))
  /\ (forall f, store_success (load_folder_data file f)
                = is_object (load_persistent_data file))
  /\ (file = FileMissing \/ file = FileUnreadable ->
      (forall f, load_folder_data file f = StoreData (JObject ∅))
      /\ fst (save Written)
         = FileData (JObject {[ folder := JObject {[ filename := entry name number ]} ]})).
Proof.
  cbv zeta. split; [intros outcome; apply save_image_data_success|].
  split.
  { intros Hshape outcome.
    destruct (save_image_data_rejected outcome file folder filename name number
                Hshape) as (e & ->).
    reflexivity. }
  split.
  { intros Hshape. split.
    - destruct (save_image_data_accepted WriteRefused file folder filename name
                  number Hshape) as (members & _ & ->).
      reflexivity.
    - intros f.
      destruct (save_image_data_accepted WriteBroken file folder filename name
                  number Hshape) as (members & _ & ->).
      reflexivity. }
  split.
  { intros f. unfold load_folder_data.
    destruct (load_persistent_data file); reflexivity. }
  intros Hfile.
  assert (Hload : load_persistent_data file = JObject ∅)
    by (destruct Hfile as [-> | ->]; reflexivity).
  split.
  - intros f. rewrite (load_folder_data_object _ _ f Hload).
    now rewrite lookup_empty.
  - assert (Hshape : accepts_records (load_persistent_data file) folder = true)
      by (rewrite Hload; reflexivity).
    destruct (save_image_data_accepted Written file folder filename name number
                Hshape) as (members & Hm & ->).
    cbn [fst save_persistent_data]. rewrite Hload in Hm. injection Hm as <-.
    unfold folder_records. rewrite Hload, lookup_empty. reflexivity.
Qed.

Lemma store_failures_are_silent_witness :
  store_success
    (snd (save_image_data Written (FileData (JArray [])) "/scans" "a.jpg" "Plan" "A-1"))
  = false
  /\ fst (save_image_data Written FileUnreadable "/scans" "a.jpg" "Plan" "A-1")
     = FileData (JObject {[ "/scans" := JObject {[ "a.jpg" := entry "Plan" "A-1" ]} ]}).
Proof.
  split.
  - pose proof (store_failures_are_silent (FileData (JArray [])) "/scans" "a.jpg"
                  "Plan" "A-1") as H.
    cbv zeta in H. destruct H as (H & _). exact (H Written).
  - pose proof (store_failures_are_silent FileUnreadable "/scans" "a.jpg"
                  "Plan" "A-1") as H.
    cbv zeta in H. destruct H as (_ & _ & _ & _ & H).
    exact (proj2 (H (or_intror eq_refl))).
Defined.
(** ** What a preview reports *)

Lemma derive_preview_inv W st st' d :
  derive_preview W st = (st', Returns d) ->
  exists path natural b64,
    getitem (images st) (current_index st) = Returns path
    /\ _load_image W path = Returns natural
    /\ display_size (rotated_size (rotation st) natural)
       = Returns (width d, height d)
    /\ (originalWidth d, originalHeight d) = rotated_size (rotation st) natural
    /\ jpeg_base64 W path (rotation st) (width d, height d) = Returns b64
    /\ d = mkData ("data:image/jpeg;base64," +:+ b64) (os_path.basename path)
             path (current_index st) (py_len (images st)) (width d) (height d)
             (originalWidth d) (originalHeight d)
    /\ st' = set_display (width d, height d)
               (set_original (originalWidth d, originalHeight d) st).
Proof.
  unfold derive_preview. cbn [rotation set_display set_original].
  destruct (getitem (images st) (current_index st)) as [path|e] eqn:Hg;
    [|discriminate].
  destruct (_load_image W path) as [natural|e] eqn:Hl; [|discriminate].
  destruct (display_size (rotated_size (rotation st) natural))
    as [[dw dh]|e] eqn:Hd; [|discriminate].
  destruct (if exceeds_display _ then _ else _) as [[]|e]; [|discriminate].
  destruct (jpeg_base64 W path (rotation st) (dw, dh)) as [b64|e] eqn:Hj;
    [|discriminate].
  intros [= <- <-]. cbn.
  destruct (rotated_size (rotation st) natural) as [ow oh] eqn:Hr.
  exists path, natural, b64. cbn. rewrite Hr.
  repeat split; first [assumption | reflexivity].
Qed.

(** A successful preview, taken apart. *)
Lemma get_data_preview_inv (W : World) (st st' : Api)
    (d : image_data) :
  _get_current_image_data W st = (st', Preview d) ->
  getitem (images st) (current_index st) = Returns (filepath d)
  /\ filename d = os_path.basename (filepath d)
  /\ index d = current_index st
  /\ total d = py_len (images st)
  /\ index d < total d
  /\ (exists natural,
        _load_image W (filepath d) = Returns natural
        /\ (originalWidth d, originalHeight d)
           = rotated_size (rotation st) natural)
  /\ display_size (originalWidth d, originalHeight d)
     = Returns (width d, height d)
  /\ original_width st' = originalWidth d
  /\ original_height st' = originalHeight d
  /\ display_width st' = width d
  /\ display_height st' = height d
  /\ same_session st' st.
Proof.
  unfold _get_current_image_data.
  destruct (is_empty (images st) || (py_len (images st) <=? current_index st))
    eqn:Hguard; [discriminate|].
  apply orb_false_iff in Hguard as [_ Hlt].
  destruct (derive_preview W st) as [st1 [d1|e]] eqn:Hder; [|discriminate].
  intros [= <- <-].
  destruct (derive_preview_inv W st st1 d1 Hder)
    as (path & natural & b64 & Hget & Hload & Hdisp & Horig & _ & Hd & Hst).
  destruct d1 as [im fn fp ix tot w h ow oh]. cbn in *.
  injection Hd as _ -> -> -> ->. subst st1. cbn.
  split; [assumption|]. split; [reflexivity|]. split; [reflexivity|].
  split; [reflexivity|]. split; [lia|].
  split; [exists natural; split; [assumption|exact Horig]|].
  split; [now rewrite Horig|]. repeat (split; [reflexivity|]). repeat split.
Qed.

(** X5: a successful preview describes the active asset: its path is the
    entry of the list at the current index, its file name the base name of
    that path, index and total are those of the session with index < total;
    the original size is the size of the loaded image under the current
    rotation, the display size is computed from it, and the session records
    both sizes and is otherwise unchanged. *)
Theorem preview_describes_active_asset (W : World) (st st' : Api)
    (d : image_data) :
  _get_current_image_data W st = (st', Preview d) ->
  getitem (images st) (current_index st) = Returns (filepath d)
  /\ filename d = os_path.basename (filepath d)
  /\ index d = current_index st
  /\ total d = py_len (images st)
  /\ index d < total d
  /\ (exists natural,
        _load_image W (filepath d) = Returns natural
        /\ (originalWidth d, originalHeight d)
           = rotated_size (rotation st) natural)
  /\ display_size (originalWidth d, originalHeight d)
     = Returns (width d, height d)
  /\ original_width st' = originalWidth d
  /\ original_height st' = originalHeight d
  /\ display_width st' = width d
  /\ display_height st' = height d
  /\ same_session st' st.
Proof. apply get_data_preview_inv. Qed.

Lemma preview_describes_active_asset_witness :
  exists st' d,
    _get_current_image_data sample_world sample_session = (st', Preview d)
    /\ filename d = os_path.basename (filepath d)
    /\ index d < total d
    /\ display_width st' = width d
    /\ same_session st' sample_session.
Proof.
  eexists. eexists. split; [vm_compute; reflexivity|].
  destruct (preview_describes_active_asset sample_world sample_session _ _
              eq_refl)
    as (_ & H2 & _ & _ & H5 & _ & _ & _ & _ & H10 & _ & H12).
  split; [exact H2|]. split; [exact H5|]. split; [exact H10|exact H12].
Defined.

(** ** A quarter turn and the sizes *)

Section Turns.
Import PyFloat PyFloatFacts.

Lemma round64_canonical q : Qred (round64 q) = round64 q.
Proof.
  unfold round64. destruct (Qnum q); [reflexivity| |];
    unfold round64_pos; apply Qred_complete, Qred_correct.
Qed.

Lemma round64_eq a b : (round64 a == round64 b)%Q -> round64 a = round64 b.
Proof.
  intros H. rewrite <- (round64_canonical a), <- (round64_canonical b).
  now apply Qred_complete.
Qed.

Lemma min_round64_comm a b :
  min (round64 a) (round64 b) = min (round64 b) (round64 a).
Proof.
  unfold min.
  destruct (Qlt_le_dec (round64 b) (round64 a)) as [H1|H1],
           (Qlt_le_dec (round64 a) (round64 b)) as [H2|H2];
    try reflexivity.
  - exfalso. lra.
  - apply round64_eq. lra.
Qed.

Lemma display_size_swap (size : Z * Z) :
  display_size (swap size)
  = match display_size size with
    | Returns d => Returns (swap d)
    | Raises e => Raises e
    end.
Proof.
  destruct size as [w h]. unfold display_size, exceeds_display, swap.
  cbn [fst snd]. rewrite (orb_comm (MAX_DISPLAY_SIZE <? h)).
  destruct ((MAX_DISPLAY_SIZE <? w) || (MAX_DISPLAY_SIZE <? h)); [|reflexivity].
  unfold display_ratio, truediv. cbn [fst snd].
  destruct (h =? 0) eqn:Hh, (w =? 0) eqn:Hw; try reflexivity.
  cbn. now rewrite min_round64_comm.
Qed.

Lemma rotated_size_quarter r d natural :
  quarter_turn r -> d = 90 \/ d = -90 ->
  rotated_size ((r + d) mod 360) natural = swap (rotated_size r natural).
Proof.
  unfold quarter_turn. destruct natural as [w h].
  intros [-> | [-> | [-> | ->]]] [-> | ->]; reflexivity.
Qed.

(** X6: a quarter turn to the left or to the right exchanges width and
    height, of the original size and of the display size the preview
    reports, and shows the same asset. *)
Theorem quarter_turn_swaps_sizes (W : World) (st : Api) (t : turn)
    (d d' : image_data) :
  quarter_turn (rotation st) ->
  snd (_get_current_image_data W st) = Preview d ->
  snd (rotate W t st) = Preview d' ->
  originalWidth d' = originalHeight d
  /\ originalHeight d' = originalWidth d
  /\ width d' = height d
  /\ height d' = width d
  /\ filepath d' = filepath d
  /\ index d' = index d.
Proof.
  intros Hq Hbefore Hafter. rewrite rotate_unfold in Hafter.
  set (st1 := set_rotation ((rotation st + degrees t) mod 360) st) in *.
  destruct (_get_current_image_data W st) as [sa ra] eqn:Ha.
  destruct (_get_current_image_data W st1) as [sb rb] eqn:Hb.
  cbn [snd] in *. subst ra rb.
  destruct (get_data_preview_inv W st sa d Ha)
    as (Hg & _ & Hi & _ & _ & (n & Hl & Ho) & Hd & _).
  destruct (get_data_preview_inv W st1 sb d' Hb)
    as (Hg' & _ & Hi' & _ & _ & (n' & Hl' & Ho') & Hd' & _).
  subst st1. cbn [images current_index rotation set_rotation] in *.
  assert (Hpath : filepath d' = filepath d) by congruence.
  rewrite Hpath in Hl'. assert (n' = n) by congruence. subst n'.
  assert (Hdeg : degrees t = 90 \/ degrees t = -90)
    by (destruct t; [now right|now left]).
  rewrite (rotated_size_quarter _ _ n Hq Hdeg) in Ho'.
  rewrite <- Ho in Ho'. unfold swap in Ho'. cbn [fst snd] in Ho'.
  injection Ho' as Hw Hh.
  pose proof (display_size_swap (originalWidth d, originalHeight d)) as Hs.
  rewrite Hd in Hs. unfold swap in Hs. cbn [fst snd] in Hs.
  rewrite Hw, Hh, Hs in Hd'. injection Hd' as Hdw Hdh.
  repeat split; congruence.
Qed.

Lemma quarter_turn_swaps_sizes_witness :
  exists d d',
    snd (_get_current_image_data sample_world sample_session) = Preview d
    /\ snd (rotate sample_world TurnRight sample_session) = Preview d'
    /\ originalWidth d' = originalHeight d
    /\ width d' = height d.
Proof.
  eexists. eexists. split; [vm_compute; reflexivity|].
  split; [vm_compute; reflexivity|].
  destruct (quarter_turn_swaps_sizes sample_world sample_session TurnRight _ _
              (or_introl eq_refl) eq_refl eq_refl) as (H1 & _ & H3 & _).
  split; [exact H1|exact H3].
Defined.

End Turns.

(** ** Opening a file *)

(** X7: [open_file] with a chosen file replaces the session by that one
    asset, at index 0 with rotation 0 and the folder of the file, whether or
    not the preview can be derived; only the first chosen path counts.  A
    dialog that is cancelled or raises leaves the session as it was. *)
Theorem open_file_replaces_session (W : World) (st : Api) :
  (forall file rest,
     let r := open_file W st (Returns (Some (file :: rest))) in
     images (fst r) = [file]
     /\ current_index (fst r) = 0
     /\ rotation (fst r) = 0
     /\ current_folder (fst r) = os_path.dirname file
     /\ save_path (fst r) = save_path st
     /\ has_active_asset (fst r)
     /\ exists data, snd r = WithFolder (os_path.dirname file) data
          /\ data
             = snd (_get_current_image_data W
                      (set_rotation 0
                         (set_current_index 0
                            (set_images [file]
                               (set_current_folder (os_path.dirname file) st))))))
  /\ (forall dialog,
        dialog = Returns None \/ dialog = Returns (Some [])
        \/ (exists e, dialog = Raises e) ->
        fst (open_file W st dialog) = st
        /\ success (snd (open_file W st dialog)) = false).
Proof.
  split.
  - intros file rest. cbv zeta. cbn [open_file].
    set (st0 := set_rotation 0 _).
    pose proof (get_data_same_session W st0) as ((Hi & Hc & Hr) & Hs & Hf).
    destruct (_get_current_image_data W st0) as [st1 data] eqn:Hget.
    cbn [fst snd] in *. unfold has_active_asset.
    rewrite Hi, Hc, Hr, Hs, Hf. subst st0. cbn.
    repeat (split; [reflexivity|]).
    split; [split; [discriminate|unfold py_len; cbn; lia]|].
    exists data. split; reflexivity.
  - intros dialog [-> | [-> | [e ->]]]; split; reflexivity.
Qed.

Lemma open_file_replaces_session_witness :
  fst (open_file sample_world sample_session (Returns None)) = sample_session
  /\ success (snd (open_file sample_world sample_session (Returns None)))
     = false.
Proof.
  destruct (open_file_replaces_session sample_world sample_session) as [_ H].
  apply H. left. reflexivity.
Defined.

(** ** A folder without assets *)

(** X9: when the chosen folder cannot be listed or holds no supported
    file, [open_folder] fails, and the asset list of the session is empty
    from then on, whatever it held before: navigation, cropping and export
    all fail until a file or folder is opened. *)
Theorem open_folder_without_assets (W : World) (st : Api) (folder : string)
    (rest : list string) :
  (exists e, iterdir W folder = Raises e)
  \/ (exists entries, iterdir W folder = Returns entries
                      /\ supported_images entries = []) ->
  let r := open_folder W st (Returns (Some (folder :: rest))) in
  success (snd r) = false
  /\ images (fst r) = []
  /\ current_folder (fst r) = folder
  /\ next_image W (fst r) = (fst r, Failure "没有加载图片")
  /\ prev_image W (fst r) = (fst r, Failure "没有加载图片")
  /\ (forall k, goto_image W (fst r) k = (fst r, Failure "没有加载图片"))
  /\ (forall x y w h iw ih,
        crop_and_ocr W (fst r) x y w h iw ih
        = (fst r, Failure "没有可处理的图片"))
  /\ (forall fuel fs name number,
        rename_and_save W fuel (fst r) fs name number
        = Some (fst r, fs, Failure "没有可保存的图片")).
Proof.
  intros Hdir. cbv zeta.
  assert (Hr : exists m,
            open_folder W st (Returns (Some (folder :: rest)))
            = (set_images [] (set_current_folder folder st), Failure m)).
  { cbn [open_folder]. destruct Hdir as [[e ->] | (entries & -> & Hs)].
    - eauto.
    - rewrite Hs. cbn. eauto. }
  destruct Hr as [m ->]. cbn [fst snd success].
  repeat split.
Qed.

Lemma open_folder_without_assets_witness :
  let r := open_folder unreadable_world sample_session (Returns (Some ["/empty"])) in
  success (snd r) = false /\ images (fst r) = []
  /\ next_image unreadable_world (fst r) = (fst r, Failure "没有加载图片").
Proof.
  destruct (open_folder_without_assets unreadable_world sample_session "/empty" [])
    as (H1 & H2 & _ & H4 & _).
  - right. exists []. split; reflexivity.
  - cbv zeta. split; [exact H1|]. split; [exact H2|exact H4].
Defined.

(** ** After a commit *)

(** X10: a completed commit resets the rotation, keeps the asset list and
    the destination folder, and moves to the next asset, from the last one
    back to the first; a session with a single asset stays on it.  The
    response carries the preview of the asset then shown and never reports
    the list as finished. *)
Theorem commit_advances_session (W : World) (fuel : nat) (st st' : Api)
    (fs fs' : gset string) (name number msg dst : string) (fin : bool)
    (next : response) :
  rename_and_save W fuel st fs name number
  = Some (st', fs', Saved msg dst fin next) ->
  let n := py_len (images st) in
  let shown := if n =? 1 then current_index st
               else (current_index st + 1) mod n in
  (st', next)
  = _get_current_image_data W (set_current_index shown (set_rotation 0 st))
  /\ current_index st' = shown
  /\ rotation st' = 0
  /\ images st' = images st
  /\ save_path st' = save_path st
  /\ fin = false
  /\ msg = (if n =? 1 then "图片已保存"
            else "图片已保存，当前第 " +:+ PyStr.of_int (shown + 1) +:+ "/"
                 +:+ PyStr.of_int n +:+ " 张").
Proof.
  unfold rename_and_save.
  destruct (is_empty (images st) || (py_len (images st) <=? current_index st));
    [discriminate|].
  destruct (String.eqb (save_path st) ""); [discriminate|].
  destruct (String.eqb name "" && String.eqb number ""); [discriminate|].
  destruct (negb (is_empty (invalid_found name number))); [discriminate|].
  destruct (getitem (images st) (current_index st)) as [path|e];
    [|discriminate].
  destruct (probe_free _ _ _ _ _ _ _) as [dst0|]; [|discriminate].
  destruct (perform_write W _) as [[]|e]; [|discriminate].
  cbn [images set_rotation current_index]. cbv zeta.
  destruct (py_len (images st) =? 1) eqn:Hone.
  - replace (set_current_index (current_index st) (set_rotation 0 st))
      with (set_rotation 0 st) by (destruct st; reflexivity).
    pose proof (get_data_same_session W (set_rotation 0 st))
      as ((Hi & Hc & Hr) & Hs & _).
    destruct (_get_current_image_data W (set_rotation 0 st)) as [st1 nx].
    intros [= <- <- <- <- <- <-]. cbn [fst] in *.
    repeat split; assumption.
  - match goal with |- context [_get_current_image_data W ?s] =>
      replace (set_current_index ((current_index st + 1) mod py_len (images st))
                 (set_rotation 0 st)) with s by reflexivity;
      pose proof (get_data_same_session W s) as ((Hi & Hc & Hr) & Hs & _);
      destruct (_get_current_image_data W s) as [st1 nx]
    end.
    intros [= <- <- <- <- <- <-]. cbn [fst] in *.
    cbn [images current_index set_current_index set_rotation] in *.
    rewrite Hc. repeat split; assumption.
Qed.

Lemma commit_advances_session_witness :
  exists st' fs' msg next,
    rename_and_save sample_world 3 sample_session destination_with_A1 "A" "1"
    = Some (st', fs', Saved msg "/out/A-1.png" false next)
    /\ current_index st' = 0 /\ rotation st' = 0
    /\ images st' = images sample_session.
Proof.
  do 4 eexists. split; [vm_compute; reflexivity|].
  destruct (commit_advances_session sample_world 3 sample_session _
              destination_with_A1 _ "A" "1" _ _ _ _ eq_refl)
    as (_ & H2 & H3 & H4 & _).
  split; [exact H2|]. split; [exact H3|exact H4].
Defined.

(** ** Navigation composes *)

Lemma next_image_index W st :
  has_active_asset st ->
  current_index (fst (next_image W st))
  = (current_index st + 1) mod py_len (images st)
  /\ images (fst (next_image W st)) = images st.
Proof.
  intros [Hne _]. rewrite (next_image_unfold W st Hne).
  now rewrite get_data_index, get_data_images.
Qed.

Lemma prev_image_index W st :
  has_active_asset st ->
  current_index (fst (prev_image W st))
  = (current_index st - 1) mod py_len (images st)
  /\ images (fst (prev_image W st)) = images st.
Proof.
  intros [Hne _]. rewrite (prev_image_unfold W st Hne).
  now rewrite get_data_index, get_data_images.
Qed.

Lemma next_image_iter W st k :
  has_active_asset st ->
  let st' := Nat.iter k (fun s => fst (next_image W s)) st in
  images st' = images st
  /\ current_index st' = (current_index st + Z.of_nat k) mod py_len (images st).
Proof.
  intros Hact. cbv zeta. induction k as [|k [IHi IHc]].
  - cbn. split; [reflexivity|]. rewrite Z.add_0_r.
    symmetry. apply Z.mod_small, Hact.
  - change (Nat.iter (S k) (fun s => fst (next_image W s)) st)
      with (fst (next_image W (Nat.iter k (fun s => fst (next_image W s)) st))).
    set (s := Nat.iter k (fun s => fst (next_image W s)) st) in *.
    assert (Hs : has_active_asset s).
    { destruct Hact as [Hne Hi]. split; rewrite IHi; [assumption|].
      rewrite IHc. apply Z.mod_pos_bound. lia. }
    destruct (next_image_index W s Hs) as [Hc Hi].
    split; [congruence|].
    rewrite Hc, IHi, IHc, Zplus_mod_idemp_l. f_equal. lia.
Qed.

(** X11: over an active asset, [prev] undoes [next] and [next] undoes
    [prev] on the index, and as many [next] calls as there are assets lead
    back to the asset they started from. *)
Theorem next_and_prev_compose (W : World) (st : Api) :
  has_active_asset st ->
  current_index (fst (prev_image W (fst (next_image W st)))) = current_index st
  /\ current_index (fst (next_image W (fst (prev_image W st)))) = current_index st
  /\ current_index
       (Nat.iter (length (images st)) (fun s => fst (next_image W s)) st)
     = current_index st
  /\ forall k,
       current_index (Nat.iter k (fun s => fst (next_image W s)) st)
       = (current_index st + Z.of_nat k) mod py_len (images st).
Proof.
  intros Hact. pose proof Hact as [Hne Hi].
  pose proof (py_len_pos _ Hne) as Hn.
  destruct (next_image_index W st Hact) as [Hnc Hni].
  destruct (prev_image_index W st Hact) as [Hpc Hpi].
  assert (Hnact : has_active_asset (fst (next_image W st))).
  { split; rewrite Hni; [assumption|]. rewrite Hnc. apply Z.mod_pos_bound. lia. }
  assert (Hpact : has_active_asset (fst (prev_image W st))).
  { split; rewrite Hpi; [assumption|]. rewrite Hpc. apply Z.mod_pos_bound. lia. }
  destruct (prev_image_index W _ Hnact) as [H1 _].
  destruct (next_image_index W _ Hpact) as [H2 _].
  split; [|split; [|split]].
  - rewrite H1, Hni, Hnc, Zminus_mod_idemp_l.
    replace (current_index st + 1 - 1) with (current_index st) by lia.
    now apply Z.mod_small.
  - rewrite H2, Hpi, Hpc, Zplus_mod_idemp_l.
    replace (current_index st - 1 + 1) with (current_index st) by lia.
    now apply Z.mod_small.
  - destruct (next_image_iter W st (length (images st)) Hact) as [_ ->].
    fold (py_len (images st)).
    rewrite <- (Z.mul_1_l (py_len (images st))) at 1.
    rewrite Z.mod_add by lia. now apply Z.mod_small.
  - intros k. apply (next_image_iter W st k Hact).
Qed.

Lemma next_and_prev_compose_witness :
  has_active_asset sample_session
  /\ current_index
       (fst (prev_image sample_world (fst (next_image sample_world sample_session))))
     = 2
  /\ current_index
       (Nat.iter 3 (fun s => fst (next_image sample_world s)) sample_session)
     = 2.
Proof.
  assert (H : has_active_asset sample_session).
  { split; [discriminate|]. unfold py_len. cbn. lia. }
  split; [exact H|].
  destruct (next_and_prev_compose sample_world sample_session H)
    as (H1 & _ & H3 & _).
  split; [exact H1|exact H3].
Defined.

(** ** Characters of a path *)

Lemma contains_app c (a b : string) :
  PyStr.contains c (a +:+ b) = PyStr.contains c a || PyStr.contains c b.
Proof.
  induction a as [|d a IH]; [reflexivity|].
  rewrite string_app_cons. cbn [PyStr.contains]. rewrite IH.
  now rewrite orb_assoc.
Qed.

Lemma lower_char_sep d :
  Ascii.eqb (PyStr.lower_char d) os_path.sep = Ascii.eqb d os_path.sep.
Proof. destruct d as [[] [] [] [] [] [] [] []]; reflexivity. Qed.

Lemma lower_char_dot d :
  Ascii.eqb (PyStr.lower_char d) os_path.extsep = Ascii.eqb d os_path.extsep.
Proof. destruct d as [[] [] [] [] [] [] [] []]; reflexivity. Qed.

Lemma contains_lower_sep s :
  PyStr.contains os_path.sep (PyStr.lower s) = PyStr.contains os_path.sep s.
Proof.
  induction s as [|d s IH]; [reflexivity|].
  cbn [PyStr.lower PyStr.contains]. now rewrite IH, lower_char_sep.
Qed.

Lemma startswith_lower_dot s :
  PyStr.startswith os_path.extsep (PyStr.lower s)
  = PyStr.startswith os_path.extsep s.
Proof. destruct s as [|d s]; [reflexivity|]. apply lower_char_dot. Qed.

Lemma drop_empty n : PyStr.drop n "" = "".
Proof. now destruct n. Qed.

Lemma contains_drop_S c n s :
  PyStr.contains c (PyStr.drop n s) = false ->
  PyStr.contains c (PyStr.drop (S n) s) = false.
Proof.
  revert s. induction n as [|n IH]; intros s H.
  - destruct s as [|d s]; [reflexivity|]. cbn in *.
    apply orb_false_iff in H. tauto.
  - destruct s as [|d s]; [reflexivity|]. cbn [PyStr.drop] in *.
    now apply IH.
Qed.

Lemma contains_drop_le c n m s :
  (n <= m)%nat ->
  PyStr.contains c (PyStr.drop n s) = false ->
  PyStr.contains c (PyStr.drop m s) = false.
Proof.
  induction 1 as [|m Hle IH]; intros H; [assumption|].
  now apply contains_drop_S, IH.
Qed.

(** The last occurrence: nothing equal to [c] follows the index [rfind]
    returns, and the character at that index is [c]. *)
Lemma rfind_from_spec c s : forall i last,
  last < i ->
  let r := PyStr.rfind_from c s i last in
  (r = last /\ PyStr.contains c s = false)
  \/ (i <= r
      /\ PyStr.contains c (PyStr.drop (Z.to_nat (r - i + 1)) s) = false
      /\ PyStr.startswith c (PyStr.drop (Z.to_nat (r - i)) s) = true).
Proof.
  induction s as [|d s IH]; intros i last Hlt; cbv zeta; cbn [PyStr.rfind_from].
  - left. split; reflexivity.
  - destruct (Ascii.eqb d c) eqn:Hd.
    + destruct (IH (i + 1) i ltac:(lia)) as [[Hr Hc] | (Hr & Hc & Hs)];
        cbv zeta in *.
      * right. rewrite Hr. replace (i - i + 1) with 1 by lia.
        replace (i - i) with 0 by lia.
        change (Z.to_nat 1) with 1%nat. change (Z.to_nat 0) with 0%nat.
        cbn [PyStr.drop PyStr.startswith]. rewrite Hd.
        split; [lia|]. split; [assumption|reflexivity].
      * right. set (r := PyStr.rfind_from c s (i + 1) i) in *.
        split; [lia|].
        replace (Z.to_nat (r - i + 1)) with (S (Z.to_nat (r - (i + 1) + 1)))
          by lia.
        replace (Z.to_nat (r - i)) with (S (Z.to_nat (r - (i + 1)))) by lia.
        cbn [PyStr.drop]. split; assumption.
    + destruct (IH (i + 1) last ltac:(lia)) as [[Hr Hc] | (Hr & Hc & Hs)];
        cbv zeta in *.
      * left. split; [assumption|]. cbn [PyStr.contains]. now rewrite Hd, Hc.
      * right. set (r := PyStr.rfind_from c s (i + 1) last) in *.
        split; [lia|].
        replace (Z.to_nat (r - i + 1)) with (S (Z.to_nat (r - (i + 1) + 1)))
          by lia.
        replace (Z.to_nat (r - i)) with (S (Z.to_nat (r - (i + 1)))) by lia.
        cbn [PyStr.drop]. split; assumption.
Qed.

Lemma rfind_spec c s :
  (PyStr.rfind c s = -1 /\ PyStr.contains c s = false)
  \/ (0 <= PyStr.rfind c s
      /\ PyStr.contains c (PyStr.slice_from (PyStr.rfind c s + 1) s) = false
      /\ PyStr.startswith c (PyStr.slice_from (PyStr.rfind c s) s) = true).
Proof.
  unfold PyStr.rfind, PyStr.slice_from.
  destruct (rfind_from_spec c s 0 (-1) ltac:(lia)) as [H | (H1 & H2 & H3)];
    cbv zeta in *; [now left|right].
  rewrite Z.sub_0_r in *. split; [assumption|]. split; assumption.
Qed.

(** The extension [splitext] returns has no separator and, unless empty,
    begins with the dot. *)
Lemma splitext_ext p :
  PyStr.contains os_path.sep (snd (os_path.splitext p)) = false
  /\ (snd (os_path.splitext p) <> "" ->
      PyStr.startswith os_path.extsep (snd (os_path.splitext p)) = true).
Proof.
  unfold os_path.splitext.
  destruct ((PyStr.rfind os_path.sep p <? PyStr.rfind os_path.extsep p) && _)
    eqn:Hc; cbn [snd]; [|split; [reflexivity|congruence]].
  apply andb_true_iff in Hc as [Hlt _]. apply Z.ltb_lt in Hlt.
  split.
  - destruct (rfind_spec os_path.sep p) as [[_ Hno] | (H0 & Hno & _)].
    + unfold PyStr.slice_from.
      apply (contains_drop_le _ 0); [lia|exact Hno].
    + unfold PyStr.slice_from in *.
      eapply contains_drop_le; [|exact Hno]. lia.
  - intros _.
    assert (-1 <= PyStr.rfind os_path.sep p)
      by (destruct (rfind_spec os_path.sep p) as [[-> _] | (H0 & _)]; lia).
    destruct (rfind_spec os_path.extsep p) as [[Hm _] | (_ & _ & Hs)];
      [lia|exact Hs].
Qed.

Lemma export_ext_shape path :
  PyStr.contains os_path.sep (export_ext path) = false
  /\ PyStr.startswith os_path.extsep (export_ext path) = true.
Proof.
  unfold export_ext. destruct (splitext_ext path) as [Hno Hdot].
  destruct (String.eqb (PyStr.lower (snd (os_path.splitext path))) "") eqn:He.
  - split; reflexivity.
  - rewrite contains_lower_sep, startswith_lower_dot. split; [assumption|].
    apply Hdot. intros Hempty. rewrite Hempty in He. discriminate.
Qed.

(** ** The exported file lies in the destination folder *)

Lemma pretty_N_char_not_sep y :
  Ascii.eqb (pretty_N_char y) os_path.sep = false.
Proof. unfold pretty_N_char. repeat case_match; reflexivity. Qed.

Lemma contains_pretty_N_go x : forall s,
  PyStr.contains os_path.sep (pretty_N_go x s) = PyStr.contains os_path.sep s.
Proof.
  induction (N.lt_wf_0 x) as [x _ IH]. intros s.
  destruct (decide (0 < x)%N) as [Hx|Hx].
  - rewrite pretty_N_go_step by assumption.
    rewrite IH by (apply N.div_lt; [assumption|reflexivity]).
    cbn [PyStr.contains]. now rewrite pretty_N_char_not_sep.
  - assert (x = 0%N) as -> by lia. now rewrite pretty_N_go_0.
Qed.

Lemma contains_of_int k : PyStr.contains os_path.sep (PyStr.of_int k) = false.
Proof.
  unfold PyStr.of_int, pretty, pretty_Z.
  assert (HN : forall n : N, PyStr.contains os_path.sep (pretty n) = false).
  { intros n. unfold pretty, pretty_N. case_decide; [reflexivity|].
    now rewrite contains_pretty_N_go. }
  destruct k as [|p|p]; [reflexivity|apply HN|].
  rewrite contains_app. cbn. apply HN.
Qed.

Lemma valid_name_no_sep name number :
  valid_name_number name number ->
  PyStr.contains os_path.sep (export_base name number) = false.
Proof.
  intros [_ Hfound].
  assert (Hno : ~ reserved_in name number os_path.sep).
  { rewrite <- invalid_found_spec, Hfound. apply not_elem_of_nil. }
  assert (Hn : PyStr.contains os_path.sep name = false
               /\ PyStr.contains os_path.sep number = false).
  { destruct (PyStr.contains os_path.sep name) eqn:H1,
             (PyStr.contains os_path.sep number) eqn:H2; try tauto;
      exfalso; apply Hno; (split; [decide_by_compute|tauto]). }
  destruct Hn as [H1 H2]. unfold export_base.
  destruct (negb (String.eqb name "") && negb (String.eqb number ""));
    [|destruct (negb (String.eqb name "")); assumption].
  rewrite !contains_app, H1, H2. reflexivity.
Qed.

Lemma no_sep_startswith b :
  PyStr.contains os_path.sep b = false -> PyStr.startswith os_path.sep b = false.
Proof.
  destruct b as [|d b]; [reflexivity|]. cbn.
  intros H. apply orb_false_iff in H. tauto.
Qed.

Lemma rfind_from_no c b : forall i last,
  PyStr.contains c b = false -> PyStr.rfind_from c b i last = last.
Proof.
  induction b as [|d b IH]; intros i last H; [reflexivity|].
  cbn in *. apply orb_false_iff in H as [-> H]. now apply IH.
Qed.

Lemma rfind_from_app c a : forall b i last,
  PyStr.rfind_from c (a +:+ b) i last
  = PyStr.rfind_from c b (i + PyStr.len a) (PyStr.rfind_from c a i last).
Proof.
  induction a as [|d a IH]; intros b i last.
  - unfold PyStr.len. cbn. now rewrite Z.add_0_r.
  - rewrite string_app_cons. cbn [PyStr.rfind_from]. rewrite IH.
    f_equal. unfold PyStr.len. cbn [String.length]. lia.
Qed.

Lemma rfind_from_endswith c a : forall i last,
  PyStr.endswith c a = true ->
  PyStr.rfind_from c a i last = i + PyStr.len a - 1.
Proof.
  induction a as [|d a IH]; intros i last H; [discriminate|].
  cbn [PyStr.rfind_from]. destruct a as [|d' a'].
  - cbn in H. rewrite H. unfold PyStr.len. cbn. lia.
  - rewrite IH by exact H. unfold PyStr.len. cbn [String.length]. lia.
Qed.

Lemma drop_app_length (a b : string) :
  PyStr.drop (String.length a) (a +:+ b) = b.
Proof. induction a as [|d a IH]; [reflexivity|]. exact IH. Qed.

Lemma endswith_app_sep a :
  PyStr.endswith os_path.sep (a +:+ String os_path.sep "") = true.
Proof.
  induction a as [|d a IH]; [reflexivity|].
  rewrite string_app_cons. cbn [PyStr.endswith].
  destruct (a +:+ String os_path.sep "") eqn:Ha; [|exact IH].
  destruct a; discriminate.
Qed.

Lemma basename_after_sep a b :
  PyStr.endswith os_path.sep a = true ->
  PyStr.contains os_path.sep b = false ->
  os_path.basename (a +:+ b) = b.
Proof.
  intros Ha Hb. unfold os_path.basename, PyStr.rfind, PyStr.slice_from.
  rewrite rfind_from_app, (rfind_from_no _ _ _ _ Hb), (rfind_from_endswith _ _ _ _ Ha).
  replace (Z.to_nat (0 + PyStr.len a - 1 + 1)) with (String.length a)
    by (unfold PyStr.len; lia).
  apply drop_app_length.
Qed.

(** A file name without separator, joined to a folder that is not empty:
    the path is the folder, one separator unless the folder ends with one,
    and the name; the name is its base name. *)
Lemma join_file_name a b :
  a <> "" -> PyStr.contains os_path.sep b = false ->
  (os_path.join a b = a +:+ b \/ os_path.join a b = a +:+ String os_path.sep b)
  /\ os_path.basename (os_path.join a b) = b.
Proof.
  intros Ha Hb. unfold os_path.join.
  rewrite (no_sep_startswith b Hb), (string_eqb_false _ _ Ha). cbn [orb].
  destruct (PyStr.endswith os_path.sep a) eqn:He.
  - split; [now left|]. now apply basename_after_sep.
  - split; [now right|].
    change (a +:+ String os_path.sep b)
      with (a +:+ (String os_path.sep "" +:+ b)).
    rewrite <- string_app_assoc.
    apply basename_after_sep; [apply endswith_app_sep|assumption].
Qed.

(** X12: the file a commit writes lies directly in the destination folder,
    whatever the name and the number: its path is the folder, a separator
    unless the folder ends with one, and a file name without separator,
    which is the base name, the suffix [(k)] if there is one, and an
    extension that begins with a dot. *)
Theorem export_lands_in_destination (W : World) (fuel : nat) (st st' : Api)
    (fs fs' : gset string) (name number msg dst : string) (fin : bool)
    (next : response) :
  rename_and_save W fuel st fs name number
  = Some (st', fs', Saved msg dst fin next) ->
  exists path fname,
    getitem (images st) (current_index st) = Returns path
    /\ (fname = export_base name number +:+ export_ext path
        \/ exists k, 1 <= k
             /\ fname = export_base name number +:+ "(" +:+ PyStr.of_int k
                        +:+ ")" +:+ export_ext path)
    /\ PyStr.contains os_path.sep fname = false
    /\ (dst = save_path st +:+ fname
        \/ dst = save_path st +:+ String os_path.sep fname)
    /\ os_path.basename dst = fname
    /\ PyStr.startswith os_path.extsep (export_ext path) = true.
Proof.
  intros Hrun.
  destruct (rename_and_save_inv _ _ _ _ _ _ _ _ _ Hrun)
    as [(Hf & _) | (path & dst' & msg' & next' & Heq & Hget & Hprobe & _ & _
                    & _ & Hsave & Hvalid)];
    [discriminate|].
  injection Heq as -> -> -> ->.
  destruct (export_ext_shape path) as [Hext Hdot].
  pose proof (valid_name_no_sep name number Hvalid) as Hbase.
  destruct (probe_free_first _ _ _ _ _ _ _ _ Hprobe)
    as (_ & [-> | (k & Hk & -> & _)]).
  - set (fname := export_base name number +:+ export_ext path).
    assert (Hno : PyStr.contains os_path.sep fname = false).
    { unfold fname. now rewrite contains_app, Hbase, Hext. }
    destruct (join_file_name (save_path st) fname Hsave Hno) as [Hj Hb].
    exists path, fname. split; [assumption|]. split; [now left|].
    split; [assumption|]. split; [assumption|]. split; assumption.
  - unfold numbered_path.
    set (fname := export_base name number +:+ "(" +:+ PyStr.of_int k +:+ ")"
                  +:+ export_ext path).
    assert (Hno : PyStr.contains os_path.sep fname = false).
    { unfold fname. rewrite !contains_app, Hbase, Hext, contains_of_int.
      reflexivity. }
    destruct (join_file_name (save_path st) fname Hsave Hno) as [Hj Hb].
    exists path, fname. split; [assumption|].
    split; [right; exists k; split; [assumption|reflexivity]|].
    split; [assumption|]. split; [assumption|]. split; assumption.
Qed.

Lemma export_lands_in_destination_witness :
  exists path fname,
    getitem (images drawings_session) (current_index drawings_session)
    = Returns path
    /\ PyStr.contains os_path.sep fname = false
    /\ os_path.basename "/out/A-1(1).jpg" = fname.
Proof.
  destruct (export_lands_in_destination sample_world 3 drawings_session
              (fst (after_commit
                      (rename_and_save sample_world 3 drawings_session
                         destination_with_A1 "A" "1")
                      drawings_session destination_with_A1))
              destination_with_A1
              (snd (after_commit
                      (rename_and_save sample_world 3 drawings_session
                         destination_with_A1 "A" "1")
                      drawings_session destination_with_A1))
              "A" "1" "图片已保存，当前第 2/3 张" "/out/A-1(1).jpg" false
              (snd (_get_current_image_data sample_world
                      (set_current_index 1 drawings_session))))
    as (path & fname & H1 & _ & H3 & _ & H5 & _).
  - vm_compute. reflexivity.
  - exists path, fname. split; [exact H1|]. split; [exact H3|exact H5].
Defined.

(** ** Commits do not collide *)




(** ** The box handed to the crop *)

Section CropBox.
Import PyFloat PyFloatFacts.

Lemma map_selection_inv (aw ah : Z) (x y width height iw ih : Q) (b : box) :
  map_selection (aw, ah) x y width height iw ih = Returns b ->
  exists sx sy,
    div (of_int aw) iw = Returns sx /\ div (of_int ah) ih = Returns sy
    /\ b = (clamp aw (to_int (mul x sx)), clamp ah (to_int (mul y sy)),
            clamp aw (clamp aw (to_int (mul x sx)) + to_int (mul width sx)),
            clamp ah (clamp ah (to_int (mul y sy)) + to_int (mul height sy))).
Proof.
  unfold map_selection.
  destruct (div (of_int aw) iw) as [sx|e]; [|discriminate].
  destruct (div (of_int ah) ih) as [sy|e]; [|discriminate].
  cbn [mbind result_bind mret result_ret]. intros [= <-].
  exists sx, sy. repeat split.
Qed.

Lemma map_selection_zero (aw ah : Z) (x y width height iw ih : Q) :
  (iw == 0)%Q \/ (ih == 0)%Q ->
  map_selection (aw, ah) x y width height iw ih
  = Raises "float division by zero".
Proof.
  intros Hz. unfold map_selection, div.
  destruct (Qeq_bool iw 0) eqn:Hw; [reflexivity|].
  destruct (Qeq_bool ih 0) eqn:Hh; [reflexivity|].
  destruct Hz as [Hz|Hz]; apply Qeq_bool_iff in Hz; congruence.
Qed.

Lemma scaled_extent_nonneg (a : Z) (i len s : Q) :
  (0 <= a)%Z -> (0 < i)%Q -> (0 <= len)%Q ->
  div (of_int a) i = Returns s -> (0 <= to_int (mul len s))%Z.
Proof.
  intros Ha Hi Hlen. unfold div.
  destruct (Qeq_bool i 0); [discriminate|]. intros [= <-].
  assert (Hqa : (0 <= inject_Z a)%Q).
  { change 0%Q with (inject_Z 0). now rewrite <- Zle_Qle. }
  pose proof (round64_nonneg (inject_Z a) Hqa) as Hfa.
  fold (of_int a) in Hfa.
  assert (Hquot : (0 <= of_int a / i)%Q) by (apply Qle_shift_div_l; lra).
  pose proof (round64_nonneg _ Hquot) as Hs.
  apply to_int_nonneg. unfold mul. apply round64_nonneg.
  set (s := round64 (of_int a / i)) in *. clearbody s. nra.
Qed.

(** X14: whatever selection the caller passes, inside the picture or not,
    the text [crop_and_ocr] returns is the answer of the OCR service for a
    box whose four coordinates lie inside the rotated image, the far edges
    not before the near ones when the extent is not negative; a screen
    width or height of zero makes the call fail. *)
Theorem crop_box_is_clamped (W : World) (st : Api)
    (x y width height iw ih : Q) :
  (forall p n, _load_image W p = Returns n -> 0 <= fst n /\ 0 <= snd n) ->
  (forall text,
     snd (crop_and_ocr W st x y width height iw ih) = OcrText text ->
     exists path natural x1 y1 x2 y2,
       getitem (images st) (current_index st) = Returns path
       /\ _load_image W path = Returns natural
       /\ crop_then_ocr W path (rotation st) (x1, y1, x2, y2) = Returns text
       /\ map_selection (rotated_size (rotation st) natural)
            x y width height iw ih = Returns (x1, y1, x2, y2)
       /\ 0 <= x1 <= fst (rotated_size (rotation st) natural)
       /\ 0 <= x2 <= fst (rotated_size (rotation st) natural)
       /\ 0 <= y1 <= snd (rotated_size (rotation st) natural)
       /\ 0 <= y2 <= snd (rotated_size (rotation st) natural)
       /\ ((0 <= width)%Q -> (0 < iw)%Q -> x1 <= x2)
       /\ ((0 <= height)%Q -> (0 < ih)%Q -> y1 <= y2))
  /\ ((iw == 0)%Q \/ (ih == 0)%Q ->
      success (snd (crop_and_ocr W st x y width height iw ih)) = false).
Proof.
  intros Hsize. split.
  - intros text. unfold crop_and_ocr.
    destruct (is_empty (images st) || (py_len (images st) <=? current_index st));
      [discriminate|].
    destruct (getitem (images st) (current_index st)) as [path|e] eqn:Hget;
      [|discriminate].
    cbn [mbind result_bind].
    destruct (_load_image W path) as [natural|e] eqn:Hload; [|discriminate].
    cbn [mbind result_bind].
    destruct (Hsize path natural Hload) as [Hn1 Hn2].
    assert (Hrot : 0 <= fst (rotated_size (rotation st) natural)
                   /\ 0 <= snd (rotated_size (rotation st) natural)).
    { unfold rotated_size, rotate_expand.
      destruct (negb (rotation st =? 0)); [|tauto].
      destruct ((_ =? 90) || (_ =? 270)); cbn [fst snd]; tauto. }
    destruct (rotated_size (rotation st) natural) as [aw ah] eqn:Hrs.
    cbn [fst snd] in Hrot. destruct Hrot as [Haw Hah].
    destruct (map_selection (aw, ah) x y width height iw ih)
      as [[[[x1 y1] x2] y2]|e] eqn:Hmap; [|discriminate].
    cbn [mbind result_bind].
    destruct (crop_then_ocr W path (rotation st) (x1, y1, x2, y2))
      as [t|e] eqn:Hocr; [|discriminate].
    intros [= <-].
    destruct (map_selection_inv _ _ _ _ _ _ _ _ _ Hmap)
      as (sx & sy & Hsx & Hsy & Hb).
    injection Hb as -> -> -> ->.
    exists path, natural. do 4 eexists.
    rewrite ?Hrs.
    split; [reflexivity|]. split; [exact Hload|]. split; [exact Hocr|].
    split; [exact Hmap|]. cbn [fst snd]. unfold clamp.
    split; [lia|]. split; [lia|]. split; [lia|]. split; [lia|]. split.
    + intros Hw Hiw.
      pose proof (scaled_extent_nonneg aw iw width sx Haw Hiw Hw Hsx). lia.
    + intros Hh Hih.
      pose proof (scaled_extent_nonneg ah ih height sy Hah Hih Hh Hsy). lia.
  - intros Hz. unfold crop_and_ocr.
    destruct (is_empty (images st) || (py_len (images st) <=? current_index st));
      [reflexivity|].
    destruct (getitem (images st) (current_index st)) as [path|e];
      [|reflexivity].
    cbn [mbind result_bind].
    destruct (_load_image W path) as [natural|e]; [|reflexivity].
    cbn [mbind result_bind].
    destruct (rotated_size (rotation st) natural) as [aw ah].
    now rewrite (map_selection_zero aw ah x y width height iw ih Hz).
Qed.

Lemma crop_box_is_clamped_witness :
  (forall p n, _load_image sample_world p = Returns n -> 0 <= fst n /\ 0 <= snd n)
  /\ (exists x1 y1 x2 y2,
        crop_then_ocr sample_world "/scans/c.png" 0 (x1, y1, x2, y2)
        = Returns "A-1"
        /\ 0 <= x1 <= 6000 /\ 0 <= x2 <= 6000
        /\ 0 <= y1 <= 4000 /\ 0 <= y2 <= 4000)
  /\ success
       (snd (crop_and_ocr sample_world sample_session 10 10 50 50 0 800))
     = false.
Proof.
  assert (H : forall p n, _load_image sample_world p = Returns n ->
                          0 <= fst n /\ 0 <= snd n).
  { intros p n. unfold _load_image. cbn [fitz_first_page pil_open_upright sample_world].
    destruct (_is_pdf p); intros [= <-]; cbn; lia. }
  split; [exact H|]. split.
  - destruct (crop_box_is_clamped sample_world sample_session
                (-50) 300 2000 2000 1200 800 H) as [Hbox _].
    destruct (Hbox "A-1") as (path & natural & x1 & y1 & x2 & y2 & Hget & Hload
                              & Hocr & _ & Hx1 & Hx2 & Hy1 & Hy2 & _).
    { vm_compute. reflexivity. }
    vm_compute in Hget. injection Hget as <-.
    vm_compute in Hload. injection Hload as <-.
    exists x1, y1, x2, y2. split; [exact Hocr|].
    change (rotated_size (rotation sample_session) (6000, 4000))
      with (6000, 4000) in Hx1, Hx2, Hy1, Hy2.
    cbn [fst snd] in Hx1, Hx2, Hy1, Hy2. tauto.
  - destruct (crop_box_is_clamped sample_world sample_session 10 10 50 50 0 800 H)
      as [_ Hz].
    apply Hz. left. reflexivity.
Defined.

(** A selection far outside the picture is cut to the image, and a negative
    extent gives a far edge before the near one. *)
Example selection_outside_picture :
  map_selection (600, 400) (-50) 300 2000 2000 300 200
  = Returns (0, 400, 600, 400)
  /\ map_selection (600, 400) 100 100 (-60) 10 300 200
     = Returns (200, 200, 80, 220).
Proof. vm_compute. split; reflexivity. Qed.

End CropBox.

(** ** Choosing the destination *)

(** A commit never changes the destination folder. *)
Lemma rename_and_save_keeps_save_path W fuel st fs name number st' fs' r :
  rename_and_save W fuel st fs name number = Some (st', fs', r) ->
  save_path st' = save_path st.
Proof.
  unfold rename_and_save.
  destruct (is_empty (images st) || (py_len (images st) <=? current_index st));
    [now intros [= <- _ _]|].
  destruct (String.eqb (save_path st) ""); [now intros [= <- _ _]|].
  destruct (String.eqb name "" && String.eqb number "");
    [now intros [= <- _ _]|].
  destruct (negb (is_empty (invalid_found name number)));
    [now intros [= <- _ _]|].
  destruct (getitem (images st) (current_index st)) as [path|e];
    [|now intros [= <- _ _]].
  destruct (probe_free _ _ _ _ _ _ _) as [dst|]; [|discriminate].
  destruct (perform_write W _) as [[]|e]; [|now intros [= <- _ _]].
  cbn [images set_rotation current_index].
  destruct (py_len (images st) =? 1);
    match goal with |- context [_get_current_image_data W ?s] =>
      pose proof (get_data_same_session W s) as (_ & Hs & _);
      destruct (_get_current_image_data W s) as [st1 next]
    end;
    intros [= <- _ _]; exact Hs.
Qed.

(** The path the probing loop returns for a valid name and number is new
    and lies directly in the folder it was given. *)
Lemma probed_path_in_folder fuel fs save name number path dst :
  save <> "" -> valid_name_number name number ->
  probe_free fuel fs save (export_base name number) (export_ext path)
    (os_path.join save (export_base name number +:+ export_ext path)) 1
  = Some dst ->
  (dst ∉ fs)
  /\ exists fname,
       PyStr.contains os_path.sep fname = false
       /\ (dst = save +:+ fname \/ dst = save +:+ String os_path.sep fname)
       /\ os_path.basename dst = fname.
Proof.
  intros Hsave Hvalid Hprobe.
  destruct (export_ext_shape path) as [Hext _].
  pose proof (valid_name_no_sep name number Hvalid) as Hbase.
  destruct (probe_free_first _ _ _ _ _ _ _ _ Hprobe)
    as (Hfree & [-> | (k & Hk & -> & _)]); (split; [assumption|]).
  - set (fname := export_base name number +:+ export_ext path).
    assert (Hno : PyStr.contains os_path.sep fname = false).
    { unfold fname. now rewrite contains_app, Hbase, Hext. }
    destruct (join_file_name save fname Hsave Hno) as [Hj Hb].
    exists fname. split; [assumption|]. split; assumption.
  - unfold numbered_path.
    set (fname := export_base name number +:+ "(" +:+ PyStr.of_int k +:+ ")"
                  +:+ export_ext path).
    assert (Hno : PyStr.contains os_path.sep fname = false).
    { unfold fname. rewrite !contains_app, Hbase, Hext, contains_of_int.
      reflexivity. }
    destruct (join_file_name save fname Hsave Hno) as [Hj Hb].
    exists fname. split; [assumption|]. split; assumption.
Qed.

(** X8: the folder chosen in [set_save_path] is where the next commit
    writes.  After the dialog returns a folder, a commit with a valid name
    and number in a session with an active asset, when the write succeeds,
    adds exactly one file that did not exist before, directly in that
    folder, and the folder is still what [get_save_path] returns afterwards.
    A dialog that is cancelled, returns nothing or raises fails and leaves
    the session, and with it the destination, as it was. *)
Theorem save_path_is_set_and_used (W : World) (st : Api) :
  (forall fuel fs folder rest name number,
     folder <> "" -> has_active_asset st ->
     valid_name_number name number ->
     (2 + size fs <= fuel)%nat ->
     (forall a, perform_write W a = Returns tt) ->
     let chosen := set_save_path st (Returns (Some (folder :: rest))) in
     snd chosen = PathSet folder
     /\ get_save_path (fst chosen) = folder
     /\ exists st' dst fname msg next,
          rename_and_save W fuel (fst chosen) fs name number
          = Some (st', {[ dst ]} ∪ fs, Saved msg dst false next)
          /\ (dst ∉ fs)
          /\ PyStr.contains os_path.sep fname = false
          /\ (dst = folder +:+ fname
              \/ dst = folder +:+ String os_path.sep fname)
          /\ os_path.basename dst = fname
          /\ get_save_path st' = folder)
  /\ (forall dialog,
        dialog = Returns None \/ dialog = Returns (Some [])
        \/ (exists e, dialog = Raises e) ->
        fst (set_save_path st dialog) = st
        /\ success (snd (set_save_path st dialog)) = false).
Proof.
  split; [|intros dialog [-> | [-> | [e ->]]]; split; reflexivity].
  intros fuel fs folder rest name number Hfolder Hact Hvalid Hfuel Hwrite.
  cbv zeta. cbn [set_save_path fst snd].
  split; [reflexivity|]. split; [reflexivity|].
  set (st0 := set_save_path_field folder st).
  assert (Hready : ready_to_commit st0) by (split; [exact Hact|exact Hfolder]).
  destruct (rename_and_save_commits W fuel st0 fs name number
              Hready Hvalid Hfuel Hwrite) as (st' & dst & msg & next & Hrun).
  destruct (rename_and_save_inv _ _ _ _ _ _ _ _ _ Hrun)
    as [(Hf & _) | (path & dst' & msg' & next' & Heq & _ & Hprobe & _)];
    [discriminate|].
  injection Heq as <- <- <-.
  destruct (probed_path_in_folder _ _ _ _ _ _ _ Hfolder Hvalid Hprobe)
    as (Hfree & fname & Hno & Hdst & Hbase).
  exists st', dst, fname, msg, next.
  split; [exact Hrun|]. split; [exact Hfree|]. split; [exact Hno|].
  split; [exact Hdst|]. split; [exact Hbase|].
  unfold get_save_path.
  now rewrite (rename_and_save_keeps_save_path _ _ _ _ _ _ _ _ _ Hrun).
Qed.

Lemma save_path_is_set_and_used_witness :
  exists st' dst fname msg next,
    rename_and_save sample_world 3
      (fst (set_save_path drawings_session (Returns (Some ["/export"]))))
      destination_with_A1 "A" "1"
    = Some (st', {[ dst ]} ∪ destination_with_A1, Saved msg dst false next)
    /\ (dst ∉ destination_with_A1)
    /\ os_path.basename dst = fname
    /\ get_save_path st' = "/export".
Proof.
  destruct (save_path_is_set_and_used sample_world drawings_session)
    as (H & _).
  destruct (H 3%nat destination_with_A1 "/export" [] "A" "1")
    as (_ & _ & st' & dst & fname & msg & next & Hrun & Hfree & _ & _ & Hb & Hs).
  - discriminate.
  - split; [discriminate|]. unfold py_len. cbn. lia.
  - split; [intros [Hn _]; discriminate|reflexivity].
  - vm_compute. lia.
  - intros a. reflexivity.
  - exists st', dst, fname, msg, next.
    split; [exact Hrun|]. split; [exact Hfree|]. split; [exact Hb|exact Hs].
Defined.
